(** * Analytics backend: data model, access policy, query filters, project
    statistics and the nested Event creation, embedded from
    [analytics/models.py], [analytics/serializers.py], [analytics/views.py]
    and [analytics/urls.py]. *)

From Stdlib Require Import QArith Ascii String.
From stdpp Require Import base option numbers list gmap strings sorting.

Open Scope string_scope.
Open Scope Z_scope.

(** ** Primitive data *)

(** Users have integer primary keys ([django.contrib.auth.models.User]); every
    other model but [Tag] has a UUID primary key, an opaque 128-bit token. *)
Abbreviation UserId := Z (only parsing).
Abbreviation UUID := Z (only parsing).

(** A [datetime] is the number of microseconds since [datetime.min]
    (0001-01-01T00:00:00); [datetime_max] is 9999-12-31T23:59:59.999999. *)
Abbreviation datetime := Z (only parsing).

Definition usec_per_day : Z := 86400 * 1000000.
Definition datetime_max : Z := 3652059 * usec_per_day - 1.

(** Exceptions and error responses the views can end in.  [Http404],
    [PermissionDenied], [NotAuthenticated] and the serializers' [BadRequest]
    (the framework's own [ValidationError]) are turned into 404/403/401/400
    responses by the framework; the others, Django's [ValidationError]
    among them, are not caught anywhere in the application and surface as a
    server error. *)
Inductive exn : Type :=
  | NotAuthenticated
  | PermissionDenied
  | Http404
  | BadRequest
  | ValueError
  | TypeError
  | AttributeError
  | OverflowError
  | ValidationError
  | IntegrityError
  | ObjectDoesNotExist
  | RelatedObjectDoesNotExist.

#[global] Instance exn_eq_dec : EqDecision exn.
Proof. solve_decision. Defined.

Definition handled (e : exn) : bool :=
  match e with
  | NotAuthenticated | PermissionDenied | Http404 | BadRequest => true
  | _ => false
  end.

Inductive result (A : Type) : Type :=
  | Ok (a : A)
  | Err (e : exn).
Arguments Ok {A} a.
Arguments Err {A} e.

#[global] Instance result_ret : MRet result := fun A a => Ok a.
#[global] Instance result_bind : MBind result := fun A B f m =>
  match m with
  | Ok a => f a
  | Err e => Err e
  end.

#[global] Instance result_fmap : FMap result := fun A B f m =>
  match m with
  | Ok a => Ok (f a)
  | Err e => Err e
  end.

(** [timedelta(days=d)]: the magnitude of [days] is limited to 999999999. *)
Definition timedelta_days (d : Z) : result Z :=
  if bool_decide (Z.abs d ≤ 999999999) then Ok (d * usec_per_day)
  else Err OverflowError.

(** [t - delta] on a datetime: the result must be a representable datetime. *)
Definition datetime_sub (t delta : Z) : result Z :=
  if bool_decide (0 ≤ t - delta ≤ datetime_max) then Ok (t - delta)
  else Err OverflowError.

(** ** models.py *)

Inductive EventType : Type :=
  | user_prompt | ai_response | user_feedback | user_action | error | other.

#[global] Instance EventType_eq_dec : EqDecision EventType.
Proof. solve_decision. Defined.

(** The stored value of each [EVENT_TYPES] choice. *)
Definition event_type_value (t : EventType) : string :=
  match t with
  | user_prompt => "user_prompt"
  | ai_response => "ai_response"
  | user_feedback => "user_feedback"
  | user_action => "user_action"
  | error => "error"
  | other => "other"
  end.

Module Project.
Record t : Type := mk {
  id : UUID;
  name : string;
  description : string;
  owner : UserId;
  members : gset Z;
}.
#[global] Instance eq_dec : EqDecision t.
Proof. solve_decision. Defined.
End Project.

Module Session.
Record t : Type := mk {
  id : UUID;
  project : UUID;
  user_id : option string;
  session_key : string;
  start_time : datetime;
  end_time : option datetime;
}.
#[global] Instance eq_dec : EqDecision t.
Proof. solve_decision. Defined.

  (** [Session.duration]: a datetime is always truthy, so the test is on
      [end_time] being set.  [total_seconds()] divides the microseconds by
      [10**6]; the quotient is kept exact here (the code rounds it to the
      nearest float). *)
Definition duration (self : t) : option Q :=
    match end_time self with
    | Some e => Some ((e - start_time self) # 1000000)%Q
    | None => None
    end.
End Session.

Module Event.
Record t : Type := mk {
  id : UUID;
  project : UUID;
  session : option UUID;
  event_type : EventType;
  timestamp : datetime;
}.
#[global] Instance eq_dec : EqDecision t.
Proof. solve_decision. Defined.
End Event.

Module UserPrompt.
Record t : Type := mk {
  id : UUID;
  event : UUID;
  prompt_text : string;
  model_name : string;
  tokens : Z;
}.
#[global] Instance eq_dec : EqDecision t.
Proof. solve_decision. Defined.
End UserPrompt.

#[global] Instance Q_eq_dec : EqDecision Q.
Proof. solve_decision. Defined.

Module AIResponse.
Record t : Type := mk {
  id : UUID;
  event : UUID;
  prompt : option UUID;
  response_text : string;
  model_name : string;
  tokens : Z;
  latency : Q;
}.
#[global] Instance eq_dec : EqDecision t.
Proof. solve_decision. Defined.
End AIResponse.

Module Feedback.
Record t : Type := mk {
  id : UUID;
  event : UUID;
  response : UUID;
  rating : option Z;
  comment : string;
  tags : list string;
}.
#[global] Instance eq_dec : EqDecision t.
Proof. solve_decision. Defined.
End Feedback.

Module Tag.
Record t : Type := mk {
  id : Z;
  project : UUID;
  name : string;
  color : string;
}.
#[global] Instance eq_dec : EqDecision t.
Proof. solve_decision. Defined.
End Tag.

Module Dashboard.
Record t : Type := mk {
  id : UUID;
  project : UUID;
  name : string;
  description : string;
}.
#[global] Instance eq_dec : EqDecision t.
Proof. solve_decision. Defined.
End Dashboard.

Inductive WidgetType : Type :=
  | line_chart | bar_chart | pie_chart | table | counter | heatmap | text.

#[global] Instance WidgetType_eq_dec : EqDecision WidgetType.
Proof. solve_decision. Defined.

Module Widget.
Record t : Type := mk {
  id : UUID;
  dashboard : UUID;
  title : string;
  widget_type : WidgetType;
}.
#[global] Instance eq_dec : EqDecision t.
Proof. solve_decision. Defined.
End Widget.

(** ** The persistent store

    One list of rows per table.  A [ManyToManyField] is a set of user ids
    (its through table is unique on the pair), kept in the project row. *)
Record Store : Type := mkStore {
  users : list UserId;
  projects : list Project.t;
  sessions : list Session.t;
  events : list Event.t;
  user_prompts : list UserPrompt.t;
  ai_responses : list AIResponse.t;
  feedback_rows : list Feedback.t;
  tags : list Tag.t;
  dashboards : list Dashboard.t;
  widgets : list Widget.t;
}.

(** ** Requests *)

Inductive Method : Type := GET | HEAD | OPTIONS | POST | PUT | PATCH | DELETE.

#[global] Instance Method_eq_dec : EqDecision Method.
Proof. solve_decision. Defined.

(** [permissions.SAFE_METHODS] *)
Definition SAFE_METHODS : list Method := [GET; HEAD; OPTIONS].

(** A float as the JSON parser yields it: a finite value, or an infinity for
    a number beyond the range of a double. *)
Inductive pyfloat : Type :=
  | Finite (q : Q)
  | Infinite (negative : bool).

(** What a parsed body ([request.data]) and the values in it are: [null], a
    boolean, an integer, a float, a string, an array or an object.  A
    form-encoded body is an object of strings. *)
#[local] Unset Elimination Schemes.
Inductive json : Type :=
  | JNull
  | JBool (b : bool)
  | JInt (z : Z)
  | JFloat (f : pyfloat)
  | JStr (s : string)
  | JArray (xs : list json)
  | JObject (kvs : gmap string json).
#[local] Set Elimination Schemes.

(** [user] is [None] for a request without an authenticated identity;
    [query_params] is read with [.get(key)]; [body] is the parsed body. *)
Record Request : Type := mkRequest {
  method : Method;
  user : option UserId;
  query_params : gmap string string;
  body : json;
}.

(** The entries of a body that is an object. *)
Definition data (request : Request) : gmap string json :=
  match body request with
  | JObject kvs => kvs
  | _ => ∅
  end.

(** [request.data.get(key)]: only an object has [get]; on any other body
    the attribute lookup raises. *)
Definition data_get (request : Request) (key : string) : result (option json) :=
  match body request with
  | JObject kvs => Ok (kvs !! key)
  | _ => Err AttributeError
  end.

(** [int(x)] on a float truncates towards zero. *)
Definition truncate (q : Q) : Z := Z.quot (Qnum q) (Zpos (Qden q)).

(** ** Related-object access, as attribute access resolves it *)

Definition project_by_id (s : Store) (pk : UUID) : list Project.t :=
  filter (λ p, Project.id p = pk) (projects s).

Definition event_by_id (s : Store) (pk : UUID) : list Event.t :=
  filter (λ e, Event.id e = pk) (events s).

Definition dashboard_by_id (s : Store) (pk : UUID) : list Dashboard.t :=
  filter (λ d, Dashboard.id d = pk) (dashboards s).

(** Any model instance a view hands to the permission check. *)
Inductive Obj : Type :=
  | OProject (o : Project.t)
  | OSession (o : Session.t)
  | OEvent (o : Event.t)
  | OUserPrompt (o : UserPrompt.t)
  | OAIResponse (o : AIResponse.t)
  | OFeedback (o : Feedback.t)
  | OTag (o : Tag.t)
  | ODashboard (o : Dashboard.t)
  | OWidget (o : Widget.t).

(** Fetching the row a foreign key points at: a related object is read from
    the store on first access, and a key without a row raises the related
    model's [DoesNotExist], which is no [AttributeError]. *)
Definition fetch_user (s : Store) (k : UserId) : result UserId :=
  if bool_decide (k ∈ users s) then Ok k else Err ObjectDoesNotExist.

Definition fetch_project (s : Store) (k : UUID) : result Project.t :=
  match head (project_by_id s k) with
  | Some p => Ok p
  | None => Err ObjectDoesNotExist
  end.

(** [getattr(obj, 'owner')]: only [Project] declares the field ([None] is
    the [AttributeError] of a class without it). *)
Definition attr_owner (s : Store) (obj : Obj) : result (option UserId) :=
  match obj with
  | OProject p => Some <$> fetch_user s (Project.owner p)
  | _ => Ok None
  end.

(** [getattr(obj, 'project')]: declared by [Session], [Event], [Tag] and
    [Dashboard]. *)
Definition attr_project (s : Store) (obj : Obj) : result (option Project.t) :=
  match obj with
  | OSession o => Some <$> fetch_project s (Session.project o)
  | OEvent o => Some <$> fetch_project s (Event.project o)
  | OTag o => Some <$> fetch_project s (Tag.project o)
  | ODashboard o => Some <$> fetch_project s (Dashboard.project o)
  | _ => Ok None
  end.

(** ** views.py: IsOwnerOrReadOnly

    [hasattr] catches [AttributeError] only, so the [DoesNotExist] of a
    dangling key passes through it and through the check. *)
Definition has_object_permission (s : Store) (request : Request) (obj : Obj)
    : result bool :=
  if bool_decide (method request ∈ SAFE_METHODS) then Ok true
  else
    owner ← attr_owner s obj;
    match owner with
    | Some owner => Ok (bool_decide (Some owner = user request))
    | None =>
        project ← attr_project s obj;
        match project with
        | Some project =>
            owner ← fetch_user s (Project.owner project);
            Ok (bool_decide (Some owner = user request))
        | None => Ok false
        end
    end.

(** ** Permission classes and dispatch *)

Inductive Permission : Type := IsAuthenticated | IsOwnerOrReadOnly.

Inductive ViewSet : Type :=
  | ProjectViewSet | SessionViewSet | EventViewSet | UserPromptViewSet
  | AIResponseViewSet | FeedbackViewSet | TagViewSet | DashboardViewSet
  | WidgetViewSet | UserViewSet.

#[global] Instance ViewSet_eq_dec : EqDecision ViewSet.
Proof. solve_decision. Defined.

(** The [permission_classes] attribute of each view set. *)
Definition permission_classes (v : ViewSet) : list Permission :=
  match v with
  | UserViewSet => [IsAuthenticated]
  | _ => [IsAuthenticated; IsOwnerOrReadOnly]
  end.

(** [has_permission]: [IsAuthenticated] asks for an authenticated user;
    [IsOwnerOrReadOnly] does not override it and inherits [True]. *)
Definition has_permission (p : Permission) (request : Request) : bool :=
  match p with
  | IsAuthenticated => bool_decide (is_Some (user request))
  | IsOwnerOrReadOnly => true
  end.

(** [check_permissions], run by [initial] before the handler is called. *)
Definition check_permissions (v : ViewSet) (request : Request) : result unit :=
  if forallb (λ p, has_permission p request) (permission_classes v) then Ok ()
  else if bool_decide (is_Some (user request)) then Err PermissionDenied
  else Err NotAuthenticated.

(** [dispatch]: the handler runs only after [check_permissions] passed, and
    receives the authenticated identity. *)
Definition dispatch {A} (v : ViewSet) (request : Request)
    (handler : UserId → result A) : result A :=
  _ ← check_permissions v request;
  match user request with
  | Some u => handler u
  | None => Err NotAuthenticated
  end.

(** ** Query sets *)

(** The rows of the many-to-many join for one project: one per member, or a
    single row with a NULL member when the project has none (LEFT OUTER
    JOIN). *)
Definition left_join_members (p : Project.t) : list (option UserId) :=
  match elements (Project.members p) with
  | [] => [None]
  | ms => Some <$> ms
  end.

(** [queryset.filter(Q(..project__owner=user) | Q(..project__members=user))
    .distinct()]: the rows are joined with their project ([project_of], the
    chain of foreign keys) and its members, the disjunction selects joined
    rows, and [distinct] removes the duplicates the join produced. *)
Definition access_filter {A} `{EqDecision A}
    (project_of : A → list Project.t) (u : UserId) (queryset : list A) : list A :=
  remove_dups
    (r ← queryset;
     p ← project_of r;
     m ← left_join_members p;
     if bool_decide (Project.owner p = u ∨ m = Some u) then [r] else []).

(** [if value: queryset = queryset.filter(field=value)]; [conv] is the
    field's conversion of the parameter text, which may raise, and [field]
    gives the values the row is compared on: one for a column, none for a
    NULL, the joined rows' values for a lookup across a relation. *)
Definition filter_param {A V} `{EqDecision V}
    (conv : string → result V) (field : A → list V)
    (raw : option string) (queryset : list A) : result (list A) :=
  match raw with
  | Some v =>
      if bool_decide (v ≠ "") then
        x ← conv v; Ok (filter (λ r, x ∈ field r) queryset)
      else Ok queryset
  | None => Ok queryset
  end.

(** The joins behind [project__...], [event__project__...] and
    [dashboard__project__...]. *)
Definition session_project (s : Store) (r : Session.t) : list Project.t :=
  project_by_id s (Session.project r).
Definition event_project (s : Store) (r : Event.t) : list Project.t :=
  project_by_id s (Event.project r).
Definition tag_project (s : Store) (r : Tag.t) : list Project.t :=
  project_by_id s (Tag.project r).
Definition dashboard_project (s : Store) (r : Dashboard.t) : list Project.t :=
  project_by_id s (Dashboard.project r).
Definition via_event (s : Store) (eid : UUID) : list Project.t :=
  e ← event_by_id s eid; event_project s e.
Definition widget_project (s : Store) (r : Widget.t) : list Project.t :=
  d ← dashboard_by_id s (Widget.dashboard r); dashboard_project s d.

(** Conversions of a parameter text by the field it is compared with. *)
Definition char_field (v : string) : result string := Ok v.

(** ** Two concrete conversions

    Instances of the conversions the views are parameterised by, for
    evaluating the model on sample requests: a plain decimal literal (an
    optional sign and ASCII digits) and the canonical hexadecimal text of a
    UUID (32 hexadecimal digits, hyphens ignored).  On such texts they agree
    with [int] and [UUIDField.to_python], and they reject the sample texts
    that those reject. *)
Definition digit_value (c : ascii) : option Z :=
  let n := Z.of_N (N_of_ascii c) in
  if bool_decide (48 ≤ n ≤ 57) then Some (n - 48) else None.

Definition hex_value (c : ascii) : option Z :=
  let n := Z.of_N (N_of_ascii c) in
  if bool_decide (48 ≤ n ≤ 57) then Some (n - 48)
  else if bool_decide (97 ≤ n ≤ 102) then Some (n - 87)
  else if bool_decide (65 ≤ n ≤ 70) then Some (n - 55)
  else None.

Fixpoint digits_value (base : Z) (value : ascii → option Z) (acc : Z) (v : string)
    : option Z :=
  match v with
  | EmptyString => Some acc
  | String c v' =>
      match value c with
      | Some d => digits_value base value (base * acc + d) v'
      | None => None
      end
  end.

Definition decimal_int (v : string) : option Z :=
  match v with
  | EmptyString => None
  | String "-" (String c v') => Z.opp <$> digits_value 10 digit_value 0 (String c v')
  | String "+" (String c v') => digits_value 10 digit_value 0 (String c v')
  | _ => digits_value 10 digit_value 0 v
  end.

Fixpoint drop_hyphens (v : string) : string :=
  match v with
  | EmptyString => EmptyString
  | String c v' =>
      if bool_decide (c = "-"%char) then drop_hyphens v' else String c (drop_hyphens v')
  end.

Definition hex_uuid (v : string) : option UUID :=
  let h := drop_hyphens v in
  if bool_decide (String.length h = 32%nat) then digits_value 16 hex_value 0 h else None.

Section Views.

#[local] Set Default Proof Using "Type".

(** What the framework, the language and the database provide:
    [py_int] is the built-in [int] on a string ([None] where it raises
    [ValueError]) and [to_uuid] is [UUIDField.to_python] ([None] where it
    raises [ValidationError]); [search_terms] is the way [SearchFilter]
    splits the text of the [search] parameter into terms, and
    [icontains value term] is the database's case-insensitive containment
    test behind a [field__icontains=term] lookup; [key_error k] is what the
    database adapter raises when asked to compare an integer key column with
    [k], nothing for a [k] in the range of the column. *)
Variable py_int : string → option Z.
Variable to_uuid : string → option UUID.
Variable search_terms : string → list string.
Variable icontains : string → string → bool.
Variable key_error : Z → option exn.

Definition uuid_field (v : string) : result UUID :=
  match to_uuid v with
  | Some x => Ok x
  | None => Err ValidationError
  end.

Definition integer_field (v : string) : result Z :=
  match py_int v with
  | Some x => Ok x
  | None => Err ValueError
  end.

Definition ProjectViewSet_get_queryset (s : Store) (u : UserId) : list Project.t :=
  access_filter (λ p, [p]) u (projects s).

Definition SessionViewSet_get_queryset (s : Store) (request : Request) (u : UserId)
    : result (list Session.t) :=
  let queryset := sessions s in
  queryset ← filter_param uuid_field (λ r, [Session.project r])
                (query_params request !! "project") queryset;
  queryset ← filter_param char_field (λ r, option_list (Session.user_id r))
                (query_params request !! "user_id") queryset;
  Ok (access_filter (session_project s) u queryset).

Definition EventViewSet_get_queryset (s : Store) (request : Request) (u : UserId)
    : result (list Event.t) :=
  let queryset := events s in
  queryset ← filter_param uuid_field (λ r, [Event.project r])
                (query_params request !! "project") queryset;
  queryset ← filter_param uuid_field (λ r, option_list (Event.session r))
                (query_params request !! "session") queryset;
  queryset ← filter_param char_field (λ r, [event_type_value (Event.event_type r)])
                (query_params request !! "event_type") queryset;
  Ok (access_filter (event_project s) u queryset).

Definition UserPromptViewSet_get_queryset (s : Store) (request : Request) (u : UserId)
    : result (list UserPrompt.t) :=
  let queryset := user_prompts s in
  queryset ← filter_param uuid_field
                (λ r, Event.project <$> event_by_id s (UserPrompt.event r))
                (query_params request !! "project") queryset;
  queryset ← filter_param char_field (λ r, [UserPrompt.model_name r])
                (query_params request !! "model_name") queryset;
  Ok (access_filter (λ r, via_event s (UserPrompt.event r)) u queryset).

Definition AIResponseViewSet_get_queryset (s : Store) (request : Request) (u : UserId)
    : result (list AIResponse.t) :=
  let queryset := ai_responses s in
  queryset ← filter_param uuid_field
                (λ r, Event.project <$> event_by_id s (AIResponse.event r))
                (query_params request !! "project") queryset;
  queryset ← filter_param char_field (λ r, [AIResponse.model_name r])
                (query_params request !! "model_name") queryset;
  Ok (access_filter (λ r, via_event s (AIResponse.event r)) u queryset).

Definition FeedbackViewSet_get_queryset (s : Store) (request : Request) (u : UserId)
    : result (list Feedback.t) :=
  let queryset := feedback_rows s in
  queryset ← filter_param uuid_field
                (λ r, Event.project <$> event_by_id s (Feedback.event r))
                (query_params request !! "project") queryset;
  queryset ← filter_param integer_field (λ r, option_list (Feedback.rating r))
                (query_params request !! "rating") queryset;
  Ok (access_filter (λ r, via_event s (Feedback.event r)) u queryset).

Definition TagViewSet_get_queryset (s : Store) (request : Request) (u : UserId)
    : result (list Tag.t) :=
  let queryset := tags s in
  queryset ← filter_param uuid_field (λ r, [Tag.project r])
                (query_params request !! "project") queryset;
  Ok (access_filter (tag_project s) u queryset).

Definition DashboardViewSet_get_queryset (s : Store) (request : Request) (u : UserId)
    : result (list Dashboard.t) :=
  let queryset := dashboards s in
  queryset ← filter_param uuid_field (λ r, [Dashboard.project r])
                (query_params request !! "project") queryset;
  Ok (access_filter (dashboard_project s) u queryset).

Definition WidgetViewSet_get_queryset (s : Store) (request : Request) (u : UserId)
    : result (list Widget.t) :=
  let queryset := widgets s in
  queryset ← filter_param uuid_field (λ r, [Widget.dashboard r])
                (query_params request !! "dashboard") queryset;
  Ok (access_filter (widget_project s) u queryset).

(** ** Filter backends

    [SearchFilter.filter_queryset]: a view without [search_fields], and a
    [search] parameter that is absent or holds no term, leave the query set
    as it is; otherwise a row is kept when every term is contained in one of
    its search fields ([search_fields r] lists the values of the fields that
    are not NULL).  [OrderingFilter] reorders the rows and keeps them all;
    the order of a query set is not modelled. *)
Definition search_matches (fields terms : list string) : bool :=
  forallb (λ term, existsb (λ value, icontains value term) fields) terms.

Definition filter_queryset {A} (search_fields : option (A → list string))
    (request : Request) (queryset : list A) : list A :=
  match search_fields with
  | None => queryset
  | Some fields =>
      match search_terms (default "" (query_params request !! "search")) with
      | [] => queryset
      | terms => filter (λ r, search_matches (fields r) terms = true) queryset
      end
  end.

(** The [search_fields] of the view sets that declare them. *)
Definition ProjectViewSet_search_fields (r : Project.t) : list string :=
  [Project.name r; Project.description r].
Definition SessionViewSet_search_fields (r : Session.t) : list string :=
  option_list (Session.user_id r) ++ [Session.session_key r].
Definition UserPromptViewSet_search_fields (r : UserPrompt.t) : list string :=
  [UserPrompt.prompt_text r; UserPrompt.model_name r].
Definition AIResponseViewSet_search_fields (r : AIResponse.t) : list string :=
  [AIResponse.response_text r; AIResponse.model_name r].
Definition FeedbackViewSet_search_fields (r : Feedback.t) : list string :=
  [Feedback.comment r].

(** [check_object_permissions]: refused unless the check returns [True]; an
    exception raised inside the check goes on. *)
Definition check_object_permissions {A} (s : Store) (request : Request)
    (wrap : A → Obj) (obj : A) : result A :=
  allowed ← has_object_permission s request (wrap obj);
  if allowed : bool then Ok obj else Err PermissionDenied.

(** [get_object]: the row with the given primary key among
    [filter_queryset(get_queryset())], or [Http404]; a key that does not
    convert is [Http404] as well.  Then [check_object_permissions]. *)
Definition get_object {A} (pk_of : A → UUID) (wrap : A → Obj)
    (search_fields : option (A → list string))
    (s : Store) (request : Request) (queryset : result (list A)) (pk : string)
    : result A :=
  queryset ← queryset;
  let queryset := filter_queryset search_fields request queryset in
  match to_uuid pk with
  | None => Err Http404
  | Some k =>
      match head (filter (λ r, pk_of r = k) queryset) with
      | None => Err Http404
      | Some obj => check_object_permissions s request wrap obj
      end
  end.

Definition ProjectViewSet_get_object (s : Store) (request : Request) (u : UserId)
    (pk : string) : result Project.t :=
  get_object Project.id OProject (Some ProjectViewSet_search_fields) s request
    (Ok (ProjectViewSet_get_queryset s u)) pk.

Definition SessionViewSet_get_object (s : Store) (request : Request) (u : UserId)
    (pk : string) : result Session.t :=
  get_object Session.id OSession (Some SessionViewSet_search_fields) s request
    (SessionViewSet_get_queryset s request u) pk.

(** ** ProjectViewSet.add_member / remove_member *)

Inductive Response : Type :=
  | Response200 (body : string)
  | Response404 (body : string).

(** The outcome of [Model.objects.get]. *)
Inductive get_result (A : Type) : Type :=
  | Got (a : A)
  | DoesNotExist
  | Raises (e : exn).
Arguments Got {A} a.
Arguments DoesNotExist {A}.
Arguments Raises {A} e.

(** [IntegerField.get_prep_value]: [None] stays [None], anything else goes
    through [int], whose [TypeError] and [ValueError] are raised again under
    the same class: a boolean counts as 0 or 1, a float is truncated (an
    infinity overflows), a string is parsed, an array or an object is no
    number. *)
Definition get_prep_value (value : json) : result (option Z) :=
  match value with
  | JNull => Ok None
  | JBool b => Ok (Some (Z.b2z b))
  | JInt k => Ok (Some k)
  | JFloat (Finite q) => Ok (Some (truncate q))
  | JFloat (Infinite _) => Err OverflowError
  | JStr v =>
      match py_int v with
      | Some k => Ok (Some k)
      | None => Err ValueError
      end
  | JArray _ | JObject _ => Err TypeError
  end.

(** [User.objects.get(id=user_id)]: [None] (a missing key or [null])
    compares the key with NULL and finds nothing. *)
Definition User_objects_get (s : Store) (user_id : option json) : get_result UserId :=
  match get_prep_value (default JNull user_id) with
  | Ok None => DoesNotExist
  | Ok (Some k) =>
      if bool_decide (k ∈ users s) then Got k
      else match key_error k with
           | Some e => Raises e
           | None => DoesNotExist
           end
  | Err e => Raises e
  end.

Definition with_projects (s : Store) (ps : list Project.t) : Store :=
  mkStore (users s) ps (sessions s) (events s) (user_prompts s) (ai_responses s)
          (feedback_rows s) (tags s) (dashboards s) (widgets s).

Definition with_sessions (s : Store) (ss : list Session.t) : Store :=
  mkStore (users s) (projects s) ss (events s) (user_prompts s) (ai_responses s)
          (feedback_rows s) (tags s) (dashboards s) (widgets s).

Definition set_members (p : Project.t) (ms : gset Z) : Project.t :=
  Project.mk (Project.id p) (Project.name p) (Project.description p)
             (Project.owner p) ms.

(** [project.members.add(user)] and [project.members.remove(user)] on the
    through table of the project with this primary key. *)
Definition members_add (s : Store) (project : Project.t) (u : UserId) : Store :=
  with_projects s
    ((λ p, if bool_decide (Project.id p = Project.id project)
           then set_members p (Project.members p ∪ {[u]}) else p) <$> projects s).

Definition members_remove (s : Store) (project : Project.t) (u : UserId) : Store :=
  with_projects s
    ((λ p, if bool_decide (Project.id p = Project.id project)
           then set_members p (Project.members p ∖ {[u]}) else p) <$> projects s).

Definition add_member (s : Store) (request : Request) (u : UserId) (pk : string)
    : result (Response * Store) :=
  project ← ProjectViewSet_get_object s request u pk;
  user_id ← data_get request "user_id";
  match User_objects_get s user_id with
  | Got user => Ok (Response200 "user added", members_add s project user)
  | DoesNotExist => Ok (Response404 "user not found", s)
  | Raises e => Err e
  end.

Definition remove_member (s : Store) (request : Request) (u : UserId) (pk : string)
    : result (Response * Store) :=
  project ← ProjectViewSet_get_object s request u pk;
  user_id ← data_get request "user_id";
  match User_objects_get s user_id with
  | Got user => Ok (Response200 "user removed", members_remove s project user)
  | DoesNotExist => Ok (Response404 "user not found", s)
  | Raises e => Err e
  end.

(** The members of the project with primary key [k], as stored. *)
Definition members_of (s : Store) (k : UUID) : list (gset Z) :=
  Project.members <$> project_by_id s k.

(** ** SessionViewSet.end_session *)

Definition set_end_time (x : Session.t) (e : option datetime) : Session.t :=
  Session.mk (Session.id x) (Session.project x) (Session.user_id x)
             (Session.session_key x) (Session.start_time x) e.

(** [session.save()]: the row with the instance's primary key takes the
    instance's field values. *)
Definition Session_save (s : Store) (session : Session.t) : Store :=
  with_sessions s
    ((λ r, if bool_decide (Session.id r = Session.id session) then session else r)
       <$> sessions s).

(** [now] is the value [timezone.now()] returns during the call. *)
Definition end_session (now : datetime) (s : Store) (request : Request) (u : UserId)
    (pk : string) : result (Response * Store) :=
  session ← SessionViewSet_get_object s request u pk;
  let session := set_end_time session (Some now) in
  Ok (Response200 "session ended", Session_save s session).

Definition session_by_id (s : Store) (k : UUID) : list Session.t :=
  filter (λ r, Session.id r = k) (sessions s).

(** ** ProjectViewSet.stats *)

(** [Avg(field)]: NULL values are skipped and the aggregate of no value is
    NULL.  The quotient is kept exact (the database returns it rounded to a
    float). *)
Definition Avg (values : list (option Q)) : option Q :=
  match omap id values with
  | [] => None
  | v :: vs => Some (foldr Qplus 0%Q (v :: vs) / inject_Z (Z.of_nat (length (v :: vs))))%Q
  end.

(** [x or 0]: a NULL aggregate and a zero aggregate both give [0]. *)
Definition or_0 (x : option Q) : Q :=
  match x with
  | Some q => if Qeq_bool q 0 then 0%Q else q
  | None => 0%Q
  end.

(** The rows of a table joined with their event, kept when the event is of
    the project and not older than [start_date]
    ([event__project=project, event__timestamp__gte=start_date]). *)
Definition in_window {A} (s : Store) (event_of : A → UUID) (project : Project.t)
    (start_date : datetime) (rows : list A) : list A :=
  r ← rows;
  e ← event_by_id s (event_of r);
  if bool_decide (Event.project e = Project.id project ∧ start_date ≤ Event.timestamp e)
  then [r] else [].

Definition all_event_types : list EventType :=
  [user_prompt; ai_response; user_feedback; user_action; error; other].

Record Stats : Type := mkStats {
  total_events : nat;
  event_types : list (EventType * nat);
  total_prompts : nat;
  avg_prompt_tokens : Q;
  total_responses : nat;
  avg_response_tokens : Q;
  avg_latency : Q;
  total_feedback : nat;
  avg_rating : Q;
  total_sessions : nat;
}.

(** [int(request.query_params.get('days', 30))] *)
Definition stats_days (request : Request) : result Z :=
  match query_params request !! "days" with
  | Some v => integer_field v
  | None => Ok 30
  end.

(** The aggregates of [stats] over the rows not older than [start_date]. *)
Definition aggregate (s : Store) (project : Project.t) (start_date : datetime) : Stats :=
  let events_ := filter (λ e, Event.project e = Project.id project
                               ∧ start_date ≤ Event.timestamp e) (events s) in
  let prompts := in_window s UserPrompt.event project start_date (user_prompts s) in
  let responses := in_window s AIResponse.event project start_date (ai_responses s) in
  let feedback := in_window s Feedback.event project start_date (feedback_rows s) in
  let sessions_ := filter (λ x, Session.project x = Project.id project
                                 ∧ start_date ≤ Session.start_time x) (sessions s) in
  {|
    total_events := length events_;
    event_types :=
      filter (λ tc, tc.2 ≠ 0%nat)
        ((λ t, (t, length (filter (λ e, Event.event_type e = t) events_)))
           <$> all_event_types);
    total_prompts := length prompts;
    avg_prompt_tokens :=
      or_0 (Avg ((λ r, Some (inject_Z (UserPrompt.tokens r))) <$> prompts));
    total_responses := length responses;
    avg_response_tokens :=
      or_0 (Avg ((λ r, Some (inject_Z (AIResponse.tokens r))) <$> responses));
    avg_latency := or_0 (Avg ((λ r, Some (AIResponse.latency r)) <$> responses));
    total_feedback := length feedback;
    avg_rating := or_0 (Avg ((λ r, inject_Z <$> Feedback.rating r) <$> feedback));
    total_sessions := length sessions_;
  |}.

(** The body of [stats] once the project and [days] are at hand:
    [start_date = timezone.now() - timedelta(days=days)], then the
    aggregates. *)
Definition project_stats (now : datetime) (s : Store) (project : Project.t) (days : Z)
    : result Stats :=
  delta ← timedelta_days days;
  start_date ← datetime_sub now delta;
  Ok (aggregate s project start_date).

Definition stats (now : datetime) (s : Store) (request : Request) (u : UserId)
    (pk : string) : result Stats :=
  project ← ProjectViewSet_get_object s request u pk;
  days ← stats_days request;
  project_stats now s project days.

(** ** serializers.py: EventCreateSerializer.create *)

(** Validated nested documents.  A key that the payload left out of an
    optional field is absent from the validated dict ([None] here) and the
    model default fills the column. *)
Record UserPromptData : Type := mkUserPromptData {
  up_prompt_text : string;
  up_model_name : option string;
  up_tokens : option Z;
}.

Record AIResponseData : Type := mkAIResponseData {
  ar_response_text : string;
  ar_model_name : string;
  ar_tokens : option Z;
  ar_latency : option Q;
}.

(** Every field of the feedback document is optional; [rating] may be
    present with the value [null]. *)
Record FeedbackData : Type := mkFeedbackData {
  fb_rating : option (option Z);
  fb_comment : option string;
  fb_tags : option (list string);
}.

Record EventData : Type := mkEventData {
  ed_project : UUID;
  ed_session : option UUID;
  ed_event_type : EventType;
  ed_timestamp : option datetime;
  ed_user_prompt : option UserPromptData;
  ed_ai_response : option AIResponseData;
  ed_feedback : option FeedbackData;
}.

(** Truth value of what [validated_data.pop(key, None)] returned: [None] is
    falsy and a dict is truthy when it has a key.  The prompt and response
    documents always hold their required fields. *)
Definition user_prompt_truthy (d : option UserPromptData) : bool :=
  match d with Some _ => true | None => false end.
Definition ai_response_truthy (d : option AIResponseData) : bool :=
  match d with Some _ => true | None => false end.
Definition feedback_truthy (d : option FeedbackData) : bool :=
  match d with
  | Some f =>
      bool_decide (is_Some (fb_rating f) ∨ is_Some (fb_comment f) ∨ is_Some (fb_tags f))
  | None => false
  end.

(** Statements run one by one, each kept as soon as it succeeds: a
    computation takes the store and returns the store it left behind
    together with its value or the exception it raised. *)
Definition DB (A : Type) : Type := Store → Store * result A.

Definition db_ret {A} (a : A) : DB A := λ s, (s, Ok a).
Definition db_raise {A} (e : exn) : DB A := λ s, (s, Err e).
Definition db_bind {A B} (m : DB A) (f : A → DB B) : DB B :=
  λ s, match m s with
       | (s', Ok a) => f a s'
       | (s', Err e) => (s', Err e)
       end.
Definition db_get : DB Store := λ s, (s, Ok s).
Definition db_put (s' : Store) : DB unit := λ _, (s', Ok ()).

#[global] Instance DB_ret : MRet DB := @db_ret.
#[global] Instance DB_bind : MBind DB := λ A B f m, db_bind m f.

Definition with_events (s : Store) (es : list Event.t) : Store :=
  mkStore (users s) (projects s) (sessions s) es (user_prompts s) (ai_responses s)
          (feedback_rows s) (tags s) (dashboards s) (widgets s).
Definition with_user_prompts (s : Store) (xs : list UserPrompt.t) : Store :=
  mkStore (users s) (projects s) (sessions s) (events s) xs (ai_responses s)
          (feedback_rows s) (tags s) (dashboards s) (widgets s).
Definition with_ai_responses (s : Store) (xs : list AIResponse.t) : Store :=
  mkStore (users s) (projects s) (sessions s) (events s) (user_prompts s) xs
          (feedback_rows s) (tags s) (dashboards s) (widgets s).
Definition with_feedback_rows (s : Store) (xs : list Feedback.t) : Store :=
  mkStore (users s) (projects s) (sessions s) (events s) (user_prompts s)
          (ai_responses s) xs (tags s) (dashboards s) (widgets s).

(** A nullable foreign key is checked only when it is set. *)
Definition fk_nullable (k : option UUID) (ids : list UUID) : bool :=
  match k with
  | Some k => bool_decide (k ∈ ids)
  | None => true
  end.

(** INSERT statements with the constraints [models.py] declares: primary
    keys are unique, foreign keys point at a row, a [OneToOneField] is
    unique, and a foreign key without [null=True] is NOT NULL. *)
Definition Event_objects_create (row : Event.t) : DB Event.t :=
  s ← db_get;
   if bool_decide ((Event.id row ∉ (Event.id <$> events s))
                   ∧ Event.project row ∈ (Project.id <$> projects s))
      && fk_nullable (Event.session row) (Session.id <$> sessions s)
   then _ ← db_put (with_events s (events s ++ [row])); db_ret row
   else db_raise IntegrityError.

Definition UserPrompt_objects_create (row : UserPrompt.t) : DB UserPrompt.t :=
  s ← db_get;
   if bool_decide ((UserPrompt.id row ∉ (UserPrompt.id <$> user_prompts s))
                   ∧ UserPrompt.event row ∈ (Event.id <$> events s)
                   ∧ (UserPrompt.event row ∉ (UserPrompt.event <$> user_prompts s)))
   then _ ← db_put (with_user_prompts s (user_prompts s ++ [row])); db_ret row
   else db_raise IntegrityError.

Definition AIResponse_objects_create (row : AIResponse.t) : DB AIResponse.t :=
  s ← db_get;
   if bool_decide ((AIResponse.id row ∉ (AIResponse.id <$> ai_responses s))
                   ∧ AIResponse.event row ∈ (Event.id <$> events s)
                   ∧ (AIResponse.event row ∉ (AIResponse.event <$> ai_responses s)))
      && fk_nullable (AIResponse.prompt row) (UserPrompt.id <$> user_prompts s)
   then _ ← db_put (with_ai_responses s (ai_responses s ++ [row])); db_ret row
   else db_raise IntegrityError.

(** The instance handed to [Feedback.objects.create] may carry
    [response=None]; the column does not accept it. *)
Definition Feedback_objects_create (id event : UUID) (response : option UUID)
    (rating : option Z) (comment : string) (tags : list string) : DB Feedback.t :=
  s ← db_get;
   match response with
   | None => db_raise IntegrityError
   | Some resp =>
       let row := Feedback.mk id event resp rating comment tags in
       if bool_decide ((id ∉ (Feedback.id <$> feedback_rows s))
                       ∧ event ∈ (Event.id <$> events s)
                       ∧ (event ∉ (Feedback.event <$> feedback_rows s))
                       ∧ resp ∈ (AIResponse.id <$> ai_responses s))
       then _ ← db_put (with_feedback_rows s (feedback_rows s ++ [row])); db_ret row
       else db_raise IntegrityError
   end.

(** The reverse one-to-one accessors [event.user_prompt] and
    [event.ai_response]. *)
Definition Event_user_prompt (event : Event.t) : DB UserPrompt.t :=
  s ← db_get;
  match head (filter (λ r, UserPrompt.event r = Event.id event) (user_prompts s)) with
  | Some r => db_ret r
  | None => db_raise RelatedObjectDoesNotExist
  end.

Definition Event_ai_response (event : Event.t) : DB AIResponse.t :=
  s ← db_get;
  match head (filter (λ r, AIResponse.event r = Event.id event) (ai_responses s)) with
  | Some r => db_ret r
  | None => db_raise RelatedObjectDoesNotExist
  end.

(** The primary keys [uuid.uuid4] draws for the rows of one call. *)
Record NewIds : Type := mkNewIds {
  event_id : UUID;
  user_prompt_id : UUID;
  ai_response_id : UUID;
  feedback_id : UUID;
}.

(** [if data: body(data)] *)
Definition if_truthy {D} (truth : option D → bool) (d : option D)
    (body : D → DB unit) : DB unit :=
  match d with
  | Some x => if truth d then body x else db_ret ()
  | None => db_ret ()
  end.

Definition create (now : datetime) (ids : NewIds) (validated_data : EventData)
    : DB Event.t :=
  let user_prompt_data := ed_user_prompt validated_data in
  let ai_response_data := ed_ai_response validated_data in
  let feedback_data := ed_feedback validated_data in
  event ← Event_objects_create
             (Event.mk (event_id ids) (ed_project validated_data)
                (ed_session validated_data) (ed_event_type validated_data)
                (default now (ed_timestamp validated_data)));
  if_truthy user_prompt_truthy user_prompt_data (λ d,
    UserPrompt_objects_create
      (UserPrompt.mk (user_prompt_id ids) (Event.id event) (up_prompt_text d)
         (default "" (up_model_name d)) (default 0 (up_tokens d)));;
    db_ret ());;
  if_truthy ai_response_truthy ai_response_data (λ d,
    prompt ← (if user_prompt_truthy user_prompt_data
              then p ← Event_user_prompt event; db_ret (Some (UserPrompt.id p))
              else db_ret None);
    AIResponse_objects_create
      (AIResponse.mk (ai_response_id ids) (Event.id event) prompt (ar_response_text d)
         (ar_model_name d) (default 0 (ar_tokens d)) (default 0%Q (ar_latency d)));;
    db_ret ());;
  if_truthy feedback_truthy feedback_data (λ d,
    response ← (if ai_response_truthy ai_response_data
                then r ← Event_ai_response event; db_ret (Some (AIResponse.id r))
                else db_ret None);
    Feedback_objects_create (feedback_id ids) (Event.id event) response
      (default None (fb_rating d)) (default "" (fb_comment d))
      (default [] (fb_tags d));;
    db_ret ());;
  db_ret event.

(** ** Notions the statements below are phrased with *)

(** The row [create] inserts for the event. *)
Definition new_event (now : datetime) (ids : NewIds) (validated_data : EventData)
    : Event.t :=
  Event.mk (event_id ids) (ed_project validated_data) (ed_session validated_data)
    (ed_event_type validated_data) (default now (ed_timestamp validated_data)).

(** The identity may see the project: it owns it or is one of its members. *)
Definition can_see (u : UserId) (p : Project.t) : Prop :=
  Project.owner p = u ∨ u ∈ Project.members p.

(** A supplied query parameter [raw], converted by [conv], restricts a row
    to the value [x]: the row's [field] holds it. *)
Definition restricts {A V} (conv : string → result V) (field : A → list V)
    (raw : option string) (r : A) : Prop :=
  ∀ v, raw = Some v → v ≠ "" → ∃ x, conv v = Ok x ∧ x ∈ field r.

(** The text of a supplied parameter converts. *)
Definition converts {V} (conv : string → result V) (raw : option string) : Prop :=
  ∀ v, raw = Some v → v ≠ "" → ∃ x, conv v = Ok x.

(** [rows] is the list operation's answer over [table]: no row twice, and
    exactly the rows of the table that belong to a project the identity may
    see and that every filter keeps. *)
Definition lists_exactly {A} (rows table : list A) (project_of : A → list Project.t)
    (u : UserId) (filters : list (A → Prop)) : Prop :=
  NoDup rows ∧
  ∀ r, r ∈ rows ↔
       r ∈ table ∧ (∃ p, p ∈ project_of r ∧ can_see u p) ∧ Forall (λ f, f r) filters.

(** A view's [get_queryset] answers [table], restricted by [filters] under
    the parameters that convert: it returns whenever they convert, and what
    it returns lists exactly the visible rows the filters keep. *)
Definition answers {A} (queryset : result (list A)) (table : list A)
    (project_of : A → list Project.t) (u : UserId)
    (convert : list Prop) (filters : list (A → Prop)) : Prop :=
  (Forall id convert → ∃ rows, queryset = Ok rows) ∧
  (∀ rows, queryset = Ok rows →
     Forall id convert ∧ lists_exactly rows table project_of u filters).

(** The [user_id] of the body designates the integer key [k]. *)
Definition user_id_int (user_id : option json) (k : Z) : Prop :=
  user_id = Some (JInt k) ∨ ∃ v, user_id = Some (JStr v) ∧ py_int v = Some k.

(** The action answered with a 404 response. *)
Definition not_found (r : result (Response * Store)) : Prop :=
  match r with
  | Ok (Response404 _, _) => True
  | _ => False
  end.

(** Primary keys identify rows. *)
Definition pk_unique {A} (pk_of : A → UUID) (table : list A) : Prop :=
  NoDup (pk_of <$> table).

(** The event with key [eid] is of the project and not older than
    [start_date]. *)
Definition event_in_window (s : Store) (project : Project.t) (start_date : datetime)
    (eid : UUID) : Prop :=
  Exists (λ e, Event.id e = eid ∧ Event.project e = Project.id project
               ∧ start_date ≤ Event.timestamp e) (events s).

#[global] Instance event_in_window_dec s project start_date eid :
  Decision (event_in_window s project start_date eid).
Proof. unfold event_in_window. apply _. Defined.

(** The sum of a list of integers. *)
Definition sum_Z (l : list Z) : Z := foldr Z.add 0 l.

(** [now - days] is a datetime the code can compute. *)
Definition cutoff_representable (now : datetime) (days : Z) : Prop :=
  Z.abs days ≤ 999999999 ∧ 0 ≤ now - days * usec_per_day ≤ datetime_max.

(** The store without the events and sessions timestamped at or before
    [now]. *)
Definition without_past (now : datetime) (s : Store) : Store :=
  with_sessions
    (with_events s (filter (λ e, now < Event.timestamp e) (events s)))
    (filter (λ x, now < Session.start_time x) (sessions s)).

(** ** Sample data *)

Definition alice : UserId := 1.
Definition bob : UserId := 2.
Definition carol : UserId := 3.

Definition sample_now : datetime := 739924 * usec_per_day.

Definition demo : Project.t := Project.mk 1 "Demo" "" alice {[bob]}.
Definition other_project : Project.t := Project.mk 2 "Other" "" carol ∅.

Definition demo_session : Session.t :=
  Session.mk 16 1 (Some "visitor") "k1" (sample_now - usec_per_day) None.

Definition past_event : Event.t :=
  Event.mk 256 1 (Some 16) user_feedback (sample_now - 1).
Definition future_event : Event.t :=
  Event.mk 257 1 None user_prompt (sample_now + usec_per_day).

Definition demo_prompt : UserPrompt.t := UserPrompt.mk 4096 257 "Hi" "gpt" 3.
Definition demo_response : AIResponse.t :=
  AIResponse.mk 4097 257 (Some 4096) "Hello" "gpt" 5 (2 # 5).
Definition demo_feedback : Feedback.t := Feedback.mk 4098 256 4097 None "ok" [].

Definition sample_store : Store :=
  {| users := [alice; bob; carol];
     projects := [demo; other_project];
     sessions := [demo_session];
     events := [past_event; future_event];
     user_prompts := [demo_prompt];
     ai_responses := [demo_response];
     feedback_rows := [demo_feedback];
     tags := [];
     dashboards := [];
     widgets := [] |}.

Definition demo_pk : string := "00000000-0000-0000-0000-000000000001".
Definition demo_session_pk : string := "00000000-0000-0000-0000-000000000010".

Definition request_of (m : Method) (u : option UserId)
    (params : list (string * string)) (body : list (string * json)) : Request :=
  mkRequest m u (list_to_map params) (JObject (list_to_map body)).

Definition sample_ids : NewIds := mkNewIds 768 769 770 771.

(** A payload with a feedback document and neither prompt nor response. *)
Definition feedback_only : EventData :=
  mkEventData 1 None user_feedback None None None
    (Some (mkFeedbackData (Some (Some 5)) None None)).

Definition owner_adds_carol : Request :=
  request_of POST (Some alice) [] [("user_id", JInt carol)].
Definition owner_adds_text : Request :=
  request_of POST (Some alice) [] [("user_id", JStr "abc")].
Definition owner_posts : Request := request_of POST (Some alice) [] [].
Definition member_posts : Request := request_of POST (Some bob) [] [].
Definition member_reads : Request := request_of GET (Some bob) [] [].
Definition anonymous_search : Request := request_of GET None [("search", "a")] [].
Definition member_lists_feedback_events : Request :=
  request_of GET (Some bob)
    [("project", demo_pk); ("event_type", "user_feedback")] [].
Definition member_stats (days : string) : Request :=
  request_of GET (Some bob) [("days", days)] [].

(** ** views.py: the remaining handlers *)

(** [get_object] of the view sets whose rows have a UUID key.
    [EventViewSet] lists [SearchFilter] among its filter backends and
    declares no [search_fields], so the search does nothing there;
    [DashboardViewSet] and [WidgetViewSet] declare no filter backend (the
    framework's default is none). *)
Definition EventViewSet_get_object (s : Store) (request : Request) (u : UserId)
    (pk : string) : result Event.t :=
  get_object Event.id OEvent None s request (EventViewSet_get_queryset s request u) pk.

Definition FeedbackViewSet_get_object (s : Store) (request : Request) (u : UserId)
    (pk : string) : result Feedback.t :=
  get_object Feedback.id OFeedback (Some FeedbackViewSet_search_fields) s request
    (FeedbackViewSet_get_queryset s request u) pk.

Definition DashboardViewSet_get_object (s : Store) (request : Request) (u : UserId)
    (pk : string) : result Dashboard.t :=
  get_object Dashboard.id ODashboard None s request
    (DashboardViewSet_get_queryset s request u) pk.

Definition WidgetViewSet_get_object (s : Store) (request : Request) (u : UserId)
    (pk : string) : result Widget.t :=
  get_object Widget.id OWidget None s request (WidgetViewSet_get_queryset s request u)
    pk.

Definition UserPromptViewSet_get_object (s : Store) (request : Request) (u : UserId)
    (pk : string) : result UserPrompt.t :=
  get_object UserPrompt.id OUserPrompt (Some UserPromptViewSet_search_fields) s request
    (UserPromptViewSet_get_queryset s request u) pk.

Definition AIResponseViewSet_get_object (s : Store) (request : Request) (u : UserId)
    (pk : string) : result AIResponse.t :=
  get_object AIResponse.id OAIResponse (Some AIResponseViewSet_search_fields) s request
    (AIResponseViewSet_get_queryset s request u) pk.

(** [Event.Meta.ordering = ['-timestamp']]: [a] may come before [b]. *)
Definition newest_first (a b : Event.t) : Prop :=
  Event.timestamp b ≤ Event.timestamp a.

#[global] Instance newest_first_dec a b : Decision (newest_first a b).
Proof. unfold newest_first. apply _. Defined.

#[global] Instance newest_first_total : Total newest_first.
Proof. intros a b. unfold newest_first. lia. Qed.

(** [SessionViewSet.events]: the events that point at the session, in the
    model's default ordering (the order among equal timestamps is the
    database's choice; a stable sort of the table stands for it). *)
Definition SessionViewSet_events (s : Store) (request : Request) (u : UserId)
    (pk : string) : result (list Event.t) :=
  session ← SessionViewSet_get_object s request u pk;
  Ok (merge_sort newest_first
        (filter (λ e, Event.session e = Some (Session.id session)) (events s))).

(** [ProjectViewSet.perform_create]: [serializer.save(owner=request.user)].
    The serializer's writable fields are [name] and [description]; [owner],
    [members] and [tags] are read-only, so the row starts with no member. *)
Definition with_projects_added (s : Store) (p : Project.t) : Store :=
  with_projects s (projects s ++ [p]).

Definition Project_objects_create (row : Project.t) : DB Project.t :=
  s ← db_get;
  if bool_decide ((Project.id row ∉ (Project.id <$> projects s))
                  ∧ Project.owner row ∈ users s)
  then _ ← db_put (with_projects_added s row); db_ret row
  else db_raise IntegrityError.

Definition ProjectViewSet_perform_create (new_id : UUID) (name description : string)
    (u : UserId) : DB Project.t :=
  Project_objects_create (Project.mk new_id name description u ∅).

(** [EventViewSet.create]: the permission classes, then
    [EventCreateSerializer.create] on the validated payload.  The
    serializer's [project] and [session] fields accept any stored row, and no
    object-level check runs, since there is no object yet. *)
Definition EventViewSet_create (now : datetime) (ids : NewIds)
    (validated_data : EventData) (s : Store) (request : Request)
    : result (Store * result Event.t) :=
  dispatch EventViewSet request (λ _, Ok (create now ids validated_data s)).

(** The tag table replaced. *)
Definition with_tags (s : Store) (xs : list Tag.t) : Store :=
  mkStore (users s) (projects s) (sessions s) (events s) (user_prompts s)
          (ai_responses s) (feedback_rows s) xs (dashboards s) (widgets s).

(** The validated fields of a tag update: each may be left out. *)
Record TagData : Type := mkTagData {
  td_name : option string;
  td_color : option string;
}.

(** [get_object] of [TagViewSet]: the key is an integer, and the view set
    declares no filter backend. *)
Definition TagViewSet_get_object (s : Store) (request : Request) (u : UserId)
    (pk : string) : result Tag.t :=
  queryset ← TagViewSet_get_queryset s request u;
  match py_int pk with
  | None => Err Http404
  | Some k =>
      match head (filter (λ r, Tag.id r = k) queryset) with
      | None => Err Http404
      | Some obj => check_object_permissions s request OTag obj
      end
  end.

(** [TagViewSet.update] / [partial_update]: the validated fields are set on
    the instance and [save()] writes the row with the instance's key; the
    table stays unique on (project, name). *)
Definition Tag_save (row : Tag.t) : DB Tag.t :=
  s ← db_get;
  if bool_decide ((Tag.project row, Tag.name row)
                  ∉ ((λ t, (Tag.project t, Tag.name t))
                       <$> filter (λ t, Tag.id t ≠ Tag.id row) (tags s)))
  then _ ← db_put (with_tags s ((λ t, if bool_decide (Tag.id t = Tag.id row)
                                      then row else t) <$> tags s));
       db_ret row
  else db_raise IntegrityError.

Definition TagViewSet_update (validated_data : TagData) (s : Store)
    (request : Request) (u : UserId) (pk : string) : result (Store * result Tag.t) :=
  tag ← TagViewSet_get_object s request u pk;
  Ok (Tag_save (Tag.mk (Tag.id tag) (Tag.project tag)
                  (default (Tag.name tag) (td_name validated_data))
                  (default (Tag.color tag) (td_color validated_data))) s).

(** ** models.py: [on_delete=models.CASCADE]

    Deleting a project collects, along the foreign keys that cascade, the
    sessions, events, tags and dashboards of the project, the events of those
    sessions, the prompts, responses and feedback of those events, the
    responses to those prompts, the feedback on those responses and the
    widgets of those dashboards, and deletes them with the project: rows
    that have dependents of their own by key, the others (tags, feedback,
    widgets) by the foreign key that led to them. *)
Definition Project_delete (k : UUID) (s : Store) : Store :=
  let gone_sessions :=
    Session.id <$> filter (λ x, Session.project x = k) (sessions s) in
  let gone_events :=
    Event.id <$> filter (λ e, Event.project e = k
                              ∨ Event.session e ∈ (Some <$> gone_sessions))
                   (events s) in
  let gone_prompts :=
    UserPrompt.id <$> filter (λ r, UserPrompt.event r ∈ gone_events)
                        (user_prompts s) in
  let gone_responses :=
    AIResponse.id <$> filter (λ r, AIResponse.event r ∈ gone_events
                                   ∨ AIResponse.prompt r ∈ (Some <$> gone_prompts))
                        (ai_responses s) in
  let gone_dashboards :=
    Dashboard.id <$> filter (λ d, Dashboard.project d = k) (dashboards s) in
  {| users := users s;
     projects := filter (λ p, Project.id p ≠ k) (projects s);
     sessions := filter (λ x, Session.id x ∉ gone_sessions) (sessions s);
     events := filter (λ e, Event.id e ∉ gone_events) (events s);
     user_prompts := filter (λ r, UserPrompt.id r ∉ gone_prompts) (user_prompts s);
     ai_responses := filter (λ r, AIResponse.id r ∉ gone_responses) (ai_responses s);
     feedback_rows :=
       filter (λ r, ¬ (Feedback.event r ∈ gone_events
                       ∨ Feedback.response r ∈ gone_responses)) (feedback_rows s);
     tags := filter (λ t, Tag.project t ≠ k) (tags s);
     dashboards := filter (λ d, Dashboard.id d ∉ gone_dashboards) (dashboards s);
     widgets := filter (λ w, Widget.dashboard w ∉ gone_dashboards) (widgets s) |}.

(** [ProjectViewSet.destroy]: [get_object], then [instance.delete()]. *)
Definition ProjectViewSet_destroy (s : Store) (request : Request) (u : UserId)
    (pk : string) : result Store :=
  project ← ProjectViewSet_get_object s request u pk;
  Ok (Project_delete (Project.id project) s).

(** ** serializers.py: EventSerializer

    The representation of an event embeds the prompt, the response and the
    feedback attached to it, each looked up through its one-to-one link and
    left out when there is none. *)
Record EventRepr : Type := mkEventRepr {
  repr_event : Event.t;
  repr_user_prompt : option UserPrompt.t;
  repr_ai_response : option AIResponse.t;
  repr_feedback : option Feedback.t;
}.

Definition EventSerializer_data (s : Store) (event : Event.t) : EventRepr :=
  {| repr_event := event;
     repr_user_prompt :=
       head (filter (λ r, UserPrompt.event r = Event.id event) (user_prompts s));
     repr_ai_response :=
       head (filter (λ r, AIResponse.event r = Event.id event) (ai_responses s));
     repr_feedback :=
       head (filter (λ r, Feedback.event r = Event.id event) (feedback_rows s)) |}.

(** ** Further notions for the statements below *)

(** Every foreign key of the store points at a stored row. *)
Definition fk_intact (s : Store) : Prop :=
  (∀ x, x ∈ sessions s → Session.project x ∈ (Project.id <$> projects s))
  ∧ (∀ e, e ∈ events s →
       Event.project e ∈ (Project.id <$> projects s)
       ∧ ∀ k, Event.session e = Some k → k ∈ (Session.id <$> sessions s))
  ∧ (∀ r, r ∈ user_prompts s → UserPrompt.event r ∈ (Event.id <$> events s))
  ∧ (∀ r, r ∈ ai_responses s →
       AIResponse.event r ∈ (Event.id <$> events s)
       ∧ ∀ k, AIResponse.prompt r = Some k → k ∈ (UserPrompt.id <$> user_prompts s))
  ∧ (∀ r, r ∈ feedback_rows s →
       Feedback.event r ∈ (Event.id <$> events s)
       ∧ Feedback.response r ∈ (AIResponse.id <$> ai_responses s))
  ∧ (∀ t, t ∈ tags s → Tag.project t ∈ (Project.id <$> projects s))
  ∧ (∀ d, d ∈ dashboards s → Dashboard.project d ∈ (Project.id <$> projects s))
  ∧ (∀ w, w ∈ widgets s → Widget.dashboard w ∈ (Dashboard.id <$> dashboards s)).

(** Keys identify the rows of the tables [create] writes to, and at most one
    prompt, one response and one feedback is attached to an event. *)
Definition keys_unique (s : Store) : Prop :=
  pk_unique Event.id (events s)
  ∧ pk_unique UserPrompt.id (user_prompts s)
  ∧ pk_unique AIResponse.id (ai_responses s)
  ∧ pk_unique Feedback.id (feedback_rows s)
  ∧ NoDup (UserPrompt.event <$> user_prompts s)
  ∧ NoDup (AIResponse.event <$> ai_responses s)
  ∧ NoDup (Feedback.event <$> feedback_rows s).

Definition store_ok (s : Store) : Prop := fk_intact s ∧ keys_unique s.

(** The computation keeps [I]: whatever it returns or raises, the store it
    leaves satisfies [I] if the store it started from did. *)
Definition preserves {A} (I : Store → Prop) (m : DB A) : Prop :=
  ∀ s s' r, I s → m s = (s', r) → I s'.

(** The nested documents of a payload, as rows attached to the event. *)
Definition expected_repr (ids : NewIds) (validated_data : EventData) (event : Event.t)
    : EventRepr :=
  {| repr_event := event;
     repr_user_prompt :=
       (λ d, UserPrompt.mk (user_prompt_id ids) (event_id ids) (up_prompt_text d)
               (default "" (up_model_name d)) (default 0 (up_tokens d)))
         <$> ed_user_prompt validated_data;
     repr_ai_response :=
       (λ d, AIResponse.mk (ai_response_id ids) (event_id ids)
               (match ed_user_prompt validated_data with
                | Some _ => Some (user_prompt_id ids)
                | None => None
                end)
               (ar_response_text d) (ar_model_name d) (default 0 (ar_tokens d))
               (default 0%Q (ar_latency d)))
         <$> ed_ai_response validated_data;
     repr_feedback :=
       if feedback_truthy (ed_feedback validated_data) then
         (λ d, Feedback.mk (feedback_id ids) (event_id ids) (ai_response_id ids)
                 (default None (fb_rating d)) (default "" (fb_comment d))
                 (default [] (fb_tags d)))
           <$> ed_feedback validated_data
       else None |}.

(** [Tag.Meta.unique_together = ('project', 'name')] *)
Definition tag_key (t : Tag.t) : UUID * string := (Tag.project t, Tag.name t).
Definition tags_unique (s : Store) : Prop := NoDup (tag_key <$> tags s).

(** ** Further sample data *)

Definition owner_deletes : Request := request_of DELETE (Some alice) [] [].
Definition member_deletes : Request := request_of DELETE (Some bob) [] [].
Definition member_adds_carol : Request :=
  request_of POST (Some bob) [] [("user_id", JInt carol)].
Definition outsider_posts : Request := request_of POST (Some carol) [] [].
Definition owner_reads : Request := request_of GET (Some alice) [] [].
Definition owner_patches : Request := request_of PATCH (Some alice) [] [].

(** A payload without nested documents, and one with all three. *)
Definition plain_event : EventData :=
  mkEventData 1 None user_action None None None None.
Definition full_event : EventData :=
  mkEventData 1 (Some 16) user_feedback None
    (Some (mkUserPromptData "Hi" None (Some 2)))
    (Some (mkAIResponseData "Hello" "gpt" None (Some (1 # 2))))
    (Some (mkFeedbackData (Some (Some 4)) (Some "fine") None)).

Definition bug_tag : Tag.t := Tag.mk 7 1 "bug" "#ff0000".
Definition idea_tag : Tag.t := Tag.mk 8 1 "idea" "#00ff00".
Definition tagged_store : Store := with_tags sample_store [bug_tag; idea_tag].
Definition rename_to_idea : TagData := mkTagData (Some "idea") None.
Definition rename_to_task : TagData := mkTagData (Some "task") None.

(** ** views.py: the list operations

    [list] answers with the rows of [filter_queryset(get_queryset())].  The
    order of the rows (the ordering backend's, the model's, the database's)
    and the split in pages, which depends on settings, are not modelled: an
    answer stands for its rows. *)
Definition ProjectViewSet_list (s : Store) (request : Request) (u : UserId)
    : result (list Project.t) :=
  Ok (filter_queryset (Some ProjectViewSet_search_fields) request
        (ProjectViewSet_get_queryset s u)).

Definition SessionViewSet_list (s : Store) (request : Request) (u : UserId)
    : result (list Session.t) :=
  filter_queryset (Some SessionViewSet_search_fields) request
    <$> SessionViewSet_get_queryset s request u.

Definition EventViewSet_list (s : Store) (request : Request) (u : UserId)
    : result (list Event.t) :=
  filter_queryset None request <$> EventViewSet_get_queryset s request u.

Definition UserPromptViewSet_list (s : Store) (request : Request) (u : UserId)
    : result (list UserPrompt.t) :=
  filter_queryset (Some UserPromptViewSet_search_fields) request
    <$> UserPromptViewSet_get_queryset s request u.

Definition AIResponseViewSet_list (s : Store) (request : Request) (u : UserId)
    : result (list AIResponse.t) :=
  filter_queryset (Some AIResponseViewSet_search_fields) request
    <$> AIResponseViewSet_get_queryset s request u.

Definition FeedbackViewSet_list (s : Store) (request : Request) (u : UserId)
    : result (list Feedback.t) :=
  filter_queryset (Some FeedbackViewSet_search_fields) request
    <$> FeedbackViewSet_get_queryset s request u.

Definition TagViewSet_list (s : Store) (request : Request) (u : UserId)
    : result (list Tag.t) :=
  filter_queryset None request <$> TagViewSet_get_queryset s request u.

Definition DashboardViewSet_list (s : Store) (request : Request) (u : UserId)
    : result (list Dashboard.t) :=
  filter_queryset None request <$> DashboardViewSet_get_queryset s request u.

Definition WidgetViewSet_list (s : Store) (request : Request) (u : UserId)
    : result (list Widget.t) :=
  filter_queryset None request <$> WidgetViewSet_get_queryset s request u.

(** ** serializers.py: TagSerializer, and [TagViewSet.create]

    [fields = ['id', 'name', 'color']]: [id] is the automatic key of the
    model and read-only, [name] is required, [color] has a model default and
    is optional. *)
Inductive FieldKind : Type := ReadOnly | Required | Optional.

Definition TagSerializer_fields : list (string * FieldKind) :=
  [("id", ReadOnly); ("name", Required); ("color", Optional)].

(** [run_field_validation name value] is the validation of one supplied
    value by the serializer field [name]: its internal value, or [None]
    where the field rejects it (a wrong type, [null], a blank or too long
    text). *)
Variable run_field_validation : string → json → option json.

(** [Serializer.to_internal_value]: the declared fields are gone through
    one by one.  A read-only field is skipped; a writable field that the
    payload leaves out is an error when required and is left out of the
    result otherwise; a supplied value is validated.  What the payload holds
    under any other key is not looked at. *)
Fixpoint to_internal_value (fields : list (string * FieldKind))
    (payload : gmap string json) : option (gmap string json) :=
  match fields with
  | [] => Some ∅
  | (name, kind) :: fields =>
      rest ← to_internal_value fields payload;
      match kind, payload !! name with
      | ReadOnly, _ => Some rest
      | Required, None => None
      | Optional, None => Some rest
      | _, Some value =>
          value ← run_field_validation name value; Some (<[name := value]> rest)
      end
  end.

(** [serializer.is_valid(raise_exception=True)]: a payload that is no object
    or does not validate ends in a 400 response. *)
Definition run_validation (fields : list (string * FieldKind)) (payload : json)
    : result (gmap string json) :=
  match payload with
  | JObject kvs =>
      match to_internal_value fields kvs with
      | Some validated_data => Ok validated_data
      | None => Err BadRequest
      end
  | _ => Err BadRequest
  end.

(** [Tag.objects.create], called with the validated data as keyword
    arguments: the columns take them, the model defaults where there is
    none.  The key is new, [project] is NOT NULL and points at a project,
    and [unique_together = ('project', 'name')]. *)
Definition Tag_objects_create (id : Z) (kwargs : gmap string json) : DB Tag.t :=
  s ← db_get;
  match kwargs !! "project" with
  | Some (JInt p) =>
      let name := match kwargs !! "name" with Some (JStr v) => v | _ => "" end in
      let color :=
        match kwargs !! "color" with Some (JStr v) => v | _ => "#3498db" end in
      let row := Tag.mk id p name color in
      if bool_decide ((id ∉ (Tag.id <$> tags s))
                      ∧ p ∈ (Project.id <$> projects s)
                      ∧ ((p, name) ∉ ((λ t, (Tag.project t, Tag.name t)) <$> tags s)))
      then _ ← db_put (with_tags s (tags s ++ [row])); db_ret row
      else db_raise IntegrityError
  | _ => db_raise IntegrityError
  end.

(** [TagViewSet.create]: the permission classes, the validation of the
    body, then [perform_create], which saves the serializer with the
    validated data and nothing else. *)
Definition TagViewSet_create (new_id : Z) (s : Store) (request : Request)
    : result (Store * result Tag.t) :=
  dispatch TagViewSet request (λ _,
    validated_data ← run_validation TagSerializer_fields (body request);
    Ok (Tag_objects_create new_id validated_data s)).

(** ** What the statements on access and lists are phrased with *)

(** The models that declare a [project] field, with the key it holds. *)
Inductive declares_project : Obj → UUID → Prop :=
  | session_declares x : declares_project (OSession x) (Session.project x)
  | event_declares e : declares_project (OEvent e) (Event.project e)
  | tag_declares t : declares_project (OTag t) (Tag.project t)
  | dashboard_declares d : declares_project (ODashboard d) (Dashboard.project d).

(** The project a row belongs to: the row itself, the stored project its
    [project] key names, or the project of its stored event or dashboard. *)
Inductive belongs (s : Store) : Obj → Project.t → Prop :=
  | belongs_self p : belongs s (OProject p) p
  | belongs_declared obj k p :
      declares_project obj k → p ∈ projects s → Project.id p = k → belongs s obj p
  | belongs_prompt r e p :
      e ∈ events s → Event.id e = UserPrompt.event r → belongs s (OEvent e) p →
      belongs s (OUserPrompt r) p
  | belongs_response r e p :
      e ∈ events s → Event.id e = AIResponse.event r → belongs s (OEvent e) p →
      belongs s (OAIResponse r) p
  | belongs_feedback r e p :
      e ∈ events s → Event.id e = Feedback.event r → belongs s (OEvent e) p →
      belongs s (OFeedback r) p
  | belongs_widget w d p :
      d ∈ dashboards s → Dashboard.id d = Widget.dashboard w →
      belongs s (ODashboard d) p → belongs s (OWidget w) p.

(** The identity may see the row: it may see a project the row belongs to. *)
Definition visible (s : Store) (u : UserId) (obj : Obj) : Prop :=
  ∃ p, belongs s obj p ∧ can_see u p.

(** A parameter that is supplied, present and not empty, satisfies
    [holds]. *)
Definition supplied (request : Request) (name : string) (holds : string → Prop)
    : Prop :=
  ∀ v, query_params request !! name = Some v → v ≠ "" → holds v.

(** The row has the value of every equality filter that is supplied. *)
Definition passes_filters (s : Store) (request : Request) (obj : Obj) : Prop :=
  let of_event eid :=
    supplied request "project"
      (λ v, ∃ e, e ∈ events s ∧ Event.id e = eid ∧ to_uuid v = Some (Event.project e)) in
  match obj with
  | OProject _ => True
  | OSession x =>
      supplied request "project" (λ v, to_uuid v = Some (Session.project x))
      ∧ supplied request "user_id" (λ v, Session.user_id x = Some v)
  | OEvent e =>
      supplied request "project" (λ v, to_uuid v = Some (Event.project e))
      ∧ supplied request "session"
          (λ v, ∃ k, to_uuid v = Some k ∧ Event.session e = Some k)
      ∧ supplied request "event_type"
          (λ v, event_type_value (Event.event_type e) = v)
  | OUserPrompt r =>
      of_event (UserPrompt.event r)
      ∧ supplied request "model_name" (λ v, UserPrompt.model_name r = v)
  | OAIResponse r =>
      of_event (AIResponse.event r)
      ∧ supplied request "model_name" (λ v, AIResponse.model_name r = v)
  | OFeedback r =>
      of_event (Feedback.event r)
      ∧ supplied request "rating"
          (λ v, ∃ k, py_int v = Some k ∧ Feedback.rating r = Some k)
  | OTag t => supplied request "project" (λ v, to_uuid v = Some (Tag.project t))
  | ODashboard d =>
      supplied request "project" (λ v, to_uuid v = Some (Dashboard.project d))
  | OWidget w =>
      supplied request "dashboard" (λ v, to_uuid v = Some (Widget.dashboard w))
  end.

(** The identifiers and numbers among the supplied parameters of a view
    convert. *)
Definition params_convert (v : ViewSet) (request : Request) : Prop :=
  let uuid name := supplied request name (λ v, is_Some (to_uuid v)) in
  match v with
  | ProjectViewSet | UserViewSet => True
  | EventViewSet => uuid "project" ∧ uuid "session"
  | FeedbackViewSet =>
      uuid "project" ∧ supplied request "rating" (λ v, is_Some (py_int v))
  | WidgetViewSet => uuid "dashboard"
  | _ => uuid "project"
  end.

(** Every term of the [search] text is contained in one of [fields]. *)
Definition search_keeps (request : Request) (fields : list string) : Prop :=
  Forall (λ term, Exists (λ value, icontains value term = true) fields)
    (search_terms (default "" (query_params request !! "search"))).

(** The texts a search looks at, for the collections that are searched. *)
Definition searched (obj : Obj) : option (list string) :=
  match obj with
  | OProject p => Some [Project.name p; Project.description p]
  | OSession x =>
      Some match Session.user_id x with
           | Some v => [v; Session.session_key x]
           | None => [Session.session_key x]
           end
  | OUserPrompt r => Some [UserPrompt.prompt_text r; UserPrompt.model_name r]
  | OAIResponse r => Some [AIResponse.response_text r; AIResponse.model_name r]
  | OFeedback r => Some [Feedback.comment r]
  | _ => None
  end.

Definition matches_search (request : Request) (obj : Obj) : Prop :=
  ∀ fields, searched obj = Some fields → search_keeps request fields.

(** [answer] is the list of the view [v] over [table]: it is there exactly
    when the supplied identifiers convert, has no row twice, and holds
    exactly the rows of the table that the identity may see, that have the
    value of every supplied filter and that the search keeps. *)
Definition lists_visible {A} (v : ViewSet) (wrap : A → Obj) (s : Store)
    (request : Request) (u : UserId) (table : list A) (answer : result (list A))
    : Prop :=
  (params_convert v request ↔ ∃ rows, answer = Ok rows)
  ∧ ∀ rows, answer = Ok rows →
      NoDup rows
      ∧ ∀ r, r ∈ rows ↔
             r ∈ table ∧ visible s u (wrap r) ∧ passes_filters s request (wrap r)
             ∧ matches_search request (wrap r).

(** [get] retrieves by key from [answer]: for a read, and keys identifying
    the rows of the table, it returns a row exactly when the key is the
    row's and the row is in the list. *)
Definition retrieves {A} (pk_of : A → Z) (conv : string → option Z)
    (request : Request) (table : list A) (answer : result (list A))
    (get : string → result A) : Prop :=
  method request ∈ SAFE_METHODS → pk_unique pk_of table →
  ∀ pk obj, get pk = Ok obj ↔
            ∃ rows, answer = Ok rows ∧ obj ∈ rows ∧ conv pk = Some (pk_of obj).

(** The view serves the collection: its list and its retrieval. *)
Definition serves {A} (v : ViewSet) (wrap : A → Obj) (pk_of : A → Z)
    (conv : string → option Z) (s : Store) (request : Request) (u : UserId)
    (table : list A) (answer : result (list A)) (get : string → result A) : Prop :=
  lists_visible v wrap s request u table answer
  ∧ retrieves pk_of conv request table answer get.

(** A write that got hold of its object: the object is of a project of the
    identity's own. *)
Definition owner_only {A} (wrap : A → Obj) (s : Store) (request : Request)
    (got : result A) : Prop :=
  ∀ r p, got = Ok r → belongs s (wrap r) p → user request = Some (Project.owner p).

(** [k] is the truncation of [q] towards zero. *)
Definition truncates (q : Q) (k : Z) : Prop :=
  ((0 <= q)%Q → (inject_Z k <= q)%Q ∧ (q < inject_Z (k + 1))%Q)
  ∧ ((q <= 0)%Q → (inject_Z (k - 1) < q)%Q ∧ (q <= inject_Z k)%Q).

(** [int(value)] is [k]. *)
Inductive int_of : json → Z → Prop :=
  | int_of_true : int_of (JBool true) 1
  | int_of_false : int_of (JBool false) 0
  | int_of_int k : int_of (JInt k) k
  | int_of_float q k : truncates q k → int_of (JFloat (Finite q)) k
  | int_of_str v k : py_int v = Some k → int_of (JStr v) k.

(** [int(value)] raises [e]. *)
Inductive int_raises : json → exn → Prop :=
  | raises_infinite neg : int_raises (JFloat (Infinite neg)) OverflowError
  | raises_str v : py_int v = None → int_raises (JStr v) ValueError
  | raises_array xs : int_raises (JArray xs) TypeError
  | raises_object kvs : int_raises (JObject kvs) TypeError.

(** The events of the project not older than [start_date] that are of type
    [t]. *)
Definition events_of_type (s : Store) (project : Project.t) (start_date : datetime)
    (t : EventType) : list Event.t :=
  filter (λ e, Event.project e = Project.id project
               ∧ start_date ≤ Event.timestamp e ∧ Event.event_type e = t) (events s).

(** ** A concrete search

    An instance of the search the views are parameterised by, for evaluating
    the model on sample requests: terms are separated by spaces and commas,
    and containment ignores the case of ASCII letters. *)
Definition ascii_lower (c : ascii) : ascii :=
  let n := N_of_ascii c in
  if bool_decide (65 ≤ Z.of_N n ≤ 90) then ascii_of_N (n + 32) else c.

Fixpoint lower (v : string) : string :=
  match v with
  | EmptyString => EmptyString
  | String c v' => String (ascii_lower c) (lower v')
  end.

Fixpoint has_substring (needle v : string) : bool :=
  String.prefix needle v
  || match v with
     | EmptyString => false
     | String _ v' => has_substring needle v'
     end.

Definition ascii_icontains (value term : string) : bool :=
  has_substring (lower term) (lower value).

Fixpoint split_terms_from (term : string) (v : string) : list string :=
  let flush rest := if bool_decide (term = "") then rest else term :: rest in
  match v with
  | EmptyString => flush []
  | String c v' =>
      if bool_decide (c = " "%char ∨ c = ","%char)
      then flush (split_terms_from "" v')
      else split_terms_from (term ++ String c "") v'
  end.

Definition split_terms (v : string) : list string := split_terms_from "" v.

(** A database that compares the key column with any integer. *)
Definition no_key_error (k : Z) : option exn := None.

(** A serializer field that takes a text of at most fifty characters. *)
Definition short_text (name : string) (value : json) : option json :=
  match value with
  | JStr v =>
      if bool_decide (v ≠ "" ∧ (String.length v ≤ 50)%nat) then Some (JStr v)
      else None
  | _ => None
  end.

(** ** Further sample requests *)

Definition member_searches : Request :=
  request_of GET (Some bob) [("search", "zzz")] [].
Definition member_lists_other_visitor : Request :=
  request_of GET (Some bob) [("user_id", "nobody")] [].
Definition owner_adds_fraction : Request :=
  request_of POST (Some alice) [] [("user_id", JFloat (Finite (37 # 10)))].
Definition owner_creates_tag : Request :=
  request_of POST (Some alice) [] [("name", JStr "bug"); ("project", JInt 1)].

(** * Properties *)

(** The parameters of the section that the goal does not mention are put
    aside before a decision procedure runs, which keeps them out of the
    proof. *)
Ltac aside :=
  try clear key_error; try clear run_field_validation; try clear icontains;
  try clear search_terms; try clear py_int; try clear to_uuid.
Ltac taut := aside; tauto.
Ltac solver := aside; naive_solver.

(** ** Lists and keys *)

Lemma pk_unique_eq {A} (pk_of : A → UUID) (table : list A) (x y : A) :
  pk_unique pk_of table → x ∈ table → y ∈ table → pk_of x = pk_of y → x = y.
Proof.
  unfold pk_unique. induction table as [|a l IH]; simpl.
  - intros _ Hx. by apply elem_of_nil in Hx.
  - intros Hnd Hx Hy Heq. apply NoDup_cons in Hnd as [Hnotin Hnd].
    apply elem_of_cons in Hx as [->|Hx]; apply elem_of_cons in Hy as [->|Hy].
    + done.
    + exfalso. apply Hnotin. rewrite Heq. by apply list_elem_of_fmap_2.
    + exfalso. apply Hnotin. rewrite <- Heq. by apply list_elem_of_fmap_2.
    + by apply IH.
Qed.

Lemma head_all_equal {A} (l : list A) (x : A) :
  x ∈ l → (∀ y, y ∈ l → y = x) → head l = Some x.
Proof.
  destruct l as [|a l]; simpl.
  - intros H. by apply elem_of_nil in H.
  - intros _ H. f_equal. apply H. apply list_elem_of_here.
Qed.

Lemma head_elem_of {A} (l : list A) (x : A) : head l = Some x → x ∈ l.
Proof. destruct l; simpl; [done|]. intros [= ->]. apply list_elem_of_here. Qed.

Lemma head_elem_of_filter {A} (P : A → Prop) `{∀ x, Decision (P x)} (l : list A)
    (x : A) :
  head (filter P l) = Some x → P x ∧ x ∈ l.
Proof. intros Hh. by apply head_elem_of, list_elem_of_filter in Hh. Qed.

Lemma filter_pk_unique {A} (pk_of : A → UUID) (table : list A) (x : A) :
  pk_unique pk_of table → x ∈ table →
  filter (λ r, pk_of r = pk_of x) table = [x].
Proof.
  unfold pk_unique. induction table as [|a l IH]; [by intros _ ?%elem_of_nil|].
  rewrite fmap_cons. intros [Hnotin Hnd]%NoDup_cons Hin.
  apply elem_of_cons in Hin as [<-|Hin].
  - rewrite filter_cons_True by done. f_equal.
    apply elem_of_nil_inv. intros y [Heq Hy]%list_elem_of_filter.
    apply Hnotin. rewrite <- Heq. by apply list_elem_of_fmap_2.
  - rewrite filter_cons_False; [by apply IH|].
    intros Heq. apply Hnotin. rewrite Heq. by apply list_elem_of_fmap_2.
Qed.

Lemma fmap_id_on {A} (f : A → A) (l : list A) :
  (∀ x, x ∈ l → f x = x) → f <$> l = l.
Proof.
  induction l as [|a l IH]; [done|]. intros H. rewrite fmap_cons. f_equal.
  - apply H. apply list_elem_of_here.
  - apply IH. intros x Hx. apply H. by apply list_elem_of_further.
Qed.


(** ** Query sets *)

Lemma elem_of_left_join_members (p : Project.t) (u : UserId) :
  Some u ∈ left_join_members p ↔ u ∈ Project.members p.
Proof.
  unfold left_join_members.
  rewrite <- (elem_of_elements (Project.members p)).
  destruct (elements (Project.members p)) as [|m ms] eqn:E.
  - split; intros H; [|by apply elem_of_nil in H].
    apply list_elem_of_singleton in H. discriminate.
  - rewrite list_elem_of_fmap. split.
    + intros (y & Hy & Hin). by inversion Hy; subst.
    + intros Hin. by exists u.
Qed.

Lemma left_join_members_nonempty (p : Project.t) : ∃ m, m ∈ left_join_members p.
Proof.
  unfold left_join_members.
  destruct (elements (Project.members p)) as [|m ms].
  - exists None. apply list_elem_of_here.
  - exists (Some m). apply list_elem_of_here.
Qed.

Lemma elem_of_access_filter {A} `{EqDecision A}
    (project_of : A → list Project.t) (u : UserId) (queryset : list A) (r : A) :
  r ∈ access_filter project_of u queryset ↔
  r ∈ queryset ∧ ∃ p, p ∈ project_of r ∧ can_see u p.
Proof.
  unfold access_filter, can_see. rewrite elem_of_remove_dups, list_elem_of_bind.
  split.
  - intros (r' & Hr & Hin). apply list_elem_of_bind in Hr as (p & Hr & Hp).
    apply list_elem_of_bind in Hr as (m & Hr & Hm).
    case_bool_decide as Hc; [|by apply elem_of_nil in Hr].
    apply list_elem_of_singleton in Hr as ->. split; [done|].
    exists p. split; [done|].
    destruct Hc as [Ho | ->]; [by left|]. right. by apply elem_of_left_join_members.
  - intros (Hin & p & Hp & Hsee). exists r. split; [|done].
    apply list_elem_of_bind. exists p. split; [|done].
    apply list_elem_of_bind.
    destruct Hsee as [Ho | Hm].
    + destruct (left_join_members_nonempty p) as [m Hm]. exists m. split; [|done].
      rewrite bool_decide_eq_true_2 by by left. apply list_elem_of_here.
    + exists (Some u). split; [|by apply elem_of_left_join_members].
      rewrite bool_decide_eq_true_2 by by right. apply list_elem_of_here.
Qed.

Lemma NoDup_access_filter {A} `{EqDecision A}
    (project_of : A → list Project.t) (u : UserId) (queryset : list A) :
  NoDup (access_filter project_of u queryset).
Proof. apply NoDup_remove_dups. Qed.

Lemma filter_param_Ok {A V} `{EqDecision V} (conv : string → result V)
    (field : A → list V) (raw : option string) (queryset rows : list A) :
  filter_param conv field raw queryset = Ok rows →
  converts conv raw ∧ ∀ r, r ∈ rows ↔ r ∈ queryset ∧ restricts conv field raw r.
Proof.
  unfold filter_param, converts, restricts. destruct raw as [v|].
  - case_bool_decide as Hv.
    + destruct (conv v) as [x|e] eqn:Hc; simpl; [|discriminate].
      intros [= <-]. split.
      * intros v' [= <-] _. by exists x.
      * intros r. rewrite list_elem_of_filter. split.
        -- intros [Hx Hin]. split; [done|]. intros v' [= <-] _. by exists x.
        -- intros [Hin Hr]. destruct (Hr v eq_refl Hv) as (x' & Hx' & Hf).
           rewrite Hc in Hx'. inversion Hx'; subst. done.
    + intros [= <-]. split; [by intros v' [= <-]|].
      intros r. split; [|by intros []]. intros Hin. split; [done|].
      by intros v' [= <-].
  - intros [= <-]. split; [done|]. intros r. split; [|by intros []]. done.
Qed.

Lemma filter_param_converts {A V} `{EqDecision V} (conv : string → result V)
    (field : A → list V) (raw : option string) (queryset : list A) :
  converts conv raw → ∃ rows, filter_param conv field raw queryset = Ok rows.
Proof.
  unfold filter_param, converts. intros Hc. destruct raw as [v|]; [|by eexists].
  case_bool_decide as Hv; [|by eexists].
  destruct (Hc v eq_refl Hv) as [x ->]. simpl. by eexists.
Qed.

Lemma char_field_converts (raw : option string) : converts char_field raw.
Proof. intros v _ _. by exists v. Qed.

Ltac queryset_steps :=
  repeat match goal with
  | H : context [filter_param ?c ?f ?raw ?q] |- _ =>
      let rows := fresh "rows" in
      let e := fresh "e" in
      let E := fresh "E" in
      destruct (filter_param c f raw q) as [rows|e] eqn:E; simpl in H;
      [apply filter_param_Ok in E as [? ?] | discriminate H]
  end.

Ltac queryset_total :=
  repeat match goal with
  | |- context [filter_param ?c ?f ?raw ?q] =>
      let rows := fresh "rows" in
      let E := fresh "E" in
      destruct (filter_param_converts c f raw q) as [rows E];
      [done | rewrite E; simpl]
  end.

Ltac answers_tac :=
  split;
  [ intros Hc; repeat (apply Forall_cons in Hc as [? Hc]); simpl in *;
    queryset_total; by eexists
  | intros rows Hq; queryset_steps; injection Hq as <-;
    split;
    [ repeat (apply Forall_cons; split; [done|]); by apply Forall_nil
    | split; [apply NoDup_access_filter|];
      intros r; rewrite elem_of_access_filter;
      repeat match goal with
             | H : ∀ r, r ∈ _ ↔ _ |- _ => rewrite (H r); clear H
             end;
      repeat rewrite Forall_cons; rewrite Forall_nil; taut ] ].


Lemma SessionViewSet_get_queryset_answers (s : Store) (request : Request) (u : UserId) :
  answers (SessionViewSet_get_queryset s request u) (sessions s) (session_project s) u
    [converts uuid_field (query_params request !! "project")]
    [restricts uuid_field (λ r, [Session.project r]) (query_params request !! "project");
     restricts char_field (λ r, option_list (Session.user_id r)) (query_params request !! "user_id")].
Proof.
  pose proof char_field_converts as Hchar.
  unfold SessionViewSet_get_queryset, answers. answers_tac.
Qed.

Lemma EventViewSet_get_queryset_answers (s : Store) (request : Request) (u : UserId) :
  answers(EventViewSet_get_queryset s request u) (events s) (event_project s) u
    [converts uuid_field (query_params request !! "project"); converts uuid_field (query_params request !! "session")]
    [restricts uuid_field (λ r, [Event.project r]) (query_params request !! "project");
     restricts uuid_field (λ r, option_list (Event.session r)) (query_params request !! "session");
     restricts char_field (λ r, [event_type_value (Event.event_type r)])
       (query_params request !! "event_type")].
Proof.
  pose proof char_field_converts as Hchar.
  unfold EventViewSet_get_queryset, answers. answers_tac.
Qed.

Lemma UserPromptViewSet_get_queryset_answers (s : Store) (request : Request) (u : UserId) :
  answers(UserPromptViewSet_get_queryset s request u) (user_prompts s)
    (λ r, via_event s (UserPrompt.event r)) u
    [converts uuid_field (query_params request !! "project")]
    [restricts uuid_field
       (λ r, Event.project <$> event_by_id s (UserPrompt.event r)) (query_params request !! "project");
     restricts char_field (λ r, [UserPrompt.model_name r]) (query_params request !! "model_name")].
Proof.
  pose proof char_field_converts as Hchar.
  unfold UserPromptViewSet_get_queryset, answers. answers_tac.
Qed.

Lemma AIResponseViewSet_get_queryset_answers (s : Store) (request : Request) (u : UserId) :
  answers(AIResponseViewSet_get_queryset s request u) (ai_responses s)
    (λ r, via_event s (AIResponse.event r)) u
    [converts uuid_field (query_params request !! "project")]
    [restricts uuid_field
       (λ r, Event.project <$> event_by_id s (AIResponse.event r)) (query_params request !! "project");
     restricts char_field (λ r, [AIResponse.model_name r]) (query_params request !! "model_name")].
Proof.
  pose proof char_field_converts as Hchar.
  unfold AIResponseViewSet_get_queryset, answers. answers_tac.
Qed.

Lemma FeedbackViewSet_get_queryset_answers (s : Store) (request : Request) (u : UserId) :
  answers(FeedbackViewSet_get_queryset s request u) (feedback_rows s)
    (λ r, via_event s (Feedback.event r)) u
    [converts uuid_field (query_params request !! "project"); converts integer_field (query_params request !! "rating")]
    [restricts uuid_field
       (λ r, Event.project <$> event_by_id s (Feedback.event r)) (query_params request !! "project");
     restricts integer_field (λ r, option_list (Feedback.rating r)) (query_params request !! "rating")].
Proof.
  pose proof char_field_converts as Hchar.
  unfold FeedbackViewSet_get_queryset, answers. answers_tac.
Qed.

Lemma TagViewSet_get_queryset_answers (s : Store) (request : Request) (u : UserId) :
  answers(TagViewSet_get_queryset s request u) (tags s) (tag_project s) u
    [converts uuid_field (query_params request !! "project")]
    [restricts uuid_field (λ r, [Tag.project r]) (query_params request !! "project")].
Proof.
  pose proof char_field_converts as Hchar.
  unfold TagViewSet_get_queryset, answers. answers_tac.
Qed.

Lemma DashboardViewSet_get_queryset_answers (s : Store) (request : Request) (u : UserId) :
  answers(DashboardViewSet_get_queryset s request u) (dashboards s)
    (dashboard_project s) u
    [converts uuid_field (query_params request !! "project")]
    [restricts uuid_field (λ r, [Dashboard.project r]) (query_params request !! "project")].
Proof.
  pose proof char_field_converts as Hchar.
  unfold DashboardViewSet_get_queryset, answers. answers_tac.
Qed.

Lemma WidgetViewSet_get_queryset_answers (s : Store) (request : Request) (u : UserId) :
  answers(WidgetViewSet_get_queryset s request u) (widgets s) (widget_project s) u
    [converts uuid_field (query_params request !! "dashboard")]
    [restricts uuid_field (λ r, [Widget.dashboard r]) (query_params request !! "dashboard")].
Proof.
  pose proof char_field_converts as Hchar.
  unfold WidgetViewSet_get_queryset, answers. answers_tac.
Qed.

(** ** Access policy *)

Lemma unsafe_method (request : Request) :
  method request ∉ SAFE_METHODS →
  bool_decide (method request ∈ SAFE_METHODS) = false.
Proof. intros H. by apply bool_decide_eq_false_2. Qed.

Lemma has_object_permission_safe (s : Store) (request : Request) (obj : Obj) :
  method request ∈ SAFE_METHODS → has_object_permission s request obj = Ok true.
Proof. intros H. unfold has_object_permission. by rewrite bool_decide_eq_true_2. Qed.

Lemma fetch_user_Ok (s : Store) (k o : UserId) :
  fetch_user s k = Ok o ↔ o = k ∧ k ∈ users s.
Proof. unfold fetch_user. case_bool_decide; solver. Qed.

Lemma fetch_project_Ok (s : Store) (k : UUID) (p : Project.t) :
  fetch_project s k = Ok p → p ∈ projects s ∧ Project.id p = k.
Proof.
  unfold fetch_project, project_by_id.
  destruct (head _) as [p'|] eqn:Hh; [|done]. intros [= <-].
  apply head_elem_of_filter in Hh. taut.
Qed.

Lemma fetch_project_stored (s : Store) (p : Project.t) :
  pk_unique Project.id (projects s) → p ∈ projects s →
  fetch_project s (Project.id p) = Ok p.
Proof.
  intros Hwf Hin. unfold fetch_project, project_by_id.
  by rewrite (filter_pk_unique Project.id (projects s) p).
Qed.

(** The object check on a project. *)
Lemma has_object_permission_project (s : Store) (request : Request) (p : Project.t) :
  has_object_permission s request (OProject p) = Ok true ↔
  method request ∈ SAFE_METHODS
  ∨ (Project.owner p ∈ users s ∧ user request = Some (Project.owner p)).
Proof.
  unfold has_object_permission. cbn [attr_owner]. unfold fetch_user.
  case_bool_decide as Hm; [solver|].
  case_bool_decide as Ho; simpl; [|solver].
  split.
  - intros [= H]. apply bool_decide_eq_true in H. solver.
  - intros [?|[_ ->]]; [done|]. by rewrite bool_decide_eq_true_2.
Qed.

(** The object check on a row of a model that declares [project] and no
    [owner]. *)
Lemma has_object_permission_via_project (s : Store) (request : Request) (obj : Obj)
    (k : UUID) :
  attr_owner s obj = Ok None →
  attr_project s obj = Some <$> fetch_project s k →
  method request ∉ SAFE_METHODS →
  has_object_permission s request obj = Ok true ↔
  ∃ p, fetch_project s k = Ok p ∧ Project.owner p ∈ users s
       ∧ user request = Some (Project.owner p).
Proof.
  intros Ho Hp Hm. unfold has_object_permission.
  rewrite (unsafe_method _ Hm), Ho, Hp. simpl.
  destruct (fetch_project s k) as [p|e]; simpl; [|solver].
  unfold fetch_user. case_bool_decide as Hu; simpl; [|solver].
  split.
  - intros [= H]. apply bool_decide_eq_true in H. solver.
  - intros (p' & [= <-] & _ & ->). by rewrite bool_decide_eq_true_2.
Qed.

(** The object check on a row of a model that declares neither. *)
Lemma has_object_permission_neither (s : Store) (request : Request) (obj : Obj) :
  attr_owner s obj = Ok None → attr_project s obj = Ok None →
  method request ∉ SAFE_METHODS →
  has_object_permission s request obj = Ok false.
Proof.
  intros Ho Hp Hm. unfold has_object_permission.
  by rewrite (unsafe_method _ Hm), Ho, Hp.
Qed.

(** ** Authentication *)

(** C9, as the code has it.  Every endpoint, the users endpoint included,
    rejects a request without an authenticated identity before its handler
    runs. *)
Theorem unauthenticated_rejected {A} (v : ViewSet) (request : Request)
    (handler : UserId → result A) :
  user request = None →
  check_permissions v request = Err NotAuthenticated
  ∧ dispatch v request handler = Err NotAuthenticated.
Proof.
  intros Hu. unfold dispatch.
  assert (check_permissions v request = Err NotAuthenticated) as ->; [|done].
  unfold check_permissions. destruct v; simpl; by rewrite Hu.
Qed.
(** ** Filter backends and objects by primary key *)

Lemma search_matches_spec (fields terms : list string) :
  search_matches fields terms = true ↔
  Forall (λ term, Exists (λ value, icontains value term = true) fields) terms.
Proof.
  unfold search_matches. rewrite forallb_forall, Forall_forall. split.
  - intros H term Hin. apply Exists_exists.
    apply list_elem_of_In, H, existsb_exists in Hin as (v & Hv & Hc).
    exists v. split; [by apply list_elem_of_In|done].
  - intros H term Hin. apply existsb_exists.
    apply list_elem_of_In, H, Exists_exists in Hin as (v & Hv & Hc).
    exists v. split; [by apply list_elem_of_In|done].
Qed.

Lemma elem_of_filter_queryset {A} (search_fields : option (A → list string))
    (request : Request) (queryset : list A) (r : A) :
  r ∈ filter_queryset search_fields request queryset ↔
  r ∈ queryset ∧ ∀ fields, search_fields = Some fields → search_keeps request (fields r).
Proof.
  unfold filter_queryset, search_keeps. destruct search_fields as [fields|].
  - destruct (search_terms _) as [|term terms] eqn:E.
    + split; [|by intros []]. intros Hin. split; [done|].
      intros ? [= <-]. apply Forall_nil_2.
    + rewrite list_elem_of_filter, search_matches_spec. split.
      * intros [Hs Hin]. split; [done|]. by intros ? [= <-].
      * intros [Hin Hs]. split; [|done]. by apply Hs.
  - split; [|by intros []]. intros Hin. by split.
Qed.

Lemma NoDup_filter_queryset {A} (search_fields : option (A → list string))
    (request : Request) (queryset : list A) :
  NoDup queryset → NoDup (filter_queryset search_fields request queryset).
Proof.
  intros Hnd. unfold filter_queryset. destruct search_fields as [fields|]; [|done].
  destruct (search_terms _); [done|]. by apply NoDup_filter.
Qed.

Lemma check_object_permissions_Ok {A} (s : Store) (request : Request)
    (wrap : A → Obj) (obj o : A) :
  check_object_permissions s request wrap obj = Ok o ↔
  o = obj ∧ has_object_permission s request (wrap obj) = Ok true.
Proof.
  unfold check_object_permissions.
  destruct (has_object_permission s request (wrap obj)) as [[]|e]; simpl;
    solver.
Qed.

Lemma get_object_queryset_Ok {A} (pk_of : A → UUID) (wrap : A → Obj)
    (search_fields : option (A → list string)) (s : Store)
    (request : Request) (queryset : result (list A)) (pk : string) (obj : A) :
  get_object pk_of wrap search_fields s request queryset pk = Ok obj →
  ∃ rows, queryset = Ok rows.
Proof. destruct queryset as [rows|e]; [by exists rows|done]. Qed.

Lemma get_object_Ok {A} (pk_of : A → UUID) (wrap : A → Obj)
    (search_fields : option (A → list string)) (s : Store)
    (request : Request) (queryset : list A) (pk : string) (obj : A) :
  get_object pk_of wrap search_fields s request (Ok queryset) pk = Ok obj ↔
  ∃ k, to_uuid pk = Some k
       ∧ head (filter (λ r, pk_of r = k)
                 (filter_queryset search_fields request queryset)) = Some obj
       ∧ has_object_permission s request (wrap obj) = Ok true.
Proof.
  unfold get_object. simpl. destruct (to_uuid pk) as [k|]; simpl.
  - destruct (head (filter (λ r, pk_of r = k) _)) as [o|] eqn:Hh.
    + split.
      * intros [-> Hp]%check_object_permissions_Ok. by exists k.
      * intros (k' & [= <-] & Hh' & Hp). apply check_object_permissions_Ok.
        split; [congruence|]. congruence.
    + split; [done|]. intros (k' & [= <-] & Hh' & _). congruence.
  - split; [done|]. by intros (k' & ? & _).
Qed.

(** The row [get_object] returned is in the query set, has the key, is kept
    by the search and passed the object check. *)
Lemma get_object_found {A} (pk_of : A → UUID) (wrap : A → Obj)
    (search_fields : option (A → list string)) (s : Store)
    (request : Request) (queryset : list A) (pk : string) (obj : A) :
  get_object pk_of wrap search_fields s request (Ok queryset) pk = Ok obj →
  obj ∈ queryset ∧ to_uuid pk = Some (pk_of obj)
  ∧ (∀ fields, search_fields = Some fields → search_keeps request (fields obj))
  ∧ has_object_permission s request (wrap obj) = Ok true.
Proof.
  intros (k & Hk & Hh & Hp)%get_object_Ok.
  apply head_elem_of_filter in Hh as [<- Hin].
  apply elem_of_filter_queryset in Hin as [Hin Hs]. done.
Qed.

(** With keys that identify the rows, [get_object] returns the row of the
    query set that has the key, is kept by the search and passes the
    check. *)
Lemma get_object_intro {A} (pk_of : A → UUID) (wrap : A → Obj)
    (search_fields : option (A → list string)) (s : Store)
    (request : Request) (table queryset : list A) (pk : string) (obj : A) :
  pk_unique pk_of table → (∀ r, r ∈ queryset → r ∈ table) →
  obj ∈ queryset → to_uuid pk = Some (pk_of obj) →
  (∀ fields, search_fields = Some fields → search_keeps request (fields obj)) →
  has_object_permission s request (wrap obj) = Ok true →
  get_object pk_of wrap search_fields s request (Ok queryset) pk = Ok obj.
Proof.
  intros Hwf Hsub Hin Hk Hs Hp. apply get_object_Ok. exists (pk_of obj).
  split_and!; [done| |done]. apply head_all_equal.
  - apply list_elem_of_filter. split; [done|]. by apply elem_of_filter_queryset.
  - intros y [Hid Hy]%list_elem_of_filter.
    apply elem_of_filter_queryset in Hy as [Hy _].
    apply (pk_unique_eq pk_of table); [done|by apply Hsub..|done].
Qed.

Lemma elem_of_project_queryset (s : Store) (u : UserId) (p : Project.t) :
  p ∈ ProjectViewSet_get_queryset s u ↔ p ∈ projects s ∧ can_see u p.
Proof.
  unfold ProjectViewSet_get_queryset. rewrite elem_of_access_filter. split.
  - intros (Hin & p' & ->%list_elem_of_singleton & Hsee). done.
  - intros [Hin Hsee]. split; [done|]. exists p. split; [|done].
    apply list_elem_of_here.
Qed.

(** The project a detail action was let through to: it is stored, has the
    requested key, is within the caller's reach and kept by the search, and
    passed the object check. *)
Lemma project_object (s : Store) (request : Request) (u : UserId) (pk : string)
    (project : Project.t) :
  ProjectViewSet_get_object s request u pk = Ok project →
  to_uuid pk = Some (Project.id project)
  ∧ project ∈ projects s ∧ can_see u project
  ∧ has_object_permission s request (OProject project) = Ok true
  ∧ search_keeps request (ProjectViewSet_search_fields project).
Proof.
  unfold ProjectViewSet_get_object.
  intros (Hin & Hk & Hs & Hp)%get_object_found.
  apply elem_of_project_queryset in Hin as [Hin Hsee].
  split_and!; try done. by apply Hs.
Qed.

Lemma project_object_intro (s : Store) (request : Request) (u : UserId) (pk : string)
    (project : Project.t) :
  pk_unique Project.id (projects s) →
  to_uuid pk = Some (Project.id project) →
  project ∈ projects s → can_see u project →
  has_object_permission s request (OProject project) = Ok true →
  search_keeps request (ProjectViewSet_search_fields project) →
  ProjectViewSet_get_object s request u pk = Ok project.
Proof.
  intros Hwf Hk Hin Hsee Hp Hs. unfold ProjectViewSet_get_object.
  apply (get_object_intro _ _ _ _ _ (projects s)); try done.
  - by intros r [? _]%elem_of_project_queryset.
  - by apply elem_of_project_queryset.
  - by intros ? [= <-].
Qed.

(** ** Lists and retrieval *)

Lemma belongs_project (s : Store) (p p' : Project.t) :
  belongs s (OProject p) p' ↔ p' = p.
Proof.
  split; [|intros ->; constructor].
  intros H. inversion H as [| ? ? ? Hd | | | |]; subst; [done|inversion Hd].
Qed.

Lemma belongs_session (s : Store) (x : Session.t) (p : Project.t) :
  belongs s (OSession x) p ↔ p ∈ projects s ∧ Project.id p = Session.project x.
Proof.
  split.
  - intros H. inversion H as [| ? ? ? Hd | | | |]; subst. by inversion Hd; subst.
  - intros [Hin Hid]. by apply (belongs_declared s _ (Session.project x)); [constructor|..].
Qed.

Lemma belongs_event (s : Store) (e : Event.t) (p : Project.t) :
  belongs s (OEvent e) p ↔ p ∈ projects s ∧ Project.id p = Event.project e.
Proof.
  split.
  - intros H. inversion H as [| ? ? ? Hd | | | |]; subst. by inversion Hd; subst.
  - intros [Hin Hid]. by apply (belongs_declared s _ (Event.project e)); [constructor|..].
Qed.

Lemma belongs_tag (s : Store) (t : Tag.t) (p : Project.t) :
  belongs s (OTag t) p ↔ p ∈ projects s ∧ Project.id p = Tag.project t.
Proof.
  split.
  - intros H. inversion H as [| ? ? ? Hd | | | |]; subst. by inversion Hd; subst.
  - intros [Hin Hid]. by apply (belongs_declared s _ (Tag.project t)); [constructor|..].
Qed.

Lemma belongs_dashboard (s : Store) (d : Dashboard.t) (p : Project.t) :
  belongs s (ODashboard d) p ↔ p ∈ projects s ∧ Project.id p = Dashboard.project d.
Proof.
  split.
  - intros H. inversion H as [| ? ? ? Hd | | | |]; subst. by inversion Hd; subst.
  - intros [Hin Hid].
    by apply (belongs_declared s _ (Dashboard.project d)); [constructor|..].
Qed.

Lemma elem_of_project_by_id (s : Store) (k : UUID) (p : Project.t) :
  p ∈ project_by_id s k ↔ p ∈ projects s ∧ Project.id p = k.
Proof. unfold project_by_id. rewrite list_elem_of_filter. taut. Qed.

Lemma elem_of_via_event (s : Store) (eid : UUID) (p : Project.t) :
  p ∈ via_event s eid ↔
  ∃ e, e ∈ events s ∧ Event.id e = eid ∧ belongs s (OEvent e) p.
Proof.
  unfold via_event, event_by_id, event_project. rewrite list_elem_of_bind. split.
  - intros (e & Hp & [Hid He]%list_elem_of_filter). exists e.
    split_and!; [done..|]. by apply belongs_event, elem_of_project_by_id.
  - intros (e & He & Hid & Hp). exists e. split.
    + by apply elem_of_project_by_id, belongs_event.
    + by apply list_elem_of_filter.
Qed.

Lemma belongs_prompt_iff (s : Store) (r : UserPrompt.t) (p : Project.t) :
  belongs s (OUserPrompt r) p ↔ p ∈ via_event s (UserPrompt.event r).
Proof.
  rewrite elem_of_via_event. split.
  - intros H. inversion H as [| ? ? ? Hd | ? e | | |]; subst; [inversion Hd|].
    by exists e.
  - intros (e & ? & ? & ?). by apply (belongs_prompt s r e).
Qed.

Lemma belongs_response_iff (s : Store) (r : AIResponse.t) (p : Project.t) :
  belongs s (OAIResponse r) p ↔ p ∈ via_event s (AIResponse.event r).
Proof.
  rewrite elem_of_via_event. split.
  - intros H. inversion H as [| ? ? ? Hd | | ? e | |]; subst; [inversion Hd|].
    by exists e.
  - intros (e & ? & ? & ?). by apply (belongs_response s r e).
Qed.

Lemma belongs_feedback_iff (s : Store) (r : Feedback.t) (p : Project.t) :
  belongs s (OFeedback r) p ↔ p ∈ via_event s (Feedback.event r).
Proof.
  rewrite elem_of_via_event. split.
  - intros H. inversion H as [| ? ? ? Hd | | | ? e |]; subst; [inversion Hd|].
    by exists e.
  - intros (e & ? & ? & ?). by apply (belongs_feedback s r e).
Qed.

Lemma belongs_widget_iff (s : Store) (w : Widget.t) (p : Project.t) :
  belongs s (OWidget w) p ↔ p ∈ widget_project s w.
Proof.
  unfold widget_project, dashboard_by_id, dashboard_project.
  rewrite list_elem_of_bind. split.
  - intros H. inversion H as [| ? ? ? Hd | | | | ? d ? Hin Hid Hb]; subst;
      [inversion Hd|].
    exists d. split.
    + by apply elem_of_project_by_id, belongs_dashboard.
    + by apply list_elem_of_filter.
  - intros (d & Hp & [Hid Hd]%list_elem_of_filter).
    apply (belongs_widget s w d); [done..|].
    by apply belongs_dashboard, elem_of_project_by_id.
Qed.

(** The filters, as conditions on the row. *)
Lemma restricts_uuid {A} (field : A → list UUID) (request : Request) (name : string)
    (r : A) :
  restricts uuid_field field (query_params request !! name) r ↔
  supplied request name (λ v, ∃ k, to_uuid v = Some k ∧ k ∈ field r).
Proof.
  unfold restricts, supplied, uuid_field. split; intros H v Hv Hne.
  - destruct (H v Hv Hne) as (x & Hx & Hin). exists x. split; [|done].
    by destruct (to_uuid v) as [k|]; simplify_eq.
  - destruct (H v Hv Hne) as (x & Hx & Hin). exists x. by rewrite Hx.
Qed.

Lemma restricts_integer {A} (field : A → list Z) (request : Request) (name : string)
    (r : A) :
  restricts integer_field field (query_params request !! name) r ↔
  supplied request name (λ v, ∃ k, py_int v = Some k ∧ k ∈ field r).
Proof.
  unfold restricts, supplied, integer_field. split; intros H v Hv Hne.
  - destruct (H v Hv Hne) as (x & Hx & Hin). exists x. split; [|done].
    by destruct (py_int v) as [k|]; simplify_eq.
  - destruct (H v Hv Hne) as (x & Hx & Hin). exists x. by rewrite Hx.
Qed.

Lemma restricts_char {A} (field : A → list string) (request : Request) (name : string)
    (r : A) :
  restricts char_field field (query_params request !! name) r ↔
  supplied request name (λ v, v ∈ field r).
Proof.
  unfold restricts, supplied, char_field. split; intros H v Hv Hne.
  - by destruct (H v Hv Hne) as (x & [= <-] & Hin).
  - exists v. split; [done|]. by apply H.
Qed.

Lemma supplied_iff (request : Request) (name : string) (P Q : string → Prop) :
  (∀ v, P v ↔ Q v) → supplied request name P ↔ supplied request name Q.
Proof. unfold supplied. intros H. split; intros HP v Hv Hne; by apply H, HP. Qed.

Lemma converts_uuid (request : Request) (name : string) :
  converts uuid_field (query_params request !! name) ↔
  supplied request name (λ v, is_Some (to_uuid v)).
Proof.
  unfold converts, supplied, uuid_field. split; intros H v Hv Hne.
  - destruct (H v Hv Hne) as [x Hx]. by destruct (to_uuid v).
  - destruct (H v Hv Hne) as [x ->]. by exists x.
Qed.

Lemma converts_integer (request : Request) (name : string) :
  converts integer_field (query_params request !! name) ↔
  supplied request name (λ v, is_Some (py_int v)).
Proof.
  unfold converts, supplied, integer_field. split; intros H v Hv Hne.
  - destruct (H v Hv Hne) as [x Hx]. by destruct (py_int v).
  - destruct (H v Hv Hne) as [x ->]. by exists x.
Qed.

Lemma elem_of_event_projects (s : Store) (eid k : UUID) :
  k ∈ Event.project <$> event_by_id s eid ↔
  ∃ e, e ∈ events s ∧ Event.id e = eid ∧ k = Event.project e.
Proof.
  unfold event_by_id. rewrite list_elem_of_fmap. split.
  - intros (e & -> & [Hid He]%list_elem_of_filter). by exists e.
  - intros (e & He & Hid & ->). exists e. split; [done|]. by apply list_elem_of_filter.
Qed.

Lemma supplied_of_event (s : Store) (request : Request) (eid : UUID) :
  supplied request "project"
    (λ v, ∃ k, to_uuid v = Some k ∧ k ∈ Event.project <$> event_by_id s eid)
  ↔ supplied request "project"
      (λ v, ∃ e, e ∈ events s ∧ Event.id e = eid ∧ to_uuid v = Some (Event.project e)).
Proof.
  apply supplied_iff. intros v. split.
  - intros (k & Hk & (e & He & Hid & ->)%elem_of_event_projects). by exists e.
  - intros (e & He & Hid & Hk). exists (Event.project e). split; [done|].
    apply elem_of_event_projects. by exists e.
Qed.

(** From the query set of a view to its list. *)
Lemma lists_visible_intro {A} (v : ViewSet) (wrap : A → Obj) (s : Store)
    (request : Request) (u : UserId) (table : list A) (queryset : result (list A))
    (project_of : A → list Project.t) (convert : list Prop)
    (filters : list (A → Prop)) (search_fields : option (A → list string)) :
  answers queryset table project_of u convert filters →
  (params_convert v request ↔ Forall id convert) →
  (∀ r, (∃ p, p ∈ project_of r ∧ can_see u p) ↔ visible s u (wrap r)) →
  (∀ r, Forall (λ f, f r) filters ↔ passes_filters s request (wrap r)) →
  (∀ r, (∀ fields, search_fields = Some fields → search_keeps request (fields r))
        ↔ matches_search request (wrap r)) →
  lists_visible v wrap s request u table
    (filter_queryset search_fields request <$> queryset).
Proof.
  intros [Htot Hspec] Hconv Hvis Hfil Hsearch. split.
  - rewrite Hconv. split.
    + intros [rows ->]%Htot. by eexists.
    + intros [rows Hrows]. destruct queryset as [rows0|e]; [|done].
      by destruct (Hspec rows0 eq_refl).
  - intros rows Hrows. destruct queryset as [rows0|e]; [|done].
    injection Hrows as <-. destruct (Hspec rows0 eq_refl) as (_ & Hnd & Hmem).
    split; [by apply NoDup_filter_queryset|]. intros r.
    rewrite elem_of_filter_queryset, Hmem, Hvis, Hfil, Hsearch. taut.
Qed.

Lemma retrieves_intro {A} (pk_of : A → UUID) (wrap : A → Obj) (s : Store)
    (request : Request) (table : list A) (queryset : result (list A))
    (search_fields : option (A → list string)) :
  (∀ rows r, queryset = Ok rows → r ∈ rows → r ∈ table) →
  retrieves pk_of to_uuid request table
    (filter_queryset search_fields request <$> queryset)
    (get_object pk_of wrap search_fields s request queryset).
Proof.
  intros Hsub Hsafe Hwf pk obj. split.
  - intros H. destruct (get_object_queryset_Ok _ _ _ _ _ _ _ _ H) as [rows ->].
    apply get_object_found in H as (Hin & Hk & Hs & _).
    eexists. split; [done|]. split; [|done]. by apply elem_of_filter_queryset.
  - intros (rows & Hrows & Hin & Hk). destruct queryset as [rows0|e]; [|done].
    injection Hrows as <-. apply elem_of_filter_queryset in Hin as [Hin Hs].
    apply (get_object_intro _ _ _ _ _ table); try done.
    + intros r. by apply Hsub.
    + by apply has_object_permission_safe.
Qed.

Lemma answers_subset {A} (queryset : result (list A)) (table : list A)
    (project_of : A → list Project.t) (u : UserId) (convert : list Prop)
    (filters : list (A → Prop)) :
  answers queryset table project_of u convert filters →
  ∀ rows r, queryset = Ok rows → r ∈ rows → r ∈ table.
Proof.
  intros [_ Hspec] rows r Hrows Hin.
  destruct (Hspec rows Hrows) as (_ & _ & Hmem). by apply Hmem in Hin as [? _].
Qed.

Lemma supplied_uuid_one (request : Request) (name : string) (x : UUID) :
  supplied request name (λ v, ∃ k, to_uuid v = Some k ∧ k ∈ [x])
  ↔ supplied request name (λ v, to_uuid v = Some x).
Proof.
  apply supplied_iff. intros v. split.
  - by intros (k & -> & ->%list_elem_of_singleton).
  - intros ->. exists x. split; [done|apply list_elem_of_here].
Qed.

Lemma elem_of_option_list' {A} (o : option A) (x : A) : x ∈ option_list o ↔ o = Some x.
Proof.
  destruct o as [y|]; simpl.
  - rewrite list_elem_of_singleton. solver.
  - split; [by intros ?%elem_of_nil|done].
Qed.

Lemma supplied_uuid_option (request : Request) (name : string) (o : option UUID) :
  supplied request name (λ v, ∃ k, to_uuid v = Some k ∧ k ∈ option_list o)
  ↔ supplied request name (λ v, ∃ k, to_uuid v = Some k ∧ o = Some k).
Proof.
  apply supplied_iff. intros v. by setoid_rewrite elem_of_option_list'.
Qed.

Lemma supplied_integer_option (request : Request) (name : string) (o : option Z) :
  supplied request name (λ v, ∃ k, py_int v = Some k ∧ k ∈ option_list o)
  ↔ supplied request name (λ v, ∃ k, py_int v = Some k ∧ o = Some k).
Proof.
  apply supplied_iff. intros v. by setoid_rewrite elem_of_option_list'.
Qed.

Lemma supplied_char_one (request : Request) (name : string) (x : string) :
  supplied request name (λ v, v ∈ [x]) ↔ supplied request name (λ v, x = v).
Proof.
  apply supplied_iff. intros v. rewrite list_elem_of_singleton. solver.
Qed.

Lemma supplied_char_option (request : Request) (name : string) (o : option string) :
  supplied request name (λ v, v ∈ option_list o)
  ↔ supplied request name (λ v, o = Some v).
Proof. apply supplied_iff. intros v. apply elem_of_option_list'. Qed.

Ltac filters_tac :=
  intros r; cbn [passes_filters];
  repeat rewrite Forall_cons; rewrite Forall_nil;
  rewrite ?restricts_uuid, ?restricts_char, ?restricts_integer; cbv beta;
  rewrite ?supplied_of_event, ?supplied_uuid_one, ?supplied_uuid_option,
    ?supplied_char_one, ?supplied_char_option, ?supplied_integer_option;
  taut.

Ltac convert_tac :=
  cbn [params_convert]; repeat rewrite Forall_cons; rewrite Forall_nil;
  rewrite ?converts_uuid, ?converts_integer; unfold id; taut.

Ltac search_tac :=
  intros r; unfold matches_search; cbn [searched]; split;
  [ intros H fields [= <-]; by apply (H _ eq_refl)
  | intros H fields [= <-]; by apply H ].

Ltac no_search_tac :=
  intros r; unfold matches_search; cbn [searched]; split; [done|by intros _ ?].

Lemma ProjectViewSet_serves (s : Store) (request : Request) (u : UserId) :
  serves ProjectViewSet OProject Project.id to_uuid s request u (projects s)
    (ProjectViewSet_list s request u) (ProjectViewSet_get_object s request u).
Proof.
  assert (answers (Ok (ProjectViewSet_get_queryset s u)) (projects s) (λ p, [p]) u
            [] []) as Hans.
  { split; [by eexists|]. intros rows [= <-]. split; [done|].
    unfold ProjectViewSet_get_queryset.
    split; [apply NoDup_access_filter|]. intros r.
    rewrite elem_of_access_filter, Forall_nil. taut. }
  split.
  - apply (lists_visible_intro ProjectViewSet OProject s request u (projects s)
             (Ok (ProjectViewSet_get_queryset s u)) (λ p, [p]) [] []
             (Some ProjectViewSet_search_fields)); [done|done| | |].
    + intros r. unfold visible. split.
      * intros (p & ->%list_elem_of_singleton & Hsee). exists r.
        split; [constructor|done].
      * intros (p & ->%belongs_project & Hsee). exists r.
        split; [apply list_elem_of_here|done].
    + intros r. by rewrite Forall_nil.
    + intros r. unfold matches_search. simpl. split.
      * intros H fields [= <-]. by apply (H _ eq_refl).
      * intros H fields [= <-]. by apply H.
  - apply (retrieves_intro Project.id OProject s request (projects s)
             (Ok (ProjectViewSet_get_queryset s u))).
    by apply (answers_subset _ _ _ _ _ _ Hans).
Qed.

Lemma SessionViewSet_serves (s : Store) (request : Request) (u : UserId) :
  serves SessionViewSet OSession Session.id to_uuid s request u (sessions s)
    (SessionViewSet_list s request u) (SessionViewSet_get_object s request u).
Proof.
  pose proof (SessionViewSet_get_queryset_answers s request u) as Hans. split.
  - eapply lists_visible_intro; [exact Hans|convert_tac| |filters_tac|].
    + intros r. unfold visible, session_project.
      by setoid_rewrite belongs_session; setoid_rewrite elem_of_project_by_id.
    + intros r. unfold matches_search, SessionViewSet_search_fields. simpl. split.
      * intros H fields [= <-]. specialize (H _ eq_refl). cbv beta in H.
        by destruct (Session.user_id r).
      * intros H fields [= <-]. specialize (H _ eq_refl).
        by destruct (Session.user_id r).
  - apply retrieves_intro. by apply (answers_subset _ _ _ _ _ _ Hans).
Qed.

Lemma EventViewSet_serves (s : Store) (request : Request) (u : UserId) :
  serves EventViewSet OEvent Event.id to_uuid s request u (events s)
    (EventViewSet_list s request u) (EventViewSet_get_object s request u).
Proof.
  pose proof (EventViewSet_get_queryset_answers s request u) as Hans. split.
  - eapply lists_visible_intro; [exact Hans|convert_tac| |filters_tac|no_search_tac].
    intros r. unfold visible, event_project.
    by setoid_rewrite belongs_event; setoid_rewrite elem_of_project_by_id.
  - apply retrieves_intro. by apply (answers_subset _ _ _ _ _ _ Hans).
Qed.

Lemma UserPromptViewSet_serves (s : Store) (request : Request) (u : UserId) :
  serves UserPromptViewSet OUserPrompt UserPrompt.id to_uuid s request u
    (user_prompts s) (UserPromptViewSet_list s request u)
    (UserPromptViewSet_get_object s request u).
Proof.
  pose proof (UserPromptViewSet_get_queryset_answers s request u) as Hans. split.
  - eapply lists_visible_intro; [exact Hans|convert_tac| |filters_tac|search_tac].
    intros r. unfold visible. by setoid_rewrite belongs_prompt_iff.
  - apply retrieves_intro. by apply (answers_subset _ _ _ _ _ _ Hans).
Qed.

Lemma AIResponseViewSet_serves (s : Store) (request : Request) (u : UserId) :
  serves AIResponseViewSet OAIResponse AIResponse.id to_uuid s request u
    (ai_responses s) (AIResponseViewSet_list s request u)
    (AIResponseViewSet_get_object s request u).
Proof.
  pose proof (AIResponseViewSet_get_queryset_answers s request u) as Hans. split.
  - eapply lists_visible_intro; [exact Hans|convert_tac| |filters_tac|search_tac].
    intros r. unfold visible. by setoid_rewrite belongs_response_iff.
  - apply retrieves_intro. by apply (answers_subset _ _ _ _ _ _ Hans).
Qed.

Lemma FeedbackViewSet_serves (s : Store) (request : Request) (u : UserId) :
  serves FeedbackViewSet OFeedback Feedback.id to_uuid s request u
    (feedback_rows s) (FeedbackViewSet_list s request u)
    (FeedbackViewSet_get_object s request u).
Proof.
  pose proof (FeedbackViewSet_get_queryset_answers s request u) as Hans. split.
  - eapply lists_visible_intro; [exact Hans|convert_tac| |filters_tac|search_tac].
    intros r. unfold visible. by setoid_rewrite belongs_feedback_iff.
  - apply retrieves_intro. by apply (answers_subset _ _ _ _ _ _ Hans).
Qed.

Lemma DashboardViewSet_serves (s : Store) (request : Request) (u : UserId) :
  serves DashboardViewSet ODashboard Dashboard.id to_uuid s request u
    (dashboards s) (DashboardViewSet_list s request u)
    (DashboardViewSet_get_object s request u).
Proof.
  pose proof (DashboardViewSet_get_queryset_answers s request u) as Hans. split.
  - eapply lists_visible_intro; [exact Hans|convert_tac| |filters_tac|no_search_tac].
    intros r. unfold visible, dashboard_project.
    by setoid_rewrite belongs_dashboard; setoid_rewrite elem_of_project_by_id.
  - apply retrieves_intro. by apply (answers_subset _ _ _ _ _ _ Hans).
Qed.

Lemma WidgetViewSet_serves (s : Store) (request : Request) (u : UserId) :
  serves WidgetViewSet OWidget Widget.id to_uuid s request u
    (widgets s) (WidgetViewSet_list s request u)
    (WidgetViewSet_get_object s request u).
Proof.
  pose proof (WidgetViewSet_get_queryset_answers s request u) as Hans. split.
  - eapply lists_visible_intro; [exact Hans|convert_tac| |filters_tac|no_search_tac].
    intros r. unfold visible. by setoid_rewrite belongs_widget_iff.
  - apply retrieves_intro. by apply (answers_subset _ _ _ _ _ _ Hans).
Qed.

Lemma TagViewSet_serves (s : Store) (request : Request) (u : UserId) :
  serves TagViewSet OTag Tag.id py_int s request u (tags s)
    (TagViewSet_list s request u) (TagViewSet_get_object s request u).
Proof.
  pose proof (TagViewSet_get_queryset_answers s request u) as Hans. split.
  - eapply lists_visible_intro; [exact Hans|convert_tac| |filters_tac|no_search_tac].
    intros r. unfold visible, tag_project.
    by setoid_rewrite belongs_tag; setoid_rewrite elem_of_project_by_id.
  - intros Hsafe Hwf pk obj. unfold TagViewSet_list, TagViewSet_get_object.
    destruct (TagViewSet_get_queryset s request u) as [rows|e] eqn:Hq; simpl;
      [|solver].
    destruct (py_int pk) as [k|]; [|solver].
    pose proof (answers_subset _ _ _ _ _ _ Hans rows) as Hsub.
    destruct (head (filter (λ r, Tag.id r = k) rows)) as [t|] eqn:Hh.
    + apply head_elem_of_filter in Hh as [<- Hin].
      rewrite check_object_permissions_Ok. split.
      * intros [-> _]. by exists rows.
      * intros (rows' & [= <-] & Hin' & [= Hid]). split.
        -- apply (pk_unique_eq Tag.id (tags s)); [done|by apply Hsub..|done].
        -- by apply has_object_permission_safe.
    + split; [done|]. intros (rows' & [= <-] & Hin' & [= Hid]).
      apply head_None in Hh.
      assert (obj ∈ filter (λ r, Tag.id r = k) rows) as Hc
        by by apply list_elem_of_filter.
      rewrite Hh in Hc. by apply elem_of_nil in Hc.
Qed.


(** ** Membership *)

Lemma truncates_iff (n : Z) (d : positive) (k : Z) :
  truncates (n # d) k ↔
  (0 ≤ n → k * Z.pos d ≤ n < (k + 1) * Z.pos d)
  ∧ (n ≤ 0 → (k - 1) * Z.pos d < n ≤ k * Z.pos d).
Proof.
  unfold truncates, Qle, Qlt, inject_Z. cbn [Qnum Qden].
  rewrite !Z.mul_1_r. rewrite Z.mul_0_l. done.
Qed.

Lemma truncate_truncates (q : Q) : truncates q (truncate q).
Proof.
  destruct q as [n d]. apply truncates_iff. unfold truncate. cbn [Qnum Qden].
  pose proof (Z.quot_rem' n (Z.pos d)) as Hqr.
  split; intros Hn.
  - pose proof (Z.rem_bound_pos n (Z.pos d) Hn ltac:(lia)). nia.
  - pose proof (Z.rem_bound_pos_neg n (Z.pos d) ltac:(lia) Hn). nia.
Qed.

Lemma truncates_unique (q : Q) (k : Z) : truncates q k → k = truncate q.
Proof.
  intros H. pose proof (truncate_truncates q) as H'. destruct q as [n d].
  pose proof (proj1 (truncates_iff n d k) H) as [Hp Hm].
  pose proof (proj1 (truncates_iff n d _) H') as [Hp' Hm'].
  set (k' := truncate (n # d)) in *. clearbody k'.
  destruct (decide (0 ≤ n)) as [Hn|Hn].
  - specialize (Hp Hn). specialize (Hp' Hn). nia.
  - specialize (Hm ltac:(lia)). specialize (Hm' ltac:(lia)). nia.
Qed.

Lemma get_prep_value_int_of (value : json) (k : Z) :
  get_prep_value value = Ok (Some k) ↔ int_of value k.
Proof.
  split.
  - destruct value as [|[]|z|[q|neg]|v|xs|kvs]; simpl; try done.
    + intros [= <-]. constructor.
    + intros [= <-]. constructor.
    + intros [= <-]. constructor.
    + intros [= <-]. constructor. apply truncate_truncates.
    + destruct (py_int v) as [k'|] eqn:Hv; [|done]. intros [= <-]. by constructor.
  - intros H. destruct H as [| |k|q k Hq|v k Hv]; simpl; try done.
    + by rewrite (truncates_unique q k Hq).
    + by rewrite Hv.
Qed.

Lemma get_prep_value_null (value : json) :
  get_prep_value value = Ok None ↔ value = JNull.
Proof.
  destruct value as [|[]|z|[q|neg]|v|xs|kvs]; simpl; try done.
  destruct (py_int v); done.
Qed.

Lemma get_prep_value_raises (value : json) (e : exn) :
  get_prep_value value = Err e ↔ int_raises value e.
Proof.
  split.
  - destruct value as [|[]|z|[q|neg]|v|xs|kvs]; simpl; try done;
      try (intros [= <-]; constructor).
    destruct (py_int v) as [k'|] eqn:Hv; [done|]. intros [= <-]. by constructor.
  - intros H. destruct H as [neg|v Hv|xs|kvs]; simpl; try done. by rewrite Hv.
Qed.

Lemma int_of_functional (value : json) (k k' : Z) :
  int_of value k → int_of value k' → k = k'.
Proof. intros H H'. apply get_prep_value_int_of in H, H'. congruence. Qed.

Lemma User_objects_get_DoesNotExist (s : Store) (user_id : option json) :
  User_objects_get s user_id = DoesNotExist ↔
  user_id = None ∨ user_id = Some JNull
  ∨ ∃ v k, user_id = Some v ∧ int_of v k ∧ k ∉ users s ∧ key_error k = None.
Proof.
  unfold User_objects_get.
  destruct (get_prep_value (default JNull user_id)) as [[k|]|e] eqn:E.
  - apply get_prep_value_int_of in E.
    assert (∃ v, user_id = Some v ∧ int_of v k) as (v & -> & Hv).
    { destruct user_id as [v|]; [by exists v|]. inversion E. }
    case_bool_decide as Hk.
    + split; [done|]. intros [?|[[= ->]|(v' & k' & [= <-] & Hv' & Hk' & _)]];
        [done|inversion Hv|].
      by rewrite (int_of_functional _ _ _ Hv Hv') in Hk.
    + destruct (key_error k) as [e|] eqn:Hke.
      * split; [done|]. intros [?|[[= ->]|(v' & k' & [= <-] & Hv' & _ & Hke')]];
          [done|inversion Hv|].
        rewrite (int_of_functional _ _ _ Hv Hv') in Hke. congruence.
      * split; [|done]. intros _. right; right. by exists v, k.
  - apply get_prep_value_null in E. split; [|done]. intros _.
    destruct user_id as [v|]; [|by left]. simpl in E. subst. right. by left.
  - apply get_prep_value_raises in E. split; [done|].
    intros [->|[->|(v & k & -> & Hv & _)]]; [inversion E..|]. simpl in E.
    apply get_prep_value_raises in E. apply get_prep_value_int_of in Hv. congruence.
Qed.

Lemma User_objects_get_Got (s : Store) (user_id : option json) (k : Z) :
  User_objects_get s user_id = Got k ↔
  ∃ v, user_id = Some v ∧ int_of v k ∧ k ∈ users s.
Proof.
  unfold User_objects_get.
  destruct (get_prep_value (default JNull user_id)) as [[k'|]|e] eqn:E.
  - apply get_prep_value_int_of in E.
    assert (∃ v, user_id = Some v ∧ int_of v k') as (v & -> & Hv).
    { destruct user_id as [v|]; [by exists v|]. inversion E. }
    case_bool_decide as Hk.
    + split.
      * intros [= <-]. by exists v.
      * intros (v' & [= <-] & Hv' & _). by rewrite (int_of_functional _ _ _ Hv Hv').
    + split; [by destruct (key_error k')|].
      intros (v' & [= <-] & Hv' & Hk').
      by rewrite (int_of_functional _ _ _ Hv Hv') in Hk.
  - apply get_prep_value_null in E. split; [done|].
    intros (v & -> & Hv & _). simpl in E. subst. inversion Hv.
  - apply get_prep_value_raises in E. split; [done|].
    intros (v & -> & Hv & _). simpl in E.
    apply get_prep_value_raises in E. apply get_prep_value_int_of in Hv. congruence.
Qed.

Lemma User_objects_get_Raises (s : Store) (user_id : option json) (e : exn) :
  User_objects_get s user_id = Raises e ↔
  ∃ v, user_id = Some v
       ∧ (int_raises v e
          ∨ ∃ k, int_of v k ∧ k ∉ users s ∧ key_error k = Some e).
Proof.
  unfold User_objects_get.
  destruct (get_prep_value (default JNull user_id)) as [[k|]|e'] eqn:E.
  - apply get_prep_value_int_of in E.
    assert (∃ v, user_id = Some v ∧ int_of v k) as (v & -> & Hv).
    { destruct user_id as [v|]; [by exists v|]. inversion E. }
    assert (∀ e, ¬ int_raises v e) as Hnr.
    { intros e0 Hr. apply get_prep_value_raises in Hr.
      apply get_prep_value_int_of in Hv. congruence. }
    case_bool_decide as Hk.
    + split; [done|]. intros (v' & [= <-] & [Hr|(k' & Hv' & Hk' & _)]).
      * by destruct (Hnr e).
      * by rewrite (int_of_functional _ _ _ Hv Hv') in Hk.
    + destruct (key_error k) as [e0|] eqn:Hke.
      * split.
        -- intros [= <-]. exists v. split; [done|]. right. by exists k.
        -- intros (v' & [= <-] & [Hr|(k' & Hv' & _ & Hke')]).
           ++ by destruct (Hnr e).
           ++ rewrite (int_of_functional _ _ _ Hv Hv') in Hke. congruence.
      * split; [done|]. intros (v' & [= <-] & [Hr|(k' & Hv' & _ & Hke')]).
        -- by destruct (Hnr e).
        -- rewrite (int_of_functional _ _ _ Hv Hv') in Hke. congruence.
  - apply get_prep_value_null in E. split; [done|].
    intros (v & -> & [Hr|(k & Hv & _)]); simpl in E; subst; [inversion Hr|inversion Hv].
  - apply get_prep_value_raises in E. split.
    + intros [= <-]. destruct user_id as [v|]; [|inversion E]. exists v.
      split; [done|]. by left.
    + intros (v & -> & [Hr|(k & Hv & _)]); simpl in E.
      * apply get_prep_value_raises in E, Hr. congruence.
      * apply get_prep_value_raises in E. apply get_prep_value_int_of in Hv.
        congruence.
Qed.

Lemma user_id_int_int_of (user_id : option json) (k : Z) :
  user_id_int user_id k → ∃ v, user_id = Some v ∧ int_of v k.
Proof.
  intros [->|(v & -> & Hv)]; eexists; (split; [done|]); by constructor.
Qed.

Lemma data_get_object (request : Request) (kvs : gmap string json) (key : string) :
  body request = JObject kvs →
  data_get request key = Ok (kvs !! key) ∧ data request = kvs.
Proof. unfold data_get, data. by intros ->. Qed.

Lemma data_get_Ok (request : Request) (key : string) (value : option json) :
  data_get request key = Ok value → value = data request !! key.
Proof. unfold data_get, data. destruct (body request); solver. Qed.

Lemma with_projects_id (s : Store) (ps : list Project.t) :
  ps = projects s → with_projects s ps = s.
Proof. intros ->. by destruct s. Qed.

Lemma set_members_id (p : Project.t) : set_members p (Project.members p) = p.
Proof. by destruct p. Qed.


(** Adding a user who is already a member changes nothing. *)
Lemma members_add_again (s : Store) (project project' : Project.t) (k : UserId) :
  Project.id project' = Project.id project →
  members_add (members_add s project k) project' k = members_add s project k.
Proof.
  intros Hid. unfold members_add at 1. apply with_projects_id.
  apply fmap_id_on. intros x Hx. simpl in Hx.
  apply list_elem_of_fmap in Hx as (p & -> & Hp). rewrite Hid.
  destruct (bool_decide (Project.id p = Project.id project)) eqn:E; simpl.
  - apply bool_decide_eq_true in E. rewrite bool_decide_eq_true_2 by done.
    unfold set_members. simpl. f_equal. (aside; set_solver).
  - by rewrite E.
Qed.

(** Removing a user who is not a member changes nothing. *)
Lemma members_remove_non_member (s : Store) (project : Project.t) (k : UserId) :
  pk_unique Project.id (projects s) → project ∈ projects s →
  k ∉ Project.members project →
  members_remove s project k = s.
Proof.
  intros Hwf Hin Hk. unfold members_remove. apply with_projects_id.
  apply fmap_id_on. intros p Hp. case_bool_decide as E; [|done].
  assert (p = project) as -> by by apply (pk_unique_eq Project.id (projects s)).
  transitivity (set_members project (Project.members project));
    [f_equal; (aside; set_solver) | apply set_members_id].
Qed.



Lemma members_add_pk_unique (s : Store) (project : Project.t) (k : UserId) :
  pk_unique Project.id (projects s) →
  pk_unique Project.id (projects (members_add s project k)).
Proof.
  unfold pk_unique, members_add. simpl. rewrite <- list_fmap_compose.
  intros H. erewrite list_fmap_ext; [exact H|]. intros i x _. simpl.
  by case_bool_decide.
Qed.

Lemma members_add_elem_of (s : Store) (project : Project.t) (k : UserId) :
  project ∈ projects s →
  set_members project (Project.members project ∪ {[k]})
  ∈ projects (members_add s project k).
Proof.
  intros Hin. unfold members_add. simpl. apply list_elem_of_fmap.
  exists project. split; [|done]. by rewrite bool_decide_eq_true_2.
Qed.

(** C7, as the code has it.  With the project at hand and primary keys
    unique.  A body that is no object ends both actions in an uncaught
    [AttributeError].  Otherwise [add_member] and [remove_member] answer 404,
    leaving the store as it is, exactly when [user_id] is missing, [null],
    or a value whose [int] is no user's key (a boolean, an integer, a float,
    truncated, or a text [int] converts); a value [int] rejects (a text that
    is no number, an infinite float, an array, an object) ends both in the
    uncaught exception [int] raised, and so does a key the database cannot
    compare; for a known user [add_member] adds to the member set and a
    second call leaves the store as the first left it, and [remove_member]
    of a non-member succeeds and leaves the store unchanged. *)
Theorem member_actions (s : Store) (request : Request) (u : UserId) (pk : string)
    (project : Project.t) :
  pk_unique Project.id (projects s) →
  ProjectViewSet_get_object s request u pk = Ok project →
  ((∀ kvs, body request ≠ JObject kvs) →
     add_member s request u pk = Err AttributeError
     ∧ remove_member s request u pk = Err AttributeError)
  ∧ ∀ kvs, body request = JObject kvs →
      let user_id := kvs !! "user_id" in
      let unknown := user_id = None ∨ user_id = Some JNull
                     ∨ ∃ v k, user_id = Some v ∧ int_of v k ∧ k ∉ users s
                              ∧ key_error k = None in
      (not_found (add_member s request u pk) ↔ unknown)
      ∧ (not_found (remove_member s request u pk) ↔ unknown)
      ∧ (unknown →
           add_member s request u pk = Ok (Response404 "user not found", s)
           ∧ remove_member s request u pk = Ok (Response404 "user not found", s))
      ∧ (∀ v e, user_id = Some v → int_raises v e →
           add_member s request u pk = Err e
           ∧ remove_member s request u pk = Err e)
      ∧ (∀ v k e, user_id = Some v → int_of v k → k ∉ users s →
           key_error k = Some e →
           add_member s request u pk = Err e
           ∧ remove_member s request u pk = Err e)
      ∧ (∀ v k, user_id = Some v → int_of v k → k ∈ users s →
           ∃ s1, add_member s request u pk = Ok (Response200 "user added", s1)
                 ∧ members_of s1 (Project.id project)
                   = [Project.members project ∪ {[k]}]
                 ∧ add_member s1 request u pk = Ok (Response200 "user added", s1))
      ∧ (∀ v k, user_id = Some v → int_of v k → k ∈ users s →
           k ∉ Project.members project →
           remove_member s request u pk = Ok (Response200 "user removed", s)).
Proof.
  intros Hwf Hobj.
  pose proof (project_object _ _ _ _ _ Hobj) as (Hk & Hin & Hsee & Hperm & Hsearch).
  unfold add_member, remove_member. rewrite Hobj. simpl. split.
  { intros Hno. unfold data_get. destruct (body request) as [| | | | | |kvs]; try done.
    by destruct (Hno kvs). }
  intros kvs Hbody. cbv zeta.
  destruct (data_get_object request kvs "user_id" Hbody) as [-> _]. simpl.
  set (user_id := kvs !! "user_id").
  pose proof (User_objects_get_DoesNotExist s user_id) as Hnone.
  split_and!.
  - rewrite <- Hnone. by destruct (User_objects_get s user_id).
  - rewrite <- Hnone. by destruct (User_objects_get s user_id).
  - intros Hu. apply Hnone in Hu. by rewrite Hu.
  - intros v e Hv Hr.
    assert (User_objects_get s user_id = Raises e) as ->; [|done].
    apply User_objects_get_Raises. exists v. split; [done|]. by left.
  - intros v k e Hv Hint Hku Hke.
    assert (User_objects_get s user_id = Raises e) as ->; [|done].
    apply User_objects_get_Raises. exists v. split; [done|]. right. by exists k.
  - intros v k Hv Hint Hku.
    assert (User_objects_get s user_id = Got k) as Hgot
      by (apply User_objects_get_Got; by exists v).
    rewrite Hgot. eexists. split; [done|].
    set (project' := set_members project (Project.members project ∪ {[k]})).
    assert (project_by_id (members_add s project k) (Project.id project) = [project'])
      as Hby.
    { apply (filter_pk_unique Project.id _ project').
      - by apply members_add_pk_unique.
      - by apply members_add_elem_of. }
    split; [unfold members_of; by rewrite Hby|].
    assert (ProjectViewSet_get_object (members_add s project k) request u pk
            = Ok project') as ->.
    { apply project_object_intro.
      - by apply members_add_pk_unique.
      - done.
      - by apply members_add_elem_of.
      - destruct Hsee as [Ho|Hm]; [by left|right]. simpl. (aside; set_solver).
      - exact Hperm.
      - exact Hsearch. }
    simpl. fold user_id.
    assert (User_objects_get (members_add s project k) user_id = Got k) as ->.
    { apply User_objects_get_Got. by exists v. }
    by rewrite members_add_again.
  - intros v k Hv Hint Hku Hnm.
    assert (User_objects_get s user_id = Got k) as ->
      by (apply User_objects_get_Got; by exists v).
    by rewrite members_remove_non_member.
Qed.

(** ** Sessions *)


Lemma Session_save_by_id (s : Store) (session y : Session.t) :
  y ∈ session_by_id (Session_save s session) (Session.id session) → y = session.
Proof.
  unfold session_by_id, Session_save. simpl.
  intros [Hid Hy]%list_elem_of_filter.
  apply list_elem_of_fmap in Hy as (r & -> & Hr).
  by case_bool_decide.
Qed.

Lemma Session_save_elem_of (s : Store) (session r : Session.t) :
  r ∈ sessions s → Session.id r = Session.id session →
  session ∈ session_by_id (Session_save s session) (Session.id session).
Proof.
  intros Hr Hid. unfold session_by_id, Session_save. simpl.
  apply list_elem_of_filter. split; [done|]. apply list_elem_of_fmap.
  exists r. split; [|done]. by rewrite bool_decide_eq_true_2.
Qed.

Lemma restricts_ext {A V} (conv : string → result V) (field : A → list V)
    (raw : option string) (r r' : A) :
  field r = field r' → restricts conv field raw r → restricts conv field raw r'.
Proof. unfold restricts. intros <-. done. Qed.

(** One call of [end_session]: it succeeds on the session the caller was let
    through to, stores the session with [end_time = now], and the session
    stays within the caller's reach. *)
Lemma end_session_step (now : datetime) (s : Store) (request : Request) (u : UserId)
    (pk : string) (session : Session.t) :
  SessionViewSet_get_object s request u pk = Ok session →
  let session' := set_end_time session (Some now) in
  end_session now s request u pk
  = Ok (Response200 "session ended", Session_save s session')
  ∧ SessionViewSet_get_object (Session_save s session') request u pk = Ok session'
  ∧ session' ∈ session_by_id (Session_save s session') (Session.id session).
Proof.
  intros Hobj session'. unfold end_session. rewrite Hobj. simpl.
  split; [done|]. unfold SessionViewSet_get_object in *.
  destruct (get_object_queryset_Ok _ _ _ _ _ _ _ _ Hobj) as [rows Hrows].
  rewrite Hrows in Hobj. apply get_object_found in Hobj as (Hin & Hk & Hs & Hperm).
  destruct (SessionViewSet_get_queryset_answers s request u) as [_ Hsess].
  destruct (Hsess rows Hrows) as [Hconv [_ Hspec]].
  apply Hspec in Hin as (Hin & (p & Hp & Hsee) & Hf).
  apply Forall_cons in Hf as [Hf1 Hf]. apply Forall_cons in Hf as [Hf2 _].
  destruct (SessionViewSet_get_queryset_answers (Session_save s session') request u)
    as [Htot Hsess'].
  destruct (Htot Hconv) as [rows' Hrows']. rewrite Hrows'.
  destruct (Hsess' rows' Hrows') as [_ [_ Hspec']].
  assert (session' ∈ session_by_id (Session_save s session') (Session.id session))
    as Hmem by by apply (Session_save_elem_of s session' session).
  split; [|done]. apply get_object_Ok. exists (Session.id session).
  split_and!; [done| |exact Hperm].
  apply head_all_equal.
  - apply list_elem_of_filter. split; [done|]. apply elem_of_filter_queryset. split.
    + apply Hspec'. split_and!.
      * unfold session_by_id in Hmem. by apply list_elem_of_filter in Hmem as [_ ?].
      * by exists p.
      * repeat (apply Forall_cons; split); [| |by apply Forall_nil].
        -- by apply (restricts_ext _ _ _ session).
        -- by apply (restricts_ext _ _ _ session).
    + intros fields [= <-]. exact (Hs _ eq_refl).
  - intros y [Hy Hiny]%list_elem_of_filter.
    apply elem_of_filter_queryset in Hiny as [Hiny _].
    apply Hspec' in Hiny as (Hiny & _). apply (Session_save_by_id s).
    unfold session_by_id. apply list_elem_of_filter. split; [|done].
    simpl. congruence.
Qed.

(** C8.  The duration of a session is undefined, not zero, while its end
    time is unset.  [end_session] on a session the caller was let through to
    succeeds and stores the current time as its end time, after which the
    duration is the number of seconds from its start to that end; calling
    it again succeeds as well and overwrites the end time with the new
    current time. *)
Theorem end_session_sets_duration (now now' : datetime) (s : Store)
    (request : Request) (u : UserId) (pk : string) (session : Session.t) :
  (Session.end_time session = None →
     Session.duration session = None ∧ Session.duration session ≠ Some 0%Q)
  ∧ (SessionViewSet_get_object s request u pk = Ok session →
     let ended t x :=
       Session.end_time x = Some t
       ∧ Session.duration x = Some ((t - Session.start_time session) # 1000000)%Q in
     ∃ s1 s2,
       end_session now s request u pk = Ok (Response200 "session ended", s1)
       ∧ (∃ x, x ∈ session_by_id s1 (Session.id session))
       ∧ (∀ x, x ∈ session_by_id s1 (Session.id session) → ended now x)
       ∧ end_session now' s1 request u pk = Ok (Response200 "session ended", s2)
       ∧ (∃ x, x ∈ session_by_id s2 (Session.id session))
       ∧ (∀ x, x ∈ session_by_id s2 (Session.id session) → ended now' x)).
Proof.
  split.
  - unfold Session.duration. by intros ->.
  - intros Hobj ended.
    destruct (end_session_step now s request u pk session Hobj) as (E1 & Hobj1 & Hm1).
    destruct (end_session_step now' _ request u pk _ Hobj1) as (E2 & _ & Hm2).
    eexists _, _. split_and!; [exact E1|by eexists| |exact E2|by eexists|].
    + intros x Hx.
      apply (Session_save_by_id s (set_end_time session (Some now))) in Hx as ->.
      by split.
    + intros x Hx.
      apply (Session_save_by_id _ (set_end_time (set_end_time session (Some now))
                                     (Some now'))) in Hx as ->.
      by split.
Qed.

(** ** Project statistics *)

Lemma project_stats_representable (now : datetime) (s : Store) (project : Project.t)
    (days : Z) :
  cutoff_representable now days →
  project_stats now s project days
  = Ok (aggregate s project (now - days * usec_per_day)).
Proof.
  intros [Hd Hc]. unfold project_stats, timedelta_days, datetime_sub.
  rewrite bool_decide_eq_true_2 by done. simpl.
  by rewrite bool_decide_eq_true_2 by done.
Qed.

Lemma project_stats_overflow (now : datetime) (s : Store) (project : Project.t)
    (days : Z) :
  ¬ cutoff_representable now days →
  project_stats now s project days = Err OverflowError.
Proof.
  intros Hn. unfold project_stats, timedelta_days, datetime_sub.
  case_bool_decide as Hd; [|done]. simpl.
  case_bool_decide as Hc; [|done]. destruct Hn. by split.
Qed.

Lemma project_stats_Ok (now : datetime) (s : Store) (project : Project.t)
    (days : Z) (st : Stats) :
  project_stats now s project days = Ok st →
  cutoff_representable now days
  ∧ st = aggregate s project (now - days * usec_per_day).
Proof.
  intros H. destruct (decide (cutoff_representable now days)) as [Hc|Hc].
  - rewrite project_stats_representable in H by done. by injection H as <-.
  - by rewrite project_stats_overflow in H.
Qed.

Lemma event_by_id_unique (s : Store) (k : UUID) :
  pk_unique Event.id (events s) →
  event_by_id s k = [] ∨ ∃ e, e ∈ events s ∧ Event.id e = k ∧ event_by_id s k = [e].
Proof.
  intros Hwf. unfold event_by_id.
  destruct (filter (λ e, Event.id e = k) (events s)) as [|e l] eqn:E; [by left|].
  right. exists e.
  assert (e ∈ filter (λ e, Event.id e = k) (events s)) as Hin
    by (rewrite E; apply list_elem_of_here).
  apply list_elem_of_filter in Hin as [Hid Hin]. split_and!; [done..|].
  rewrite <- E, <- Hid. by apply filter_pk_unique.
Qed.

(** With unique event keys the join with the event table selects rows, each
    once. *)
Lemma in_window_filter {A} (s : Store) (event_of : A → UUID) (project : Project.t)
    (start_date : datetime) (rows : list A) :
  pk_unique Event.id (events s) →
  in_window s event_of project start_date rows
  = filter (λ r, event_in_window s project start_date (event_of r)) rows.
Proof.
  intros Hwf. unfold in_window. induction rows as [|r rows IH]; [done|].
  rewrite bind_cons, IH. clear IH.
  destruct (event_by_id_unique s (event_of r) Hwf) as [E|(e & Hin & Hid & E)];
    rewrite E; simpl.
  - rewrite filter_cons_False; [done|]. unfold event_in_window.
    rewrite Exists_exists. intros (e & He & Hk & _).
    assert (e ∈ event_by_id s (event_of r)) as Hc
      by by apply list_elem_of_filter.
    rewrite E in Hc. by apply elem_of_nil in Hc.
  - case_bool_decide as Hc; simpl.
    + rewrite filter_cons_True; [done|]. unfold event_in_window.
      apply Exists_exists. by exists e.
    + rewrite filter_cons_False; [done|]. unfold event_in_window.
      rewrite Exists_exists. intros (e' & He' & Hk & Hc').
      assert (e' = e) as ->; [|done].
      apply (pk_unique_eq Event.id (events s)); [done..|congruence].
Qed.

(** C5, as the code has it.  Whenever [now - days] is a datetime the code
    can compute, [stats] returns, and it aggregates exactly the events of the
    project timestamped at or after [now - days], the prompts, responses and
    feedback whose event is such an event, and the sessions of the project
    started at or after [now - days].  The window has no upper end: an event
    of the project timestamped after [now] is counted; with [days = 0] the
    bound is [now] itself, so everything timestamped before [now] is
    left out. *)
Theorem stats_window (now : datetime) (s : Store) (request : Request) (u : UserId)
    (pk : string) (project : Project.t) (days : Z) :
  pk_unique Event.id (events s) →
  ProjectViewSet_get_object s request u pk = Ok project →
  stats_days request = Ok days →
  cutoff_representable now days →
  let start := now - days * usec_per_day in
  let recent eid := event_in_window s project start eid in
  let prompts := filter (λ r, recent (UserPrompt.event r)) (user_prompts s) in
  let responses := filter (λ r, recent (AIResponse.event r)) (ai_responses s) in
  let feedback := filter (λ r, recent (Feedback.event r)) (feedback_rows s) in
  ∃ st, stats now s request u pk = Ok st
    ∧ total_events st
      = length (filter (λ e, Event.project e = Project.id project
                             ∧ start ≤ Event.timestamp e) (events s))
    ∧ total_sessions st
      = length (filter (λ x, Session.project x = Project.id project
                             ∧ start ≤ Session.start_time x) (sessions s))
    ∧ total_prompts st = length prompts
    ∧ total_responses st = length responses
    ∧ total_feedback st = length feedback
    ∧ avg_prompt_tokens st
      = or_0 (Avg ((λ r, Some (inject_Z (UserPrompt.tokens r))) <$> prompts))
    ∧ avg_response_tokens st
      = or_0 (Avg ((λ r, Some (inject_Z (AIResponse.tokens r))) <$> responses))
    ∧ avg_latency st = or_0 (Avg ((λ r, Some (AIResponse.latency r)) <$> responses))
    ∧ avg_rating st = or_0 (Avg ((λ r, inject_Z <$> Feedback.rating r) <$> feedback))
    ∧ (∀ e, e ∈ events s → Event.project e = Project.id project →
            0 ≤ days → now < Event.timestamp e → (0 < total_events st)%nat)
    ∧ (days = 0 → ∀ e, e ∈ events s → Event.timestamp e < now →
            ¬ recent (Event.id e)
            ∧ e ∉ filter (λ e, Event.project e = Project.id project
                               ∧ start ≤ Event.timestamp e) (events s)).
Proof.
  intros Hwf Hobj Hdays Hrep start recent prompts responses feedback.
  unfold stats. rewrite Hobj. simpl. rewrite Hdays. simpl.
  rewrite project_stats_representable by done. eexists. split; [done|].
  unfold aggregate. simpl. rewrite !in_window_filter by done.
  split_and!; try done.
  - intros e Hin Hp Hd Hts.
    assert (e ∈ filter (λ e, Event.project e = Project.id project
                             ∧ now - days * usec_per_day ≤ Event.timestamp e)
                (events s)) as Hf.
    { apply list_elem_of_filter. split; [|done]. split; [done|].
      unfold usec_per_day. lia. }
    destruct (filter _ (events s)); [by apply elem_of_nil in Hf|simpl; lia].
  - intros -> e Hin Hts. subst start recent. split.
    + unfold event_in_window. rewrite Exists_exists.
      intros (e' & Hin' & Hid & _ & Hts').
      assert (e' = e) as -> by by apply (pk_unique_eq Event.id (events s)).
      lia.
    + rewrite list_elem_of_filter. intros [[_ Hts'] _]. lia.
Qed.

Lemma omap_ratings (l : list Feedback.t) :
  omap id ((λ r, inject_Z <$> Feedback.rating r) <$> l)
  = inject_Z <$> omap Feedback.rating l.
Proof.
  induction l as [|r l IH]; [done|]. rewrite fmap_cons. cbn [omap list_omap].
  rewrite IH. by destruct (Feedback.rating r).
Qed.

Lemma omap_Some {A B} (f : A → B) (l : list A) :
  omap id ((λ r, Some (f r)) <$> l) = f <$> l.
Proof.
  induction l as [|r l IH]; [done|]. rewrite !fmap_cons. cbn [omap list_omap].
  by rewrite IH.
Qed.

Lemma foldr_Qplus_inject_Z (l : list Z) :
  Qeq (foldr Qplus 0%Q (inject_Z <$> l)) (inject_Z (sum_Z l)).
Proof.
  induction l as [|z l IH]; simpl; [reflexivity|].
  rewrite IH. unfold sum_Z. simpl. by rewrite inject_Z_plus.
Qed.

Lemma or_0_Some (q : Q) : Qeq (or_0 (Some q)) q.
Proof.
  unfold or_0. destruct (Qeq_bool q 0) eqn:E; [|reflexivity].
  apply Qeq_bool_iff in E. by rewrite E.
Qed.

Lemma Avg_nil (values : list (option Q)) : omap id values = [] → Avg values = None.
Proof. unfold Avg. by intros ->. Qed.

Lemma length_null_and_rated (l : list Feedback.t) :
  length l
  = (length (filter (λ r, Feedback.rating r = None) l)
     + length (omap Feedback.rating l))%nat.
Proof.
  induction l as [|r l IH]; [done|]. cbn [omap list_omap length].
  destruct (Feedback.rating r) eqn:E.
  - rewrite filter_cons_False by by rewrite E. cbn [length]. lia.
  - rewrite filter_cons_True by done. cbn [length]. lia.
Qed.


Lemma filter_filter_implied {A} (P Q : A → Prop) `{∀ x, Decision (P x)}
    `{∀ x, Decision (Q x)} (l : list A) :
  (∀ x, P x → Q x) → filter P (filter Q l) = filter P l.
Proof.
  intros HPQ. induction l as [|a l IH]; [done|].
  destruct (decide (Q a)) as [Hq|Hq].
  - rewrite (filter_cons_True Q) by done.
    destruct (decide (P a)) as [Hp|Hp].
    + rewrite !(filter_cons_True P) by done. by rewrite IH.
    + rewrite !(filter_cons_False P) by done. by rewrite IH.
  - rewrite (filter_cons_False Q) by done.
    rewrite (filter_cons_False P); [done|]. intros Hp. by apply Hq, HPQ.
Qed.

Lemma bind_filter_implied {A B} (P Q C : A → Prop) `{∀ x, Decision (P x)}
    `{∀ x, Decision (Q x)} `{∀ x, Decision (C x)} (b : B) (l : list A) :
  (∀ x, C x → Q x) →
  (x ← filter P (filter Q l); if bool_decide (C x) then [b] else [])
  = (x ← filter P l; if bool_decide (C x) then [b] else []).
Proof.
  intros HCQ. induction l as [|a l IH]; [done|].
  destruct (decide (Q a)) as [Hq|Hq].
  - rewrite (filter_cons_True Q) by done.
    destruct (decide (P a)) as [Hp|Hp].
    + rewrite !(filter_cons_True P) by done. rewrite !bind_cons. by rewrite IH.
    + rewrite !(filter_cons_False P) by done. by rewrite IH.
  - rewrite (filter_cons_False Q) by done. rewrite IH.
    destruct (decide (P a)) as [Hp|Hp].
    + rewrite (filter_cons_True P) by done. rewrite bind_cons.
      rewrite bool_decide_eq_false_2; [done|]. intros Hc. by apply Hq, HCQ.
    + by rewrite (filter_cons_False P) by done.
Qed.

Lemma in_window_without_past {A} (now : datetime) (s : Store) (event_of : A → UUID)
    (project : Project.t) (start_date : datetime) (rows : list A) :
  now < start_date →
  in_window (without_past now s) event_of project start_date rows
  = in_window s event_of project start_date rows.
Proof.
  intros Hlt. unfold in_window. induction rows as [|r rows IH]; [done|].
  rewrite !bind_cons, IH. f_equal. unfold event_by_id. simpl.
  apply (bind_filter_implied _ (λ e, now < Event.timestamp e)
           (λ e, Event.project e = Project.id project
                 ∧ start_date ≤ Event.timestamp e)).
  intros e [_ ?]. lia.
Qed.

(** With a cutoff after [now], what is timestamped at or before [now] has no
    part in any count or average. *)
Lemma aggregate_without_past (now : datetime) (s : Store) (project : Project.t)
    (start_date : datetime) :
  now < start_date →
  aggregate (without_past now s) project start_date = aggregate s project start_date.
Proof.
  intros Hlt. unfold aggregate. rewrite !in_window_without_past by done.
  assert (filter (λ e, Event.project e = Project.id project
                       ∧ start_date ≤ Event.timestamp e)
            (events (without_past now s))
          = filter (λ e, Event.project e = Project.id project
                         ∧ start_date ≤ Event.timestamp e) (events s)) as ->.
  { simpl. apply filter_filter_implied. intros e [_ ?]. lia. }
  assert (filter (λ x, Session.project x = Project.id project
                       ∧ start_date ≤ Session.start_time x)
            (sessions (without_past now s))
          = filter (λ x, Session.project x = Project.id project
                         ∧ start_date ≤ Session.start_time x) (sessions s)) as ->.
  { simpl. apply filter_filter_implied. intros e [_ ?]. lia. }
  done.
Qed.

(** C10, as the code has it.  [stats] takes [days] through [int] with no
    range check.  A text that [int] rejects ends the request in an uncaught
    [ValueError].  A negative [days] for which [now - days] is a datetime the
    code can compute is accepted: the cutoff lies after [now], so whatever is
    timestamped at or before [now] has no part in any count or average.  A
    [days] outside that range ends in an uncaught [OverflowError]. *)
Theorem stats_days_unchecked (now : datetime) (s : Store) (request : Request)
    (u : UserId) (pk : string) (project : Project.t) (v : string) :
  ProjectViewSet_get_object s request u pk = Ok project →
  query_params request !! "days" = Some v →
  (py_int v = None →
     stats now s request u pk = Err ValueError ∧ handled ValueError = false)
  ∧ (∀ days, py_int v = Some days → ¬ cutoff_representable now days →
       stats now s request u pk = Err OverflowError
       ∧ handled OverflowError = false)
  ∧ (∀ days, py_int v = Some days → days < 0 → cutoff_representable now days →
       now < now - days * usec_per_day
       ∧ ∃ st, stats now s request u pk = Ok st
               ∧ st = aggregate s project (now - days * usec_per_day)
               ∧ st = aggregate (without_past now s) project
                        (now - days * usec_per_day)).
Proof.
  intros Hobj Hv. unfold stats, stats_days, integer_field. rewrite Hobj, Hv. simpl.
  split_and!.
  - by intros ->.
  - intros days -> Hn. simpl. by rewrite project_stats_overflow.
  - intros days -> Hneg Hrep. simpl.
    assert (now < now - days * usec_per_day) as Hlt by (unfold usec_per_day; lia).
    split; [done|]. rewrite project_stats_representable by done.
    eexists. split_and!; [done..|]. by rewrite aggregate_without_past.
Qed.

(** ** Nested creation *)

Ltac bools_to_props :=
  repeat match goal with
         | H : _ && _ = true |- _ => apply andb_prop in H as [? ?]
         end;
  repeat match goal with
         | H : bool_decide _ = true |- _ => apply bool_decide_eq_true in H
         end.

Ltac db_unfold :=
  unfold create, if_truthy, Event_user_prompt, Event_ai_response,
    Event_objects_create, UserPrompt_objects_create, AIResponse_objects_create,
    Feedback_objects_create, user_prompt_truthy, ai_response_truthy in *;
  cbv [mbind mret DB_bind DB_ret db_bind db_get db_put db_ret db_raise] in *.


(** C2, where the code departs from it.  A payload that carries a feedback
    document and no response document never gets created: [create] hands
    [response=None] to the Feedback insert, the column [Feedback.response] is
    declared without [null=True], and the insert raises. *)
Theorem create_feedback_without_response (now : datetime) (ids : NewIds)
    (validated_data : EventData) (s : Store) :
  ed_ai_response validated_data = None →
  feedback_truthy (ed_feedback validated_data) = true →
  ∃ s', create now ids validated_data s = (s', Err IntegrityError).
Proof.
  intros Har Hfb. destruct validated_data as [pj se ty ts up ar fb].
  cbn [ed_ai_response ed_feedback] in *. subst ar. destruct fb as [f|]; [|done].
  db_unfold.
  cbn [ed_project ed_session ed_event_type ed_timestamp ed_user_prompt
       ed_ai_response ed_feedback].
  rewrite Hfb.
  repeat (case_match; simplify_eq/=); by eexists.
Qed.

Lemma head_filter_snoc {A} (f : A → UUID) (l : list A) (x : A) (k : UUID) :
  k ∉ (f <$> l) → f x = k →
  head (filter (λ r, f r = k) (l ++ [x])%list) = Some x.
Proof.
  intros Hk Hx. rewrite filter_app.
  assert (filter (λ r, f r = k) l = []) as ->.
  { apply elem_of_nil_inv. intros y [Hy Hin]%list_elem_of_filter.
    apply Hk. rewrite <- Hy. by apply list_elem_of_fmap_2. }
  by rewrite filter_cons_True.
Qed.

Ltac resolve_heads :=
  repeat match goal with
         | H : _ ∧ _ |- _ => destruct H
         end;
  repeat match goal with
         | H : head (filter (λ r, ?f r = ?k) (?l ++ [?x])%list) = Some ?y,
           Hk : ?k ∉ (?f <$> ?l) |- _ =>
             rewrite (head_filter_snoc f l x k Hk eq_refl) in H; simplify_eq/=
         end.

(** What a successful [create] leaves behind: the Event row, then the rows
    of the documents the payload carried, in the order Event, UserPrompt,
    AIResponse, Feedback; the response answers the prompt of the same call
    when there is one and no prompt otherwise; the feedback rates the
    response of the same call. *)
Lemma create_rows_and_links (now : datetime) (ids : NewIds)
    (validated_data : EventData) (s s' : Store) (event : Event.t) :
  create now ids validated_data s = (s', Ok event) →
  event = new_event now ids validated_data
  ∧ events s' = (events s ++ [event])%list
  ∧ user_prompts s'
    = (user_prompts s ++
       match ed_user_prompt validated_data with
       | Some d =>
           [UserPrompt.mk (user_prompt_id ids) (event_id ids) (up_prompt_text d)
              (default "" (up_model_name d)) (default 0 (up_tokens d))]
       | None => []
       end)%list
  ∧ ai_responses s'
    = (ai_responses s ++
       match ed_ai_response validated_data with
       | Some d =>
           [AIResponse.mk (ai_response_id ids) (event_id ids)
              (match ed_user_prompt validated_data with
               | Some _ => Some (user_prompt_id ids)
               | None => None
               end)
              (ar_response_text d) (ar_model_name d) (default 0 (ar_tokens d))
              (default 0%Q (ar_latency d))]
       | None => []
       end)%list
  ∧ feedback_rows s'
    = (feedback_rows s ++
       match ed_feedback validated_data with
       | Some d =>
           if feedback_truthy (Some d) then
             [Feedback.mk (feedback_id ids) (event_id ids) (ai_response_id ids)
                (default None (fb_rating d)) (default "" (fb_comment d))
                (default [] (fb_tags d))]
           else []
       | None => []
       end)%list
  ∧ (feedback_truthy (ed_feedback validated_data) = true →
     is_Some (ed_ai_response validated_data)).
Proof.
  unfold new_event. intros Hc. db_unfold.
  destruct validated_data as [pj se ty ts up ar fb]. simpl in *.
  repeat (case_match; simplify_eq/=).
  all: bools_to_props; resolve_heads.
  all: rewrite ?app_nil_r; split_and!; try done; by eexists.
Qed.
(** * Further properties of the code *)

(** ** Reaching a project *)

(** X1.  [ProjectViewSet.get_queryset] lists, each once, exactly the stored
    projects the identity owns or is a member of. *)
Theorem project_list_exact (s : Store) (u : UserId) :
  NoDup (ProjectViewSet_get_queryset s u)
  ∧ ∀ p, p ∈ ProjectViewSet_get_queryset s u ↔ p ∈ projects s ∧ can_see u p.
Proof.
  split; [apply NoDup_access_filter|]. apply elem_of_project_queryset.
Qed.

(** The project is stored, within the identity's reach and kept by the
    search. *)
Lemma elem_of_project_candidates (s : Store) (request : Request) (u : UserId)
    (p : Project.t) :
  p ∈ filter_queryset (Some ProjectViewSet_search_fields) request
        (ProjectViewSet_get_queryset s u) ↔
  p ∈ projects s ∧ can_see u p
  ∧ search_keeps request [Project.name p; Project.description p].
Proof.
  rewrite elem_of_filter_queryset, elem_of_project_queryset. split.
  - intros [[? ?] Hs]. split_and!; [done..|]. by apply (Hs _ eq_refl).
  - intros (? & ? & Hs). split; [done|]. by intros ? [= <-].
Qed.

Lemma project_lookup_Some (s : Store) (request : Request) (u : UserId)
    (p : Project.t) :
  pk_unique Project.id (projects s) →
  p ∈ projects s → can_see u p →
  search_keeps request [Project.name p; Project.description p] →
  head (filter (λ r, Project.id r = Project.id p)
          (filter_queryset (Some ProjectViewSet_search_fields) request
             (ProjectViewSet_get_queryset s u))) = Some p.
Proof.
  intros Hwf Hin Hsee Hs. apply head_all_equal.
  - apply list_elem_of_filter. split; [done|]. by apply elem_of_project_candidates.
  - intros y [Hid (Hy & _)%elem_of_project_candidates]%list_elem_of_filter.
    by apply (pk_unique_eq Project.id (projects s)).
Qed.

Lemma project_lookup_None (s : Store) (request : Request) (u : UserId) (k : UUID) :
  head (filter (λ r, Project.id r = k)
          (filter_queryset (Some ProjectViewSet_search_fields) request
             (ProjectViewSet_get_queryset s u))) = None ↔
  ∀ p, Project.id p = k →
       ¬ (p ∈ projects s ∧ can_see u p
          ∧ search_keeps request [Project.name p; Project.description p]).
Proof.
  rewrite head_None. split.
  - intros Hnil p Hid Hp%elem_of_project_candidates.
    assert (p ∈ filter (λ r, Project.id r = k)
                  (filter_queryset (Some ProjectViewSet_search_fields) request
                     (ProjectViewSet_get_queryset s u))) as Hc
      by by apply list_elem_of_filter.
    rewrite Hnil in Hc. by apply elem_of_nil in Hc.
  - intros Hno. apply elem_of_nil_inv. intros p [Hid Hp]%list_elem_of_filter.
    apply (Hno p Hid). by apply elem_of_project_candidates.
Qed.

Lemma project_get_object_Ok_iff (s : Store) (request : Request) (u : UserId)
    (pk : string) (p : Project.t) :
  pk_unique Project.id (projects s) →
  (∀ p, p ∈ projects s → Project.owner p ∈ users s) →
  ProjectViewSet_get_object s request u pk = Ok p ↔
  (p ∈ projects s ∧ can_see u p
   ∧ search_keeps request [Project.name p; Project.description p])
  ∧ to_uuid pk = Some (Project.id p)
  ∧ (method request ∈ SAFE_METHODS ∨ user request = Some (Project.owner p)).
Proof.
  intros Hwf Hown. split.
  - intros H. destruct (project_object _ _ _ _ _ H) as (? & Hin & ? & Hp & ?).
    apply has_object_permission_project in Hp. solver.
  - intros ((Hin & ? & ?) & ? & Hp). apply project_object_intro; try done.
    apply has_object_permission_project. specialize (Hown p Hin). solver.
Qed.

Lemma project_get_object_Http404 (s : Store) (request : Request) (u : UserId)
    (pk : string) :
  ProjectViewSet_get_object s request u pk = Err Http404 ↔
  to_uuid pk = None
  ∨ ∃ k, to_uuid pk = Some k
         ∧ ∀ p, Project.id p = k →
                ¬ (p ∈ projects s ∧ can_see u p
                   ∧ search_keeps request [Project.name p; Project.description p]).
Proof.
  unfold ProjectViewSet_get_object, get_object. cbn [mbind result_bind].
  destruct (to_uuid pk) as [k|] eqn:Hk; [|solver].
  destruct (head (filter (λ r, Project.id r = k) _)) as [p|] eqn:Hh.
  - split.
    + unfold check_object_permissions.
      destruct (has_object_permission s request (OProject p)) as [[]|e] eqn:Hp;
        simpl; try done.
      intros [= ->]. unfold has_object_permission in Hp. cbn [attr_owner] in Hp.
      unfold fetch_user in Hp. repeat case_bool_decide; simplify_eq/=.
    + intros [?|(k' & [= <-] & Hno)]; [done|].
      apply head_elem_of_filter in Hh as [Hid Hin%elem_of_project_candidates].
      by destruct (Hno p).
  - pose proof (proj1 (project_lookup_None s request u k) Hh) as Hno.
    split; [|done]. intros _. right. by exists k.
Qed.

Lemma project_get_object_PermissionDenied (s : Store) (request : Request)
    (u : UserId) (pk : string) :
  pk_unique Project.id (projects s) →
  (∀ p, p ∈ projects s → Project.owner p ∈ users s) →
  ProjectViewSet_get_object s request u pk = Err PermissionDenied ↔
  ∃ p, (p ∈ projects s ∧ can_see u p
        ∧ search_keeps request [Project.name p; Project.description p])
       ∧ to_uuid pk = Some (Project.id p)
       ∧ method request ∉ SAFE_METHODS
       ∧ user request ≠ Some (Project.owner p).
Proof.
  intros Hwf Hown.
  assert (∀ p, p ∈ projects s →
            has_object_permission s request (OProject p)
            = Ok (bool_decide (method request ∈ SAFE_METHODS
                               ∨ user request = Some (Project.owner p)))) as Hperm.
  { intros p Hin. unfold has_object_permission. cbn [attr_owner]. unfold fetch_user.
    rewrite (bool_decide_eq_true_2 _ (Hown p Hin)). simpl.
    case_bool_decide as Hm; [by rewrite bool_decide_eq_true_2 by by left|].
    f_equal. apply bool_decide_ext. solver. }
  unfold ProjectViewSet_get_object, get_object. cbn [mbind result_bind]. split.
  - destruct (to_uuid pk) as [k|] eqn:Hk; [|done].
    destruct (head (filter (λ r, Project.id r = k) _)) as [p|] eqn:Hh; [|done].
    apply head_elem_of_filter in Hh as [<- Hin%elem_of_project_candidates].
    unfold check_object_permissions. rewrite Hperm by taut. simpl.
    case_bool_decide as Hc; [done|]. intros _. exists p. split_and!; taut.
  - intros (p & (Hin & Hsee & Hs) & Hk & Hm & Hu). rewrite Hk.
    rewrite project_lookup_Some by done.
    unfold check_object_permissions. rewrite Hperm by done. simpl.
    rewrite bool_decide_eq_false_2; [done|]. taut.
Qed.

(** X2.  With unique project keys and stored owners, [get_object] on a
    project has three outcomes.  A project is a candidate when it is stored,
    the caller owns it or is a member of it, and the [search] text, if any,
    keeps it.  The outcome is [Http404] when the key does not convert or no
    candidate has it, so that a project the caller cannot see, or the search
    leaves out, is answered like one that does not exist;
    [PermissionDenied] when a candidate has the key, the method is a write
    and the caller is not the owner; the project itself otherwise. *)
Theorem project_get_object_outcomes (s : Store) (request : Request) (u : UserId)
    (pk : string) :
  pk_unique Project.id (projects s) →
  (∀ p, p ∈ projects s → Project.owner p ∈ users s) →
  let candidate p :=
    p ∈ projects s ∧ can_see u p
    ∧ search_keeps request [Project.name p; Project.description p] in
  (ProjectViewSet_get_object s request u pk = Err Http404 ↔
     to_uuid pk = None
     ∨ ∃ k, to_uuid pk = Some k ∧ ∀ p, Project.id p = k → ¬ candidate p)
  ∧ (ProjectViewSet_get_object s request u pk = Err PermissionDenied ↔
       ∃ p, candidate p ∧ to_uuid pk = Some (Project.id p)
            ∧ method request ∉ SAFE_METHODS
            ∧ user request ≠ Some (Project.owner p))
  ∧ (∀ p, ProjectViewSet_get_object s request u pk = Ok p ↔
       candidate p ∧ to_uuid pk = Some (Project.id p)
       ∧ (method request ∈ SAFE_METHODS ∨ user request = Some (Project.owner p))).
Proof.
  intros Hwf Hown candidate. split_and!.
  - apply project_get_object_Http404.
  - by apply project_get_object_PermissionDenied.
  - intros p. by apply project_get_object_Ok_iff.
Qed.

(** ** Membership, continued *)

Lemma members_remove_add (s : Store) (project project' : Project.t) (k : UserId) :
  pk_unique Project.id (projects s) → project ∈ projects s →
  Project.id project' = Project.id project →
  k ∉ Project.members project →
  members_remove (members_add s project k) project' k = s.
Proof.
  intros Hwf Hin Hid Hk. unfold members_remove, members_add. simpl.
  destruct s as [us ps ss es ups ars fbs ts ds ws]. unfold with_projects.
  simpl in *. f_equal. rewrite <- list_fmap_compose.
  apply fmap_id_on. intros p Hp. simpl. rewrite Hid.
  destruct (bool_decide (Project.id p = Project.id project)) eqn:E; simpl; rewrite E;
    [|done].
  apply bool_decide_eq_true in E.
  assert (p = project) as -> by by apply (pk_unique_eq Project.id ps).
  destruct project as [i n d o m]. unfold set_members. simpl in *. f_equal.
  (aside; set_solver).
Qed.

(** X3.  Only the owner changes the membership of a project.  With unique
    project keys, stored owners and a method that is not safe: a caller who
    sees the project without owning it, on a request whose [search] text, if
    any, keeps the project, is refused with [PermissionDenied] by both
    actions; and whenever [add_member] or [remove_member] returns a
    response, the caller is the owner of the project addressed. *)
Theorem membership_owner_only (s : Store) (request : Request) (u : UserId)
    (pk : string) :
  pk_unique Project.id (projects s) →
  (∀ p, p ∈ projects s → Project.owner p ∈ users s) →
  method request ∉ SAFE_METHODS →
  (∀ p, p ∈ projects s → to_uuid pk = Some (Project.id p) → can_see u p →
        search_keeps request [Project.name p; Project.description p] →
        user request ≠ Some (Project.owner p) →
        add_member s request u pk = Err PermissionDenied
        ∧ remove_member s request u pk = Err PermissionDenied)
  ∧ (∀ r, add_member s request u pk = Ok r ∨ remove_member s request u pk = Ok r →
        ∃ p, p ∈ projects s ∧ to_uuid pk = Some (Project.id p)
             ∧ user request = Some (Project.owner p)).
Proof.
  intros Hwf Hown Hm. split.
  - intros p Hin Hk Hsee Hs Hu.
    assert (ProjectViewSet_get_object s request u pk = Err PermissionDenied) as E.
    { apply project_get_object_PermissionDenied; [done..|]. by exists p. }
    unfold add_member, remove_member. by rewrite E.
  - intros r H. unfold add_member, remove_member in H.
    destruct (ProjectViewSet_get_object s request u pk) as [p|e] eqn:E;
      [|by destruct H].
    apply project_object in E as (Hk & Hin & _ & Hp & _).
    apply has_object_permission_project in Hp as [Hs|[_ Hu]]; [done|].
    by exists p.
Qed.

(** X4.  [add_member] and [remove_member] change nothing but the member set
    of the project addressed: users and all other tables stay as they are,
    and every project keeps its key, name, description and owner, so the
    owner keeps the project in reach even after being removed from its
    members. *)
Theorem membership_changes_are_local (s s' : Store) (request : Request) (u : UserId)
    (pk : string) (resp : Response) :
  add_member s request u pk = Ok (resp, s')
  ∨ remove_member s request u pk = Ok (resp, s') →
  users s' = users s ∧ sessions s' = sessions s ∧ events s' = events s
  ∧ user_prompts s' = user_prompts s ∧ ai_responses s' = ai_responses s
  ∧ feedback_rows s' = feedback_rows s ∧ tags s' = tags s
  ∧ dashboards s' = dashboards s ∧ widgets s' = widgets s
  ∧ (λ p, (Project.id p, Project.name p, Project.description p, Project.owner p))
      <$> projects s'
    = (λ p, (Project.id p, Project.name p, Project.description p, Project.owner p))
      <$> projects s
  ∧ (∀ k, to_uuid pk ≠ Some k → project_by_id s' k = project_by_id s k)
  ∧ (∀ p, p ∈ projects s' → can_see (Project.owner p) p).
Proof.
  intros H.
  assert (∃ project f, ProjectViewSet_get_object s request u pk = Ok project
            ∧ (s' = s ∨ s' = with_projects s
                 ((λ p, if bool_decide (Project.id p = Project.id project)
                        then set_members p (f p) else p) <$> projects s)))
    as (project & f & Hobj & Hs').
  { unfold add_member, remove_member in H.
    destruct (ProjectViewSet_get_object s request u pk) as [project|e] eqn:E;
      [|by destruct H]. simpl in H.
    destruct (data_get request "user_id") as [user_id|e]; [|by destruct H].
    simpl in H. destruct (User_objects_get s user_id) as [k| |e];
      [| |by destruct H].
    - destruct H as [[= <- <-]|[= <- <-]].
      + exists project, (λ p, Project.members p ∪ {[k]}). split; [done|by right].
      + exists project, (λ p, Project.members p ∖ {[k]}). split; [done|by right].
    - exists project, (λ p, Project.members p). split; [done|left].
      by destruct H as [[= <- <-]|[= <- <-]]. }
  apply project_object in Hobj as (Hk & _).
  assert (∀ p, p ∈ projects s' → can_see (Project.owner p) p) as Hsee
    by (intros p _; by left).
  destruct Hs' as [->| ->]; [done|]. simpl. split_and!; try done.
  - rewrite <- list_fmap_compose. apply list_fmap_ext. intros i p _. simpl.
    by case_bool_decide.
  - intros k Hne. unfold project_by_id. simpl. clear H Hsee.
    induction (projects s) as [|a l IH]; [done|]. rewrite fmap_cons.
    destruct (decide (Project.id a = k)) as [Ha|Ha].
    + rewrite bool_decide_eq_false_2 by congruence.
      rewrite !filter_cons_True by done. by rewrite IH.
    + rewrite (filter_cons_False _ a) by done. rewrite filter_cons_False; [done|].
      by case_bool_decide.
Qed.

(** X5.  Adding a user who was not a member and then removing the same user
    gives back the store as it was. *)
Theorem add_then_remove_member (s s1 : Store) (request : Request) (u : UserId)
    (pk : string) (project : Project.t) (k : UserId) :
  pk_unique Project.id (projects s) →
  ProjectViewSet_get_object s request u pk = Ok project →
  user_id_int (data request !! "user_id") k → k ∈ users s →
  k ∉ Project.members project →
  add_member s request u pk = Ok (Response200 "user added", s1) →
  remove_member s1 request u pk = Ok (Response200 "user removed", s).
Proof.
  intros Hwf Hobj Hint Hku Hnm Hadd.
  pose proof (project_object _ _ _ _ _ Hobj) as (Hk & Hin & Hsee & Hperm & Hsearch).
  apply user_id_int_int_of in Hint as (v & Hv & Hint).
  assert (User_objects_get s (data request !! "user_id") = Got k) as Hgot
    by (apply User_objects_get_Got; by exists v).
  unfold add_member in Hadd. rewrite Hobj in Hadd. simpl in Hadd.
  destruct (data_get request "user_id") as [user_id|e] eqn:Hdata; [|done].
  apply data_get_Ok in Hdata as ->. simpl in Hadd.
  rewrite Hgot in Hadd. injection Hadd as <-.
  unfold remove_member.
  assert (ProjectViewSet_get_object (members_add s project k) request u pk
          = Ok (set_members project (Project.members project ∪ {[k]}))) as ->.
  { apply project_object_intro.
    - by apply members_add_pk_unique.
    - done.
    - by apply members_add_elem_of.
    - destruct Hsee as [Ho|Hm]; [by left|right]. simpl. (aside; set_solver).
    - exact Hperm.
    - exact Hsearch. }
  simpl. assert (data_get request "user_id" = Ok (data request !! "user_id")) as ->.
  { clear -Hv. unfold data_get, data in *.
    destruct (body request); try done; by rewrite lookup_empty in Hv. }
  simpl. assert (User_objects_get (members_add s project k)
                   (data request !! "user_id") = Got k) as ->.
  { apply User_objects_get_Got. by exists v. }
  by rewrite members_remove_add.
Qed.

(** ** Rows nobody may change *)

Lemma get_object_write_refused {A} (pk_of : A → UUID) (wrap : A → Obj)
    (search_fields : option (A → list string)) (s : Store)
    (request : Request) (queryset : result (list A)) (pk : string) :
  (∀ r, has_object_permission s request (wrap r) = Ok false) →
  ∀ r, get_object pk_of wrap search_fields s request queryset pk ≠ Ok r.
Proof.
  intros Hno r H. destruct (get_object_queryset_Ok _ _ _ _ _ _ _ _ H) as [rows ->].
  apply get_object_found in H as (_ & _ & _ & Hp). rewrite Hno in Hp. done.
Qed.


(** ** Creating an event anywhere *)

Lemma check_permissions_authenticated (v : ViewSet) (request : Request) (u : UserId) :
  user request = Some u → check_permissions v request = Ok ().
Proof. intros Hu. unfold check_permissions. destruct v; simpl; by rewrite Hu. Qed.


(** ** Tags *)

Lemma to_internal_value_keys (fields : list (string * FieldKind))
    (payload validated_data : gmap string json) (key : string) :
  to_internal_value fields payload = Some validated_data →
  is_Some (validated_data !! key) → key ∈ fields.*1.
Proof.
  revert validated_data. induction fields as [|[name kind] fields IH];
    intros validated_data; simpl.
  - intros [= <-]. rewrite lookup_empty. by intros [? ?].
  - destruct (to_internal_value fields payload) as [rest|]; [|done]. simpl.
    assert (is_Some (rest !! key) → key ∈ name :: fields.*1) as Hrest.
    { intros H. apply elem_of_cons. right. by apply (IH rest). }
    destruct kind, (payload !! name) as [value|]; simpl; try (by intros [= <-]).
    all: destruct (run_field_validation name value) as [value'|]; [|done]; simpl.
    all: intros [= <-]; destruct (decide (name = key)) as [->|Hne];
      [intros _; apply list_elem_of_here|by rewrite lookup_insert_ne].
Qed.

(** X8.  [TagViewSet] can never create a tag, whatever the request and
    whatever the store: the serializer has no [project] field, so whatever
    the body holds, under [project] or any other key, the validated data
    carries none, the insert is made without one and the NOT NULL column
    refuses it.  A request ends in [NotAuthenticated], in the 400 of a body
    that does not validate, or in an integrity error that leaves the store as
    it was. *)
Theorem tag_create_never_succeeds (new_id : Z) (s : Store) (request : Request) :
  TagViewSet_create new_id s request = Err NotAuthenticated
  ∨ TagViewSet_create new_id s request = Err BadRequest
  ∨ TagViewSet_create new_id s request = Ok (s, Err IntegrityError).
Proof.
  unfold TagViewSet_create. destruct (user request) as [u|] eqn:Hu.
  - right. unfold dispatch.
    rewrite (check_permissions_authenticated _ _ u Hu), Hu. simpl.
    unfold run_validation. destruct (body request) as [| | | | | |kvs]; try by left.
    destruct (to_internal_value TagSerializer_fields kvs) as [validated_data|] eqn:E;
      [|by left].
    right. simpl. unfold Tag_objects_create.
    cbv [mbind DB_bind db_bind db_get].
    assert (validated_data !! "project" = None) as ->; [|done].
    apply eq_None_not_Some. intros Hp.
    apply (to_internal_value_keys _ _ _ _ E) in Hp. revert Hp.
    apply (bool_decide_unpack _). vm_compute. exact I.
  - left. unfold dispatch, check_permissions. simpl. by rewrite Hu.
Qed.

(** ** Statistics by event type *)

Lemma sum_list_filter_nonzero {A} (l : list (A * nat)) :
  sum_list (snd <$> filter (λ tc, tc.2 ≠ 0%nat) l) = sum_list (snd <$> l).
Proof.
  induction l as [|[a n] l IH]; [done|].
  destruct (decide (n = 0%nat)) as [->|Hn].
  - rewrite filter_cons_False by (simpl; lia). rewrite fmap_cons.
    cbn [sum_list sum_list_with snd]. by rewrite IH.
  - rewrite filter_cons_True by done. rewrite !fmap_cons.
    cbn [sum_list sum_list_with snd]. by rewrite IH.
Qed.

Lemma count_by_event_type (l : list Event.t) :
  sum_list ((λ t, length (filter (λ e, Event.event_type e = t) l)) <$> all_event_types)
  = length l.
Proof.
  induction l as [|a l IH]; [done|].
  unfold all_event_types in *. simpl in IH. simpl.
  rewrite !filter_cons. destruct (Event.event_type a); simpl; lia.
Qed.

Lemma fst_filter_tagged {A B} (P : A * B → Prop) `{∀ x, Decision (P x)}
    (f : A → B) (l : list A) :
  fst <$> filter P ((λ t, (t, f t)) <$> l) = filter (λ t, P (t, f t)) l.
Proof.
  induction l as [|a l IH]; [done|]. rewrite fmap_cons.
  destruct (decide (P (a, f a))) as [Hp|Hp].
  - rewrite !filter_cons_True by done. rewrite fmap_cons. cbn [fst].
    by rewrite IH.
  - rewrite !filter_cons_False by done. done.
Qed.

Lemma events_of_type_filter (s : Store) (project : Project.t) (start_date : datetime)
    (t : EventType) :
  filter (λ e, Event.event_type e = t)
    (filter (λ e, Event.project e = Project.id project
                  ∧ start_date ≤ Event.timestamp e) (events s))
  = events_of_type s project start_date t.
Proof.
  unfold events_of_type. rewrite list_filter_filter. apply list_filter_iff.
  intros e. taut.
Qed.

(** X9.  The per-type counts of [stats] partition the events of the window:
    a type is listed exactly when the project has an event of that type not
    older than the cutoff, its count is then the number of those events,
    which is not zero, no type is listed twice, and the counts add up to
    [total_events], the number of the project's events not older than the
    cutoff. *)
Theorem event_types_partition (now : datetime) (s : Store) (project : Project.t)
    (days : Z) (st : Stats) :
  project_stats now s project days = Ok st →
  let start_date := now - days * usec_per_day in
  sum_list (snd <$> event_types st) = total_events st
  ∧ NoDup (fst <$> event_types st)
  ∧ (∀ t c, (t, c) ∈ event_types st ↔
            c = length (events_of_type s project start_date t) ∧ (0 < c)%nat)
  ∧ total_events st
    = length (filter (λ e, Event.project e = Project.id project
                           ∧ start_date ≤ Event.timestamp e) (events s))
  ∧ ∀ e, e ∈ events s → Event.project e = Project.id project →
         start_date ≤ Event.timestamp e →
         ∃ c, (Event.event_type e, c) ∈ event_types st
              ∧ e ∈ events_of_type s project start_date (Event.event_type e).
Proof.
  intros [_ ->]%project_stats_Ok start_date. unfold aggregate.
  cbn [event_types total_events]. fold start_date.
  assert (∀ t c,
    (t, c) ∈ filter (λ tc : EventType * nat, tc.2 ≠ 0%nat)
               ((λ t, (t, length (filter (λ e, Event.event_type e = t)
                                    (filter (λ e, Event.project e = Project.id project
                                                  ∧ start_date ≤ Event.timestamp e)
                                       (events s))))) <$> all_event_types)
    ↔ c = length (events_of_type s project start_date t) ∧ (0 < c)%nat) as Hiff.
  { intros t c. rewrite list_elem_of_filter, list_elem_of_fmap. cbn [snd].
    split.
    - intros [Hc (t' & [= -> ->] & _)]. rewrite events_of_type_filter in *.
      split; [done|lia].
    - intros [-> Hc]. split; [lia|]. exists t. rewrite events_of_type_filter.
      split; [done|]. destruct t; unfold all_event_types; (aside; set_solver). }
  split_and!.
  - rewrite sum_list_filter_nonzero, <- list_fmap_compose.
    apply count_by_event_type.
  - rewrite fst_filter_tagged. apply NoDup_filter.
    apply (bool_decide_unpack _). vm_compute. exact I.
  - exact Hiff.
  - done.
  - intros e He Hp Ht.
    assert (e ∈ events_of_type s project start_date (Event.event_type e)) as Hin
      by by apply list_elem_of_filter.
    exists (length (events_of_type s project start_date (Event.event_type e))).
    split; [|done]. apply Hiff. split; [done|].
    destruct (events_of_type _ _ _ _); [by apply elem_of_nil in Hin|simpl; lia].
Qed.

(** ** The events of a session *)

(** X10.  [SessionViewSet.events] answers, for a session the caller may
    reach, with exactly the stored events that point at the session, newest
    first.  Neither the caller's access to an event's own project nor any
    query parameter narrows the answer. *)
Theorem session_events_exact (s : Store) (request : Request) (u : UserId)
    (pk : string) (rows : list Event.t) :
  SessionViewSet_events s request u pk = Ok rows →
  ∃ session, SessionViewSet_get_object s request u pk = Ok session
    ∧ (∀ e, e ∈ rows ↔ e ∈ events s ∧ Event.session e = Some (Session.id session))
    ∧ rows ≡ₚ filter (λ e, Event.session e = Some (Session.id session)) (events s)
    ∧ Sorted newest_first rows.
Proof.
  unfold SessionViewSet_events.
  destruct (SessionViewSet_get_object s request u pk) as [session|e]; [|done].
  simpl. intros [= <-]. exists session. split_and!.
  - done.
  - intros e. rewrite merge_sort_Permutation, list_elem_of_filter. taut.
  - apply merge_sort_Permutation.
  - apply Sorted_merge_sort. apply _.
Qed.

(** ** Creating a project *)

(** X11.  [perform_create] makes the caller the owner of the new project
    and gives it no member: with a key that is not in use it succeeds for
    any stored user, the project is then listed for its creator and for
    nobody else, and the creator gets it from [get_object] for any method,
    on every request whose [search] text, if any, keeps the project. *)
Theorem project_create_owner (new_id : UUID) (name description : string)
    (u : UserId) (s : Store) :
  pk_unique Project.id (projects s) →
  new_id ∉ (Project.id <$> projects s) → u ∈ users s →
  let p := Project.mk new_id name description u ∅ in
  ∃ s', ProjectViewSet_perform_create new_id name description u s = (s', Ok p)
    ∧ projects s' = (projects s ++ [p])%list
    ∧ pk_unique Project.id (projects s')
    ∧ (∀ u', p ∈ ProjectViewSet_get_queryset s' u' ↔ u' = u)
    ∧ (∀ request pk, user request = Some u → to_uuid pk = Some new_id →
         (ProjectViewSet_get_object s' request u pk = Ok p
          ↔ search_keeps request [name; description])).
Proof.
  intros Hwf Hnew Hu p.
  unfold ProjectViewSet_perform_create, Project_objects_create.
  cbv [mbind mret DB_bind DB_ret db_bind db_get db_put db_ret db_raise].
  rewrite bool_decide_eq_true_2 by done. eexists. split; [done|]. simpl.
  assert (pk_unique Project.id (projects s ++ [p])) as Hwf'.
  { unfold pk_unique in *. rewrite fmap_app. apply NoDup_app. split_and!; [done| |].
    - intros x Hx [->|[]%elem_of_nil]%elem_of_cons. done.
    - apply NoDup_singleton. }
  split_and!; [done|done| |].
  - intros u'. rewrite elem_of_project_queryset. simpl. split.
    + intros [_ [?|?%elem_of_empty]]; done.
    + intros ->. split; [|by left]. apply elem_of_app. right. apply list_elem_of_here.
  - intros request pk Hreq Hpk. split.
    + by intros (_ & _ & _ & _ & Hs)%project_object.
    + intros Hs. apply project_object_intro; try done.
      * simpl. apply elem_of_app. right. apply list_elem_of_here.
      * by left.
      * apply has_object_permission_project. right. by split.
Qed.

(** ** Deleting a project *)

Lemma elem_of_fmap_filter {A B} (f : A → B) (P : A → Prop) `{∀ x, Decision (P x)}
    (l : list A) (y : B) :
  y ∈ f <$> filter P l ↔ ∃ x, x ∈ l ∧ P x ∧ f x = y.
Proof.
  rewrite list_elem_of_fmap. split.
  - intros (x & -> & [Hp Hin]%list_elem_of_filter). by exists x.
  - intros (x & Hin & Hp & <-). exists x. split; [done|].
    by apply list_elem_of_filter.
Qed.

Lemma elem_of_Some_fmap {A} (x : A) (l : list A) : Some x ∈ Some <$> l ↔ x ∈ l.
Proof.
  rewrite list_elem_of_fmap. split.
  - by intros (y & [= ->] & Hin).
  - intros Hin. by exists x.
Qed.

(** X12.  Deleting a project cascades along the foreign keys: on a store
    whose foreign keys all resolve, they all resolve afterwards, nothing that
    belonged to the project is left (no session, event, tag or dashboard
    names it), and users, the other projects, their tags and, keys being
    unique, their sessions and dashboards stay. *)
Theorem project_delete_cascades (k : UUID) (s : Store) :
  fk_intact s →
  let s' := Project_delete k s in
  fk_intact s'
  ∧ k ∉ (Project.id <$> projects s')
  ∧ (∀ x, x ∈ sessions s' → Session.project x ≠ k)
  ∧ (∀ e, e ∈ events s' → Event.project e ≠ k)
  ∧ (∀ t, t ∈ tags s' → Tag.project t ≠ k)
  ∧ (∀ d, d ∈ dashboards s' → Dashboard.project d ≠ k)
  ∧ users s' = users s
  ∧ (∀ p, p ∈ projects s → Project.id p ≠ k → p ∈ projects s')
  ∧ (∀ t, t ∈ tags s → Tag.project t ≠ k → t ∈ tags s')
  ∧ (pk_unique Session.id (sessions s) →
     ∀ x, x ∈ sessions s → Session.project x ≠ k → x ∈ sessions s')
  ∧ (pk_unique Dashboard.id (dashboards s) →
     ∀ d, d ∈ dashboards s → Dashboard.project d ≠ k → d ∈ dashboards s').
Proof.
  intros (Hse & Hev & Hup & Har & Hfb & Htg & Hda & Hwi) s'.
  assert (∀ x, x ∈ sessions s' → x ∈ sessions s ∧ Session.project x ≠ k) as Hs'.
  { intros x [Hn Hin]%list_elem_of_filter. split; [done|]. intros Hk. apply Hn.
    apply elem_of_fmap_filter. by exists x. }
  assert (∀ e, e ∈ events s' →
            e ∈ events s ∧ Event.project e ≠ k
            ∧ ∀ j, Event.session e = Some j → j ∈ (Session.id <$> sessions s'))
    as He'.
  { intros e [Hn Hin]%list_elem_of_filter.
    assert (¬ (Event.project e = k
               ∨ Event.session e
                 ∈ (Some <$> (Session.id <$>
                      filter (λ x, Session.project x = k) (sessions s))))) as Hn'.
    { intros Hg. apply Hn. apply elem_of_fmap_filter. by exists e. }
    split_and!; [done|taut|]. intros j Hj.
    destruct (Hev e Hin) as [_ Hsj]. specialize (Hsj j Hj).
    apply list_elem_of_fmap in Hsj as (x & -> & Hx).
    apply list_elem_of_fmap_2. apply list_elem_of_filter. split; [|done].
    intros Hg. apply Hn'. right. rewrite Hj. by apply elem_of_Some_fmap. }
  assert (∀ j, j ∈ (Event.id <$> events s) →
            j ∉ (Event.id <$> filter (λ e, Event.project e = k
                   ∨ Event.session e
                     ∈ (Some <$> (Session.id <$>
                          filter (λ x, Session.project x = k) (sessions s))))
                   (events s)) →
            j ∈ (Event.id <$> events s')) as Hkept_e.
  { intros j (e & -> & He)%list_elem_of_fmap Hn.
    apply list_elem_of_fmap_2. by apply list_elem_of_filter. }
  assert (∀ r, r ∈ user_prompts s' →
            r ∈ user_prompts s
            ∧ UserPrompt.event r ∈ (Event.id <$> events s')) as Hp'.
  { intros r [Hn Hin]%list_elem_of_filter. split; [done|].
    apply Hkept_e; [by apply Hup|]. intros Hg. apply Hn.
    apply elem_of_fmap_filter. by exists r. }
  assert (∀ j, j ∈ (Dashboard.id <$> dashboards s) →
            j ∉ (Dashboard.id <$> filter (λ d, Dashboard.project d = k)
                                    (dashboards s)) →
            j ∈ (Dashboard.id <$> dashboards s')) as Hkept_d.
  { intros j (d & -> & Hd)%list_elem_of_fmap Hn.
    apply list_elem_of_fmap_2. by apply list_elem_of_filter. }
  assert (∀ j, j ∈ (Project.id <$> projects s) → j ≠ k →
            j ∈ (Project.id <$> projects s')) as Hkept_p.
  { intros j (p & -> & Hp)%list_elem_of_fmap Hn.
    apply list_elem_of_fmap_2. by apply list_elem_of_filter. }
  split_and!.
  - unfold fk_intact. split_and!.
    + intros x Hx. destruct (Hs' x Hx) as [Hin Hk]. apply Hkept_p; [by apply Hse|done].
    + intros e He. destruct (He' e He) as (Hin & Hk & Hj). split; [|done].
      apply Hkept_p; [by apply Hev|done].
    + intros r Hr. by destruct (Hp' r Hr).
    + intros r [Hn Hin]%list_elem_of_filter.
      assert (¬ (AIResponse.event r
                 ∈ (Event.id <$> filter (λ e, Event.project e = k
                      ∨ Event.session e
                        ∈ (Some <$> (Session.id <$>
                             filter (λ x, Session.project x = k) (sessions s))))
                      (events s))
                 ∨ AIResponse.prompt r
                   ∈ (Some <$> (UserPrompt.id <$>
                        filter (λ r, UserPrompt.event r
                           ∈ (Event.id <$> filter (λ e, Event.project e = k
                                ∨ Event.session e
                                  ∈ (Some <$> (Session.id <$>
                                       filter (λ x, Session.project x = k)
                                         (sessions s))))
                                (events s)))
                          (user_prompts s))))) as Hn'.
      { intros Hg. apply Hn. apply elem_of_fmap_filter. by exists r. }
      destruct (Har r Hin) as [He Hpr]. split.
      * apply Hkept_e; [done|taut].
      * intros j Hj. specialize (Hpr j Hj).
        apply list_elem_of_fmap in Hpr as (q & -> & Hq).
        apply list_elem_of_fmap_2. apply list_elem_of_filter. split; [|done].
        intros Hg. apply Hn'. right. rewrite Hj. by apply elem_of_Some_fmap.
    + intros r [Hn Hin]%list_elem_of_filter. destruct (Hfb r Hin) as [He Hr]. split.
      * apply Hkept_e; [done|taut].
      * apply list_elem_of_fmap in Hr as (q & Hq & Hqin). rewrite Hq.
        apply list_elem_of_fmap_2. apply list_elem_of_filter. split; [|done].
        intros Hg. apply Hn. right. by rewrite Hq.
    + intros t [Hn Hin]%list_elem_of_filter. apply Hkept_p; [by apply Htg|done].
    + intros d [Hn Hin]%list_elem_of_filter. apply Hkept_p; [by apply Hda|].
      intros Hk. apply Hn. apply elem_of_fmap_filter. by exists d.
    + intros w [Hn Hin]%list_elem_of_filter. apply Hkept_d; [by apply Hwi|done].
  - intros (p & Hk & [Hn _]%list_elem_of_filter)%list_elem_of_fmap. done.
  - intros x Hx. by destruct (Hs' x Hx).
  - intros e He. by destruct (He' e He) as (_ & ? & _).
  - by intros t [Hn _]%list_elem_of_filter.
  - intros d [Hn Hin]%list_elem_of_filter Hk. apply Hn.
    apply elem_of_fmap_filter. by exists d.
  - done.
  - intros p Hp Hk. by apply list_elem_of_filter.
  - intros t Ht Hk. by apply list_elem_of_filter.
  - intros Hwf x Hx Hk. apply list_elem_of_filter. split; [|done].
    intros (y & Hy & Hyk & Hid)%elem_of_fmap_filter.
    assert (y = x) as -> by by apply (pk_unique_eq Session.id (sessions s)).
    done.
  - intros Hwf d Hd Hk. apply list_elem_of_filter. split; [|done].
    intros (y & Hy & Hyk & Hid)%elem_of_fmap_filter.
    assert (y = d) as -> by by apply (pk_unique_eq Dashboard.id (dashboards s)).
    done.
Qed.

(** X13.  [destroy] on a project is the owner's alone.  With unique project
    keys, stored owners and a method that is not safe: a caller who sees the
    project without owning it, on a request whose [search] text, if any,
    keeps the project, is refused and nothing is deleted; and when [destroy]
    returns a store the caller owns the project and the store is the one the
    cascade leaves. *)
Theorem project_destroy_owner_only (s : Store) (request : Request) (u : UserId)
    (pk : string) :
  pk_unique Project.id (projects s) →
  (∀ p, p ∈ projects s → Project.owner p ∈ users s) →
  method request ∉ SAFE_METHODS →
  (∀ p, p ∈ projects s → to_uuid pk = Some (Project.id p) → can_see u p →
        search_keeps request [Project.name p; Project.description p] →
        user request ≠ Some (Project.owner p) →
        ProjectViewSet_destroy s request u pk = Err PermissionDenied)
  ∧ (∀ s', ProjectViewSet_destroy s request u pk = Ok s' →
        ∃ p, p ∈ projects s ∧ to_uuid pk = Some (Project.id p)
             ∧ user request = Some (Project.owner p)
             ∧ s' = Project_delete (Project.id p) s
             ∧ p ∉ projects s').
Proof.
  intros Hwf Hown Hm. unfold ProjectViewSet_destroy. split.
  - intros p Hin Hk Hsee Hs Hu.
    assert (ProjectViewSet_get_object s request u pk = Err PermissionDenied) as ->;
      [|done].
    apply project_get_object_PermissionDenied; [done..|]. by exists p.
  - intros s' H.
    destruct (ProjectViewSet_get_object s request u pk) as [p|e] eqn:E; [|done].
    simpl in H. injection H as <-.
    apply project_object in E as (Hk & Hin & _ & Hp & _).
    apply has_object_permission_project in Hp as [Hs|[_ Hu]]; [done|].
    exists p. split_and!; try done. simpl.
    by intros [Hn _]%list_elem_of_filter.
Qed.

(** ** What [create] keeps *)

Lemma preserves_ret {A} (I : Store → Prop) (a : A) : preserves I (db_ret a).
Proof. intros s s' r HI [= <- _]. done. Qed.

Lemma preserves_raise {A} (I : Store → Prop) (e : exn) : preserves I (@db_raise A e).
Proof. intros s s' r HI [= <- _]. done. Qed.

Lemma preserves_bind {A B} (I : Store → Prop) (m : DB A) (f : A → DB B) :
  preserves I m → (∀ a, preserves I (f a)) → preserves I (m ≫= f).
Proof.
  intros Hm Hf s s' r HI. cbv [mbind DB_bind db_bind].
  destruct (m s) as [s1 [a|e]] eqn:E.
  - intros H. apply (Hf a s1 s' r); [|done]. by apply (Hm s s1 (Ok a)).
  - intros [= <- <-]. by apply (Hm s s1 (Err e)).
Qed.

Lemma preserves_if_truthy {D} (I : Store → Prop) (truth : option D → bool)
    (d : option D) (body : D → DB unit) :
  (∀ x, preserves I (body x)) → preserves I (if_truthy truth d body).
Proof.
  intros Hb. unfold if_truthy. destruct d as [x|]; [|apply preserves_ret].
  destruct (truth (Some x)); [apply Hb|apply preserves_ret].
Qed.

Lemma NoDup_fmap_snoc {A B} (f : A → B) (l : list A) (x : A) :
  NoDup (f <$> l) → f x ∉ (f <$> l) → NoDup (f <$> (l ++ [x])%list).
Proof.
  intros Hnd Hx. rewrite fmap_app. apply NoDup_app. split_and!; [done| |].
  - intros y Hy [->|[]%elem_of_nil]%elem_of_cons. done.
  - apply NoDup_singleton.
Qed.

Lemma elem_of_fmap_app_l {A B} (f : A → B) (l k : list A) (y : B) :
  y ∈ (f <$> l) → y ∈ (f <$> (l ++ k)%list).
Proof. intros H. rewrite fmap_app. apply elem_of_app. by left. Qed.

Lemma fk_nullable_spec (fk : option UUID) (ids : list UUID) :
  fk_nullable fk ids = true ↔ ∀ k, fk = Some k → k ∈ ids.
Proof.
  unfold fk_nullable. destruct fk as [k|].
  - rewrite bool_decide_eq_true. split; [by intros ? ? [= <-]|]. intros H. by apply H.
  - split; [done|]. done.
Qed.

Ltac insert_tac :=
  intros s s' r [(Hse & Hev & Hup & Har & Hfb & Htg & Hda & Hwi)
                   (Ke & Kp & Kr & Kf & Up & Ur & Uf)];
  cbv [mbind mret DB_bind DB_ret db_bind db_get db_put db_ret db_raise].

Lemma Event_objects_create_preserves (row : Event.t) :
  preserves store_ok (Event_objects_create row).
Proof.
  unfold Event_objects_create. insert_tac.
  destruct (bool_decide _ && _) eqn:E; intros [= <- _];
    [|by split; split_and!].
  apply andb_prop in E as [[Hid Hpj]%bool_decide_eq_true Hs].
  pose proof (proj1 (fk_nullable_spec _ _) Hs) as Hs'.
  split; split_and!; simpl; try done.
  - intros e [He|He]%elem_of_app; [by apply Hev|].
    apply list_elem_of_singleton in He as ->. done.
  - intros q Hq. by apply elem_of_fmap_app_l, Hup.
  - intros q Hq. destruct (Har q Hq). split; [by apply elem_of_fmap_app_l|done].
  - intros q Hq. destruct (Hfb q Hq). split; [by apply elem_of_fmap_app_l|done].
  - by apply NoDup_fmap_snoc.
Qed.

Lemma UserPrompt_objects_create_preserves (row : UserPrompt.t) :
  preserves store_ok (UserPrompt_objects_create row).
Proof.
  unfold UserPrompt_objects_create. insert_tac.
  destruct (bool_decide _) eqn:E; intros [= <- _]; [|by split; split_and!].
  apply bool_decide_eq_true in E as (Hid & He & Hu).
  split; split_and!; simpl; try done.
  - intros q [Hq|Hq]%elem_of_app; [by apply Hup|].
    apply list_elem_of_singleton in Hq as ->. done.
  - intros q Hq. destruct (Har q Hq) as [? Hp]. split; [done|].
    intros k Hk. by apply elem_of_fmap_app_l, Hp.
  - by apply NoDup_fmap_snoc.
  - by apply NoDup_fmap_snoc.
Qed.

Lemma AIResponse_objects_create_preserves (row : AIResponse.t) :
  preserves store_ok (AIResponse_objects_create row).
Proof.
  unfold AIResponse_objects_create. insert_tac.
  destruct (bool_decide _ && _) eqn:E; intros [= <- _];
    [|by split; split_and!].
  apply andb_prop in E as [(Hid & He & Hu)%bool_decide_eq_true Hp'].
  pose proof (proj1 (fk_nullable_spec _ _) Hp') as Hp.
  split; split_and!; simpl; try done.
  - intros q [Hq|Hq]%elem_of_app; [by apply Har|].
    apply list_elem_of_singleton in Hq as ->. done.
  - intros q Hq. destruct (Hfb q Hq) as [? Hr]. split; [done|].
    by apply elem_of_fmap_app_l.
  - by apply NoDup_fmap_snoc.
  - by apply NoDup_fmap_snoc.
Qed.

Lemma Feedback_objects_create_preserves (id event : UUID) (response : option UUID)
    (rating : option Z) (comment : string) (tags : list string) :
  preserves store_ok (Feedback_objects_create id event response rating comment tags).
Proof.
  unfold Feedback_objects_create. insert_tac.
  destruct response as [resp|]; [|intros [= <- _]; by split; split_and!].
  destruct (bool_decide _) eqn:E; intros [= <- _]; [|by split; split_and!].
  apply bool_decide_eq_true in E as (Hid & He & Hu & Hr).
  split; split_and!; simpl; try done.
  - intros q [Hq|Hq]%elem_of_app; [by apply Hfb|].
    apply list_elem_of_singleton in Hq as ->. done.
  - by apply (NoDup_fmap_snoc Feedback.id).
  - by apply (NoDup_fmap_snoc Feedback.event).
Qed.

Lemma Event_user_prompt_preserves (I : Store → Prop) (event : Event.t) :
  preserves I (Event_user_prompt event).
Proof.
  intros s s' r HI. unfold Event_user_prompt.
  cbv [mbind DB_bind db_bind db_get db_ret db_raise].
  by case_match; intros [= <- _].
Qed.

Lemma Event_ai_response_preserves (I : Store → Prop) (event : Event.t) :
  preserves I (Event_ai_response event).
Proof.
  intros s s' r HI. unfold Event_ai_response.
  cbv [mbind DB_bind db_bind db_get db_ret db_raise].
  by case_match; intros [= <- _].
Qed.

(** X14.  [create] keeps the store sound whether it succeeds or fails part
    way: if every foreign key resolved, keys were unique and no event had two
    prompts, responses or feedbacks before the call, the same holds of the
    store the call leaves. *)
Theorem create_preserves_store_ok (now : datetime) (ids : NewIds)
    (validated_data : EventData) (s s' : Store) (r : result Event.t) :
  store_ok s → create now ids validated_data s = (s', r) → store_ok s'.
Proof.
  revert s s' r. change (preserves store_ok (create now ids validated_data)).
  unfold create. apply preserves_bind; [apply Event_objects_create_preserves|].
  intros event. apply preserves_bind.
  { apply preserves_if_truthy. intros d. apply preserves_bind;
      [apply UserPrompt_objects_create_preserves|intros; apply preserves_ret]. }
  intros _. apply preserves_bind.
  { apply preserves_if_truthy. intros d. apply preserves_bind.
    - destruct (user_prompt_truthy _); [|apply preserves_ret].
      apply preserves_bind; [apply Event_user_prompt_preserves|].
      intros; apply preserves_ret.
    - intros prompt. apply preserves_bind;
        [apply AIResponse_objects_create_preserves|intros; apply preserves_ret]. }
  intros _. apply preserves_bind.
  { apply preserves_if_truthy. intros d. apply preserves_bind.
    - destruct (ai_response_truthy _); [|apply preserves_ret].
      apply preserves_bind; [apply Event_ai_response_preserves|].
      intros; apply preserves_ret.
    - intros response. apply preserves_bind;
        [apply Feedback_objects_create_preserves|intros; apply preserves_ret]. }
  intros _. apply preserves_ret.
Qed.

(** ** Reading back what [create] wrote *)

Lemma create_Ok_fresh (now : datetime) (ids : NewIds) (validated_data : EventData)
    (s s' : Store) (event : Event.t) :
  create now ids validated_data s = (s', Ok event) →
  event_id ids ∉ (Event.id <$> events s).
Proof.
  intros Hc. db_unfold.
  destruct validated_data as [pj se ty ts up ar fb]. simpl in *.
  destruct (bool_decide _ && _) eqn:E; [|done].
  apply andb_prop in E as [[Hid _]%bool_decide_eq_true _]. done.
Qed.

Lemma filter_no_ref {A} (f : A → UUID) (l : list A) (k : UUID) :
  k ∉ (f <$> l) → filter (λ r, f r = k) l = [].
Proof.
  intros Hk. apply elem_of_nil_inv. intros y [Hy Hin]%list_elem_of_filter.
  apply Hk. rewrite <- Hy. by apply list_elem_of_fmap_2.
Qed.

(** X15.  On a store whose foreign keys resolve, the representation of an
    event read right after its creation embeds exactly the documents the
    payload carried: the prompt, the response linked to that prompt, and the
    feedback linked to that response. *)
Theorem create_then_read (now : datetime) (ids : NewIds) (validated_data : EventData)
    (s s' : Store) (event : Event.t) :
  fk_intact s →
  create now ids validated_data s = (s', Ok event) →
  EventSerializer_data s' event = expected_repr ids validated_data event.
Proof.
  intros (_ & _ & Hup & Har & Hfb & _) Hc.
  pose proof (create_Ok_fresh _ _ _ _ _ _ Hc) as Hfresh.
  destruct (create_rows_and_links _ _ _ _ _ _ Hc) as (-> & _ & Ep & Er & Ef & _).
  assert (filter (λ r, UserPrompt.event r = event_id ids) (user_prompts s) = [])
    as Np.
  { apply filter_no_ref. intros (r & Hr & Hin)%list_elem_of_fmap.
    apply Hfresh. rewrite Hr. by apply Hup. }
  assert (filter (λ r, AIResponse.event r = event_id ids) (ai_responses s) = [])
    as Nr.
  { apply filter_no_ref. intros (r & Hr & Hin)%list_elem_of_fmap.
    apply Hfresh. rewrite Hr. by apply Har. }
  assert (filter (λ r, Feedback.event r = event_id ids) (feedback_rows s) = [])
    as Nf.
  { apply filter_no_ref. intros (r & Hr & Hin)%list_elem_of_fmap.
    apply Hfresh. rewrite Hr. by apply Hfb. }
  destruct validated_data as [pj se ty ts up ar fb].
  unfold EventSerializer_data, expected_repr, new_event.
  cbn [ed_project ed_session ed_event_type ed_timestamp ed_user_prompt
       ed_ai_response ed_feedback Event.id] in *.
  rewrite Ep, Er, Ef, !filter_app, Np, Nr, Nf. f_equal.
  - destruct up; [by rewrite filter_cons_True|done].
  - destruct ar; [by rewrite filter_cons_True|done].
  - destruct fb as [d|]; [|by destruct (feedback_truthy None)].
    destruct (feedback_truthy (Some d)); [|done].
    by rewrite filter_cons_True.
Qed.

(** ** Renaming a tag *)

Lemma tag_object (s : Store) (request : Request) (u : UserId) (pk : string)
    (tag : Tag.t) :
  TagViewSet_get_object s request u pk = Ok tag →
  tag ∈ tags s ∧ py_int pk = Some (Tag.id tag)
  ∧ has_object_permission s request (OTag tag) = Ok true.
Proof.
  unfold TagViewSet_get_object.
  destruct (TagViewSet_get_queryset s request u) as [rows|e] eqn:Hq; [|done].
  simpl. destruct (py_int pk) as [k|]; [|done].
  destruct (head (filter (λ r, Tag.id r = k) rows)) as [t|] eqn:Hh; [|done].
  intros [-> Hp]%check_object_permissions_Ok.
  apply head_elem_of_filter in Hh as [<- Hin].
  destruct (TagViewSet_get_queryset_answers s request u) as [_ Hspec].
  destruct (Hspec rows Hq) as [_ [_ Hmem]]. apply Hmem in Hin as [Hin _]. done.
Qed.

Lemma replace_by_key_unique (row : Tag.t) (l : list Tag.t) :
  NoDup (Tag.id <$> l) → NoDup (tag_key <$> l) →
  tag_key row ∉ (tag_key <$> filter (λ t, Tag.id t ≠ Tag.id row) l) →
  NoDup (tag_key <$> ((λ t, if bool_decide (Tag.id t = Tag.id row) then row else t)
                        <$> l)).
Proof.
  induction l as [|a l IH]; [intros; apply NoDup_nil_2|].
  rewrite !fmap_cons. intros [Hida Hid]%NoDup_cons [Hka Hk]%NoDup_cons Hrow.
  destruct (decide (Tag.id a = Tag.id row)) as [E|E].
  - rewrite bool_decide_eq_true_2 by done.
    rewrite filter_cons_False in Hrow by taut.
    assert (∀ t, t ∈ l → Tag.id t ≠ Tag.id row) as Hne.
    { intros t Ht Heq. apply Hida. rewrite E, <- Heq. by apply list_elem_of_fmap_2. }
    assert ((λ t, if bool_decide (Tag.id t = Tag.id row) then row else t) <$> l = l)
      as ->.
    { apply fmap_id_on. intros t Ht. by rewrite bool_decide_eq_false_2 by by apply Hne. }
    apply NoDup_cons. split; [|done].
    intros (t & Hkt & Ht)%list_elem_of_fmap. apply Hrow.
    apply elem_of_fmap_filter. exists t. split_and!; [done|by apply Hne|done].
  - rewrite bool_decide_eq_false_2 by done.
    rewrite filter_cons_True, fmap_cons in Hrow by done.
    apply not_elem_of_cons in Hrow as [Hra Hrow].
    apply NoDup_cons. split; [|by apply IH].
    intros (t' & Hkt & Ht')%list_elem_of_fmap.
    apply list_elem_of_fmap in Ht' as (t & -> & Ht).
    case_bool_decide; [congruence|].
    apply Hka. rewrite Hkt. by apply list_elem_of_fmap_2.
Qed.

(** X16.  Updating a tag keeps the tag table sound: with unique keys and
    unique (project, name) pairs before, both hold after; the tags keep their
    keys and their projects, so no tag is added, lost or moved; and the
    update is refused with an integrity error, the store untouched, exactly
    when another tag of the same project already has the new name. *)
Theorem tag_update_keeps_unique (validated_data : TagData) (s s' : Store)
    (request : Request) (u : UserId) (pk : string) (r : result Tag.t) :
  pk_unique Tag.id (tags s) → tags_unique s →
  TagViewSet_update validated_data s request u pk = Ok (s', r) →
  ∃ tag, TagViewSet_get_object s request u pk = Ok tag
    ∧ let name := default (Tag.name tag) (td_name validated_data) in
      let taken := ∃ t, t ∈ tags s ∧ Tag.id t ≠ Tag.id tag
                        ∧ Tag.project t = Tag.project tag ∧ Tag.name t = name in
      pk_unique Tag.id (tags s') ∧ tags_unique s'
      ∧ Tag.id <$> tags s' = Tag.id <$> tags s
      ∧ Tag.project <$> tags s' = Tag.project <$> tags s
      ∧ (taken → r = Err IntegrityError ∧ s' = s)
      ∧ (¬ taken →
         r = Ok (Tag.mk (Tag.id tag) (Tag.project tag) name
                   (default (Tag.color tag) (td_color validated_data)))
         ∧ ∀ t, t ∈ tags s' →
                t ∈ tags s ∨ t = Tag.mk (Tag.id tag) (Tag.project tag) name
                                   (default (Tag.color tag)
                                      (td_color validated_data))).
Proof.
  intros Hwf Hun. unfold TagViewSet_update.
  destruct (TagViewSet_get_object s request u pk) as [tag|e] eqn:Hobj; [|done].
  cbv beta iota delta [mbind result_bind]. intros [= H]. exists tag.
  split; [done|].
  set (name := default (Tag.name tag) (td_name validated_data)) in *.
  set (taken := ∃ t, t ∈ tags s ∧ Tag.id t ≠ Tag.id tag
                     ∧ Tag.project t = Tag.project tag ∧ Tag.name t = name).
  apply tag_object in Hobj as (Hin & _ & _).
  set (row := Tag.mk (Tag.id tag) (Tag.project tag) name
                (default (Tag.color tag) (td_color validated_data))) in *.
  assert (taken ↔ tag_key row
                   ∈ (tag_key <$> filter (λ t, Tag.id t ≠ Tag.id row) (tags s)))
    as Htaken.
  { unfold taken. rewrite elem_of_fmap_filter. unfold tag_key. simpl. split.
    - intros (t & Ht & Hid & Hp & Hn). exists t. split_and!; [done..|]. congruence.
    - intros (t & Ht & Hid & [= Hp Hn]). by exists t. }
  unfold Tag_save in H.
  cbv [mbind mret DB_bind DB_ret db_bind db_get db_put db_ret db_raise] in H.
  fold (tag_key row) in H. change (λ t, (Tag.project t, Tag.name t)) with tag_key in H.
  destruct (bool_decide _) eqn:E in H.
  - apply bool_decide_eq_true in E. injection H as <- <-. cbn [tags with_tags].
    assert (Tag.id <$> ((λ t, if bool_decide (Tag.id t = Tag.id row) then row else t)
                          <$> tags s) = Tag.id <$> tags s) as Hids.
    { rewrite <- list_fmap_compose. apply list_fmap_ext. intros i t _. simpl.
      by case_bool_decide. }
    change (λ t : Tag.t, if bool_decide (Tag.id t = Tag.id tag) then row else t)
      with (λ t : Tag.t, if bool_decide (Tag.id t = Tag.id row) then row else t).
    split_and!.
    + unfold pk_unique. by rewrite Hids.
    + by apply replace_by_key_unique.
    + done.
    + rewrite <- list_fmap_compose. apply list_fmap_ext. intros i t Ht. simpl.
      case_bool_decide as Hid; [|done]. simpl.
      apply list_elem_of_lookup_2 in Ht.
      by rewrite (pk_unique_eq Tag.id (tags s) t tag Hwf Ht Hin Hid).
    + intros Ht. by apply Htaken in Ht.
    + intros _. split; [done|]. intros t (t0 & -> & Ht0)%list_elem_of_fmap.
      case_bool_decide; [by right|by left].
  - apply bool_decide_eq_false in E. injection H as <- <-.
    split_and!; try done.
    intros Hnt. destruct E. intros Hk. by apply Hnt, Htaken.
Qed.

(** ** Ending a session, seen from the rest of the store *)

Lemma session_object (s : Store) (request : Request) (u : UserId) (pk : string)
    (session : Session.t) :
  SessionViewSet_get_object s request u pk = Ok session →
  session ∈ sessions s ∧ to_uuid pk = Some (Session.id session)
  ∧ has_object_permission s request (OSession session) = Ok true.
Proof.
  intros Hobj. unfold SessionViewSet_get_object in Hobj.
  destruct (get_object_queryset_Ok _ _ _ _ _ _ _ _ Hobj) as [rows Hrows].
  rewrite Hrows in Hobj. apply get_object_found in Hobj as (Hin & Hk & _ & Hperm).
  destruct (SessionViewSet_get_queryset_answers s request u) as [_ Hsess].
  destruct (Hsess rows Hrows) as [_ [_ Hspec]].
  apply Hspec in Hin as (Hin & _). done.
Qed.

(** X17.  [end_session] is a write on the session: when it succeeds for a
    request whose method is not a safe one, the caller owns the project of the
    session (a member who is not the owner never gets it through), and the
    call touches nothing but that session: every other table is as before,
    the session table keeps its keys in their order, the sessions with
    another key stay, and a session found afterwards was there before or is
    the ended one, which differs from the stored one in its end time only. *)
Theorem end_session_owner_and_local (now : datetime) (s s' : Store)
    (request : Request) (u : UserId) (pk : string) (resp : Response) :
  method request ∉ SAFE_METHODS →
  end_session now s request u pk = Ok (resp, s') →
  ∃ session p,
    session ∈ sessions s ∧ to_uuid pk = Some (Session.id session)
    ∧ p ∈ projects s ∧ Project.id p = Session.project session
    ∧ user request = Some (Project.owner p)
    ∧ (users s', projects s', events s', user_prompts s', ai_responses s')
      = (users s, projects s, events s, user_prompts s, ai_responses s)
    ∧ (feedback_rows s', tags s', dashboards s', widgets s')
      = (feedback_rows s, tags s, dashboards s, widgets s)
    ∧ Session.id <$> sessions s' = Session.id <$> sessions s
    ∧ (∀ x, x ∈ sessions s → Session.id x ≠ Session.id session → x ∈ sessions s')
    ∧ (∀ x, x ∈ sessions s' →
         x ∈ sessions s
         ∨ x = Session.mk (Session.id session) (Session.project session)
                 (Session.user_id session) (Session.session_key session)
                 (Session.start_time session) (Some now)).
Proof.
  intros Hm. unfold end_session.
  destruct (SessionViewSet_get_object s request u pk) as [session|e] eqn:Hobj;
    [|done].
  simpl. intros [= <- <-].
  apply session_object in Hobj as (Hin & Hk & Hperm).
  apply (has_object_permission_via_project _ _ _ (Session.project session))
    in Hperm as (p & [Hpin Hid]%fetch_project_Ok & _ & Hperm); [|done..].
  exists session, p. split_and!; try done.
  - simpl. rewrite <- list_fmap_compose. apply list_fmap_ext. intros i x _. simpl.
    by case_bool_decide.
  - intros x Hx Hne. simpl. apply list_elem_of_fmap. exists x. split; [|done].
    by rewrite bool_decide_eq_false_2.
  - simpl. intros x (y & -> & Hy)%list_elem_of_fmap.
    case_bool_decide; [by right|by left].
Qed.

(** ** Counts the statistics cannot exceed *)

Lemma in_window_length {A} (s : Store) (event_of : A → UUID) (project : Project.t)
    (start_date : datetime) (rows : list A) :
  pk_unique Event.id (events s) → NoDup (event_of <$> rows) →
  (length (in_window s event_of project start_date rows)
   ≤ length (filter (λ e, Event.project e = Project.id project
                          ∧ (start_date ≤ Event.timestamp e)%Z) (events s)))%nat.
Proof.
  intros Hwf Hnd. rewrite in_window_filter by done.
  set (evs := filter _ (events s)).
  set (kept := filter _ rows).
  rewrite <- (length_fmap event_of kept), <- (length_fmap Event.id evs).
  apply submseteq_length, NoDup_submseteq.
  - apply (sublist_NoDup (event_of <$> kept) (event_of <$> rows)); [done|].
    apply fmap_sublist, sublist_filter.
  - intros k (r & -> & [Hw _]%list_elem_of_filter)%list_elem_of_fmap.
    unfold event_in_window in Hw. apply Exists_exists in Hw as (e & He & <- & Hc).
    apply list_elem_of_fmap_2. by apply list_elem_of_filter.
Qed.

(** X18.  Prompts, responses and feedback hang one-to-one on events, so the
    statistics never report more of any of them than events: with unique
    event keys and at most one prompt, response and feedback per event,
    whatever [stats] returns has [total_prompts], [total_responses] and
    [total_feedback] at most [total_events], and the counts per event type
    are each at most [total_events] too. *)
Theorem stats_counts_bounded (now : datetime) (s : Store) (request : Request)
    (u : UserId) (pk : string) (st : Stats) :
  keys_unique s →
  stats now s request u pk = Ok st →
  (total_prompts st ≤ total_events st)%nat
  ∧ (total_responses st ≤ total_events st)%nat
  ∧ (total_feedback st ≤ total_events st)%nat
  ∧ ∀ t n, (t, n) ∈ event_types st → (0 < n ≤ total_events st)%nat.
Proof.
  intros (Ke & _ & _ & _ & Up & Ur & Uf). unfold stats.
  destruct (ProjectViewSet_get_object s request u pk) as [project|e]; [|done].
  simpl. destruct (stats_days request) as [days|e]; [|done]. simpl.
  intros [_ ->]%project_stats_Ok. unfold aggregate.
  cbn [total_prompts total_responses total_feedback total_events event_types].
  split_and!; try by apply in_window_length.
  intros t n [Hn Hin]%list_elem_of_filter. cbn [snd] in Hn.
  apply list_elem_of_fmap in Hin as (t' & [= -> ->] & _).
  split; [lia|]. apply length_filter.
Qed.

(** ** Writes *)

Lemma declares_project_functional (obj : Obj) (k k' : UUID) :
  declares_project obj k → declares_project obj k' → k = k'.
Proof. intros H H'. by destruct H; inversion H'. Qed.

Lemma declares_project_attrs (s : Store) (obj : Obj) (k : UUID) :
  declares_project obj k →
  attr_owner s obj = Ok None ∧ attr_project s obj = Some <$> fetch_project s k.
Proof. by intros []. Qed.

(** The object check on a write, case by case. *)
Lemma has_object_permission_write (s : Store) (request : Request) (obj : Obj) :
  pk_unique Project.id (projects s) →
  method request ∉ SAFE_METHODS →
  has_object_permission s request obj = Ok true ↔
  (∃ p, obj = OProject p ∧ Project.owner p ∈ users s
        ∧ user request = Some (Project.owner p))
  ∨ (∃ k p, declares_project obj k ∧ p ∈ projects s ∧ Project.id p = k
            ∧ Project.owner p ∈ users s ∧ user request = Some (Project.owner p)).
Proof.
  intros Hwf Hm.
  assert (∀ k, declares_project obj k →
            has_object_permission s request obj = Ok true ↔
            ∃ p, p ∈ projects s ∧ Project.id p = k ∧ Project.owner p ∈ users s
                 ∧ user request = Some (Project.owner p)) as Hdecl.
  { intros k Hk. destruct (declares_project_attrs s obj k Hk) as [Ho Hp].
    rewrite (has_object_permission_via_project s request obj k Ho Hp Hm). split.
    - intros (p & [Hin Hid]%fetch_project_Ok & ? & ?). by exists p.
    - intros (p & Hin & <- & ? & ?). exists p. split; [|done].
      by apply fetch_project_stored. }
  destruct obj as [p|x|e|r|r|r|t|d|w].
  - rewrite has_object_permission_project. split.
    + intros [?|[? ?]]; [done|]. left. by exists p.
    + intros [(p' & [= <-] & ? & ?)|(k & p' & Hd & _)]; [by right|inversion Hd].
  - rewrite (Hdecl _ (session_declares x)). split.
    + intros (p & ?). right. exists (Session.project x), p. split; [constructor|done].
    + intros [(p & ? & _)|(k & p & Hd & ?)]; [done|]. inversion Hd; subst. by exists p.
  - rewrite (Hdecl _ (event_declares e)). split.
    + intros (p & ?). right. exists (Event.project e), p. split; [constructor|done].
    + intros [(p & ? & _)|(k & p & Hd & ?)]; [done|]. inversion Hd; subst. by exists p.
  - rewrite has_object_permission_neither by done. split; [done|].
    intros [(p & ? & _)|(k & p & Hd & _)]; [done|inversion Hd].
  - rewrite has_object_permission_neither by done. split; [done|].
    intros [(p & ? & _)|(k & p & Hd & _)]; [done|inversion Hd].
  - rewrite has_object_permission_neither by done. split; [done|].
    intros [(p & ? & _)|(k & p & Hd & _)]; [done|inversion Hd].
  - rewrite (Hdecl _ (tag_declares t)). split.
    + intros (p & ?). right. exists (Tag.project t), p. split; [constructor|done].
    + intros [(p & ? & _)|(k & p & Hd & ?)]; [done|]. inversion Hd; subst. by exists p.
  - rewrite (Hdecl _ (dashboard_declares d)). split.
    + intros (p & ?). right. exists (Dashboard.project d), p.
      split; [constructor|done].
    + intros [(p & ? & _)|(k & p & Hd & ?)]; [done|]. inversion Hd; subst. by exists p.
  - rewrite has_object_permission_neither by done. split; [done|].
    intros [(p & ? & _)|(k & p & Hd & _)]; [done|inversion Hd].
Qed.

(** A write the object check lets through is the owner's. *)
Lemma permitted_write_owner (s : Store) (request : Request) (obj : Obj)
    (p : Project.t) :
  pk_unique Project.id (projects s) →
  method request ∉ SAFE_METHODS →
  has_object_permission s request obj = Ok true →
  belongs s obj p → user request = Some (Project.owner p).
Proof.
  intros Hwf Hm Hperm Hb.
  apply has_object_permission_write in Hperm
    as [(p' & -> & _ & Hu)|(k & p' & Hd & Hin & Hid & _ & Hu)]; [| |done..].
  - by apply belongs_project in Hb as ->.
  - assert (p = p') as ->; [|done].
    destruct Hb as [p|obj k' p Hd' Hin' Hid'|r e p|r e p|r e p|w d p];
      try (by inversion Hd).
    apply (pk_unique_eq Project.id (projects s)); [done..|].
    rewrite Hid, Hid'. apply (declares_project_functional _ _ _ Hd' Hd).
Qed.

Lemma get_object_owner_only {A} (pk_of : A → UUID) (wrap : A → Obj)
    (search_fields : option (A → list string)) (s : Store)
    (request : Request) (queryset : result (list A)) (pk : string) :
  pk_unique Project.id (projects s) →
  method request ∉ SAFE_METHODS →
  owner_only wrap s request
    (get_object pk_of wrap search_fields s request queryset pk).
Proof.
  intros Hwf Hm r p H Hb.
  destruct (get_object_queryset_Ok _ _ _ _ _ _ _ _ H) as [rows ->].
  apply get_object_found in H as (_ & _ & _ & Hp).
  by apply (permitted_write_owner s request (wrap r)).
Qed.

(** [EventViewSet.create] of an event without nested documents in a stored
    project succeeds for any authenticated identity. *)
Lemma event_create_plain (now : datetime) (ids : NewIds)
    (validated_data : EventData) (s : Store) (request : Request) (m : UserId)
    (p : Project.t) :
  user request = Some m → p ∈ projects s →
  ed_project validated_data = Project.id p →
  ed_session validated_data = None →
  ed_user_prompt validated_data = None →
  ed_ai_response validated_data = None →
  ed_feedback validated_data = None →
  event_id ids ∉ (Event.id <$> events s) →
  EventViewSet_create now ids validated_data s request
  = Ok (with_events s (events s ++ [new_event now ids validated_data]),
        Ok (new_event now ids validated_data)).
Proof.
  intros Hu Hin Hp Hs Hup Har Hfb Hid.
  unfold EventViewSet_create, dispatch.
  rewrite (check_permissions_authenticated _ _ m Hu). simpl. rewrite Hu.
  destruct validated_data as [pj se ty ts up ar fb]. simpl in *. subst.
  unfold new_event. simpl. db_unfold. simpl.
  rewrite bool_decide_eq_true_2; [done|].
  split; [done|]. by apply list_elem_of_fmap_2.
Qed.

(** C3, as the code has it.  The object check passes every read.  With
    unique project keys, it passes a write on a stored row exactly when the
    row is a project and the identity is its owner, or the row's model
    declares a [project] (sessions, events, tags, dashboards) and the
    identity is the owner of the project the row names; prompts, responses,
    feedback and widgets declare neither and are refused to everyone.  So a
    member who is not the owner is refused on the project and on every row
    that belongs to it, and a write that goes through [get_object] (update,
    delete, the detail actions) reaches a row only for the owner of its
    project.  Creation has no object to check: any authenticated identity,
    a member like another, creates an event in any stored project. *)
Theorem writes_checked_on_objects_only (s : Store) (request : Request)
    (u : UserId) (pk : string) :
  pk_unique Project.id (projects s) →
  (method request ∈ SAFE_METHODS →
     ∀ obj, has_object_permission s request obj = Ok true)
  ∧ (method request ∉ SAFE_METHODS →
       (∀ obj,
          has_object_permission s request obj = Ok true ↔
          (∃ p, obj = OProject p ∧ Project.owner p ∈ users s
                ∧ user request = Some (Project.owner p))
          ∨ (∃ k p, declares_project obj k ∧ p ∈ projects s ∧ Project.id p = k
                    ∧ Project.owner p ∈ users s
                    ∧ user request = Some (Project.owner p)))
       ∧ (∀ obj p m,
            belongs s obj p → user request = Some m →
            m ∈ Project.members p → m ≠ Project.owner p →
            has_object_permission s request obj ≠ Ok true)
       ∧ owner_only OProject s request (ProjectViewSet_get_object s request u pk)
       ∧ owner_only OSession s request (SessionViewSet_get_object s request u pk)
       ∧ owner_only OEvent s request (EventViewSet_get_object s request u pk)
       ∧ owner_only OUserPrompt s request
           (UserPromptViewSet_get_object s request u pk)
       ∧ owner_only OAIResponse s request
           (AIResponseViewSet_get_object s request u pk)
       ∧ owner_only OFeedback s request (FeedbackViewSet_get_object s request u pk)
       ∧ owner_only OTag s request (TagViewSet_get_object s request u pk)
       ∧ owner_only ODashboard s request
           (DashboardViewSet_get_object s request u pk)
       ∧ owner_only OWidget s request (WidgetViewSet_get_object s request u pk))
  ∧ (∀ now ids validated_data m p,
       user request = Some m → p ∈ projects s →
       ed_project validated_data = Project.id p →
       ed_session validated_data = None →
       ed_user_prompt validated_data = None →
       ed_ai_response validated_data = None →
       ed_feedback validated_data = None →
       event_id ids ∉ (Event.id <$> events s) →
       ∃ s', EventViewSet_create now ids validated_data s request
             = Ok (s', Ok (new_event now ids validated_data))
             ∧ events s' = (events s ++ [new_event now ids validated_data])%list).
Proof.
  intros Hwf. split_and!.
  - intros Hsafe obj. by apply has_object_permission_safe.
  - intros Hm. split_and!;
      try (unfold ProjectViewSet_get_object, SessionViewSet_get_object,
             EventViewSet_get_object, UserPromptViewSet_get_object,
             AIResponseViewSet_get_object, FeedbackViewSet_get_object,
             DashboardViewSet_get_object, WidgetViewSet_get_object;
           by apply get_object_owner_only).
    + intros obj. by apply has_object_permission_write.
    + intros obj p m Hb Hu Hmem Hne Hperm.
      pose proof (permitted_write_owner s request obj p Hwf Hm Hperm Hb) as Ho.
      congruence.
    + intros r p H Hb. apply tag_object in H as (_ & _ & Hp).
      by apply (permitted_write_owner s request (OTag r)).
  - intros now ids validated_data m p Hu Hin Hp Hs Hup Har Hfb Hid.
    eexists. split; [by apply (event_create_plain _ _ _ _ _ m p)|done].
Qed.

End Views.

(** * The theorems on the sample data

    The views are evaluated with [decimal_int] for [int], [hex_uuid] for the
    conversion of a UUID, [split_terms] and [ascii_icontains] for the search
    and [no_key_error] for the database. *)

Ltac by_compute := apply (bool_decide_unpack _); vm_compute; exact I.

Ltac rows_tac :=
  let x := fresh "x" in
  let Hx := fresh "Hx" in
  intros x Hx; vm_compute in Hx;
  repeat (apply elem_of_cons in Hx as [->|Hx]);
  [..|by apply elem_of_nil in Hx].

Lemma sample_store_fk_intact : fk_intact sample_store.
Proof.
  unfold fk_intact. split_and!; rows_tac; simpl;
    repeat match goal with
           | |- _ ∧ _ => split
           | |- ∀ k, Some _ = Some k → _ => intros ? [= <-]
           | |- ∀ k, None = Some k → _ => by intros ? [=]
           | |- _ ∈ _ => by_compute
           end.
Defined.

Lemma sample_store_keys_unique : keys_unique sample_store.
Proof. unfold keys_unique, pk_unique. split_and!; by_compute. Defined.

Lemma sample_store_owners_stored :
  ∀ p, p ∈ projects sample_store → Project.owner p ∈ users sample_store.
Proof. rows_tac; by_compute. Defined.

Lemma sample_search_absent (request : Request) (fields : list string) :
  query_params request !! "search" = None →
  search_keeps split_terms ascii_icontains request fields.
Proof. intros H. unfold search_keeps. rewrite H. apply Forall_nil_2. Defined.



Lemma create_feedback_without_response_witness :
  ∃ s', create sample_now sample_ids feedback_only sample_store
        = (s', Err IntegrityError).
Proof.
  apply (create_feedback_without_response sample_now sample_ids feedback_only
           sample_store).
  - reflexivity.
  - vm_compute. reflexivity.
Defined.

(** C3 as stated fails: bob is a member of the Demo project and not its
    owner, and his POST to the events of the project is not rejected; it
    creates an event that belongs to the project. *)
Lemma member_creates_event :
  user member_posts = Some bob ∧ method member_posts ∉ SAFE_METHODS
  ∧ bob ∈ Project.members demo ∧ bob ≠ Project.owner demo
  ∧ ∃ s', EventViewSet_create sample_now sample_ids plain_event sample_store
            member_posts
          = Ok (s', Ok (new_event sample_now sample_ids plain_event))
          ∧ new_event sample_now sample_ids plain_event ∉ events sample_store
          ∧ new_event sample_now sample_ids plain_event ∈ events s'
          ∧ belongs s' (OEvent (new_event sample_now sample_ids plain_event)) demo.
Proof.
  split; [reflexivity|]. split; [by_compute|]. split; [by_compute|].
  split; [by_compute|].
  eexists. split; [vm_compute; reflexivity|]. split; [by_compute|].
  split; [by_compute|].
  apply belongs_declared
    with (k := Event.project (new_event sample_now sample_ids plain_event)).
  - apply event_declares.
  - by_compute.
  - reflexivity.
Qed.

Lemma writes_checked_on_objects_only_witness :
  has_object_permission sample_store member_reads (OEvent past_event) = Ok true
  ∧ has_object_permission sample_store member_posts (OEvent past_event) ≠ Ok true
  ∧ has_object_permission sample_store member_posts (OProject demo) ≠ Ok true
  ∧ has_object_permission sample_store owner_posts (OEvent past_event) = Ok true
  ∧ ∃ s', EventViewSet_create sample_now sample_ids plain_event sample_store
            member_posts
          = Ok (s', Ok (new_event sample_now sample_ids plain_event))
          ∧ events s'
            = (events sample_store
               ++ [new_event sample_now sample_ids plain_event])%list.
Proof.
  destruct (writes_checked_on_objects_only decimal_int hex_uuid split_terms
              ascii_icontains sample_store member_reads bob demo_pk)
    as (Hread & _); [by_compute|].
  destruct (writes_checked_on_objects_only decimal_int hex_uuid split_terms
              ascii_icontains sample_store member_posts bob demo_pk)
    as (_ & Hwrite & Hcreate); [by_compute|].
  destruct (writes_checked_on_objects_only decimal_int hex_uuid split_terms
              ascii_icontains sample_store owner_posts alice demo_pk)
    as (_ & Howner & _); [by_compute|].
  destruct Hwrite as (_ & Hmember & _); [by_compute|].
  destruct Howner as (Hiff & _); [by_compute|].
  assert (belongs sample_store (OEvent past_event) demo) as Hbelongs.
  { apply belongs_declared with (k := Event.project past_event).
    - apply event_declares.
    - by_compute.
    - reflexivity. }
  split_and!.
  - apply Hread. by_compute.
  - apply (Hmember (OEvent past_event) demo bob);
      [exact Hbelongs|reflexivity|by_compute|by_compute].
  - apply (Hmember (OProject demo) demo bob);
      [apply belongs_self|reflexivity|by_compute|by_compute].
  - apply Hiff. right. exists (Event.project past_event), demo.
    split_and!; [apply event_declares|by_compute|reflexivity|by_compute
                |reflexivity].
  - apply (Hcreate sample_now sample_ids plain_event bob demo);
      [reflexivity|by_compute|reflexivity..|by_compute].
Defined.



(** C5 as stated fails: with [days=0] the window [[now, now]] holds no event
    of the project, yet the event timestamped a day after [now] is counted. *)
Lemma stats_counts_future_event :
  ∃ st, stats decimal_int hex_uuid split_terms ascii_icontains sample_now
          sample_store (member_stats "0") bob demo_pk = Ok st
        ∧ total_events st = 1%nat
        ∧ sample_now < Event.timestamp future_event
        ∧ filter (λ e, Event.project e = Project.id demo
                       ∧ sample_now - 0 * usec_per_day ≤ Event.timestamp e
                         ≤ sample_now) (events sample_store) = [].
Proof.
  eexists. split; [vm_compute; reflexivity|]. split; [reflexivity|].
  split; [by_compute|]. vm_compute. reflexivity.
Qed.

Lemma stats_window_witness :
  ∃ st, stats decimal_int hex_uuid split_terms ascii_icontains sample_now
          sample_store (member_stats "0") bob demo_pk = Ok st
        ∧ total_events st = 1%nat ∧ total_feedback st = 0%nat.
Proof.
  destruct (stats_window decimal_int hex_uuid split_terms ascii_icontains
              sample_now sample_store (member_stats "0") bob demo_pk demo 0)
    as (st & Hst & Hev & _ & _ & _ & Hfb & _).
  - by_compute.
  - vm_compute. reflexivity.
  - vm_compute. reflexivity.
  - by_compute.
  - exists st. split; [exact Hst|]. split.
    + rewrite Hev. vm_compute. reflexivity.
    + rewrite Hfb. vm_compute. reflexivity.
Defined.


Lemma member_actions_witness :
  (add_member decimal_int hex_uuid split_terms ascii_icontains no_key_error
     sample_store owner_adds_text alice demo_pk = Err ValueError
   ∧ remove_member decimal_int hex_uuid split_terms ascii_icontains no_key_error
       sample_store owner_adds_text alice demo_pk = Err ValueError)
  ∧ (∃ s1, add_member decimal_int hex_uuid split_terms ascii_icontains
             no_key_error sample_store owner_adds_fraction alice demo_pk
           = Ok (Response200 "user added", s1)
           ∧ members_of s1 (Project.id demo) = [Project.members demo ∪ {[carol]}])
  ∧ ∃ s1, add_member decimal_int hex_uuid split_terms ascii_icontains
            no_key_error sample_store owner_adds_carol alice demo_pk
          = Ok (Response200 "user added", s1)
          ∧ members_of s1 (Project.id demo) = [Project.members demo ∪ {[carol]}]
          ∧ add_member decimal_int hex_uuid split_terms ascii_icontains
              no_key_error s1 owner_adds_carol alice demo_pk
            = Ok (Response200 "user added", s1).
Proof.
  split; [|split].
  - destruct (member_actions decimal_int hex_uuid split_terms ascii_icontains
                no_key_error sample_store owner_adds_text alice demo_pk demo)
      as [_ Hbody]; [by_compute|vm_compute; reflexivity|].
    destruct (Hbody _ eq_refl) as (_ & _ & _ & Hraises & _).
    apply (Hraises (JStr "abc") ValueError); [vm_compute; reflexivity|].
    apply raises_str. vm_compute. reflexivity.
  - destruct (member_actions decimal_int hex_uuid split_terms ascii_icontains
                no_key_error sample_store owner_adds_fraction alice demo_pk demo)
      as [_ Hbody]; [by_compute|vm_compute; reflexivity|].
    destruct (Hbody _ eq_refl) as (_ & _ & _ & _ & _ & Hadd & _).
    destruct (Hadd (JFloat (Finite (37 # 10))) carol) as (s1 & H1 & H2 & _).
    + vm_compute. reflexivity.
    + apply int_of_float. exact (truncate_truncates (37 # 10)).
    + by_compute.
    + exists s1. by split.
  - destruct (member_actions decimal_int hex_uuid split_terms ascii_icontains
                no_key_error sample_store owner_adds_carol alice demo_pk demo)
      as [_ Hbody]; [by_compute|vm_compute; reflexivity|].
    destruct (Hbody _ eq_refl) as (_ & _ & _ & _ & _ & Hadd & _).
    apply (Hadd (JInt carol) carol).
    + vm_compute. reflexivity.
    + apply int_of_int.
    + by_compute.
Defined.

Lemma end_session_sets_duration_witness :
  ∃ s1 s2,
    end_session hex_uuid split_terms ascii_icontains sample_now sample_store
      owner_posts alice demo_session_pk
    = Ok (Response200 "session ended", s1)
    ∧ end_session hex_uuid split_terms ascii_icontains (sample_now + 1) s1
        owner_posts alice demo_session_pk
      = Ok (Response200 "session ended", s2)
    ∧ ∀ x, x ∈ session_by_id s2 (Session.id demo_session) →
           Session.end_time x = Some (sample_now + 1).
Proof.
  destruct (proj2 (end_session_sets_duration hex_uuid split_terms ascii_icontains
                     sample_now (sample_now + 1) sample_store owner_posts alice
                     demo_session_pk demo_session))
    as (s1 & s2 & H1 & _ & _ & H2 & _ & H3).
  - vm_compute. reflexivity.
  - exists s1, s2. split_and!; [exact H1|exact H2|].
    intros x Hx. by destruct (H3 x Hx).
Defined.

(** C9 as stated fails: the users endpoint is no exception, a search without
    an authenticated identity is rejected like any other request. *)
Lemma users_search_requires_identity :
  check_permissions UserViewSet anonymous_search = Err NotAuthenticated
  ∧ dispatch UserViewSet anonymous_search (λ _, Ok (users sample_store))
    = Err NotAuthenticated.
Proof. split; reflexivity. Qed.

Lemma unauthenticated_rejected_witness :
  dispatch UserViewSet anonymous_search (λ _, Ok (users sample_store))
  = Err NotAuthenticated.
Proof.
  apply (unauthenticated_rejected UserViewSet anonymous_search
           (λ _, Ok (users sample_store))).
  reflexivity.
Defined.

(** C10 as stated fails: not every negative [days] gets a cutoff computed;
    beyond what a [timedelta] holds the request ends in an uncaught
    [OverflowError]. *)
Lemma stats_negative_days_overflow :
  decimal_int "-10000000000" = Some (-10000000000)
  ∧ stats decimal_int hex_uuid split_terms ascii_icontains sample_now
      sample_store (member_stats "-10000000000") bob demo_pk
    = Err OverflowError.
Proof. split; vm_compute; reflexivity. Qed.

Lemma stats_days_unchecked_witness :
  stats decimal_int hex_uuid split_terms ascii_icontains sample_now sample_store
    (member_stats "x") bob demo_pk
  = Err ValueError
  ∧ ∃ st, stats decimal_int hex_uuid split_terms ascii_icontains sample_now
            sample_store (member_stats "-1") bob demo_pk = Ok st
          ∧ st = aggregate (without_past sample_now sample_store) demo
                   (sample_now - (-1) * usec_per_day).
Proof.
  split.
  - apply (stats_days_unchecked decimal_int hex_uuid split_terms ascii_icontains
             sample_now sample_store (member_stats "x") bob demo_pk demo "x").
    + vm_compute. reflexivity.
    + vm_compute. reflexivity.
    + vm_compute. reflexivity.
  - destruct (stats_days_unchecked decimal_int hex_uuid split_terms
                ascii_icontains sample_now sample_store (member_stats "-1") bob
                demo_pk demo "-1") as (_ & _ & Hneg).
    + vm_compute. reflexivity.
    + vm_compute. reflexivity.
    + destruct (Hneg (-1)) as (_ & st & Hst & _ & Hpast).
      * vm_compute. reflexivity.
      * lia.
      * by_compute.
      * exists st. by split.
Defined.

(** * The further properties on the sample data *)

Lemma project_get_object_outcomes_witness :
  ProjectViewSet_get_object hex_uuid split_terms ascii_icontains sample_store
    member_posts bob demo_pk = Err PermissionDenied
  ∧ ProjectViewSet_get_object hex_uuid split_terms ascii_icontains sample_store
      outsider_posts carol demo_pk = Err Http404
  ∧ ProjectViewSet_get_object hex_uuid split_terms ascii_icontains sample_store
      member_searches bob demo_pk = Err Http404.
Proof.
  split_and!.
  - destruct (project_get_object_outcomes hex_uuid split_terms ascii_icontains
                sample_store member_posts bob demo_pk) as (_ & Hdenied & _);
      [by_compute|exact sample_store_owners_stored|].
    apply Hdenied. exists demo.
    split_and!; [by_compute|right; by_compute|by apply sample_search_absent
                |vm_compute; reflexivity|by_compute|by_compute].
  - destruct (project_get_object_outcomes hex_uuid split_terms ascii_icontains
                sample_store outsider_posts carol demo_pk) as (Hmissing & _);
      [by_compute|exact sample_store_owners_stored|].
    apply Hmissing. right. exists 1. split; [vm_compute; reflexivity|].
    intros p Hid (Hp & Hsee & _). revert Hid Hsee. revert p Hp. rows_tac.
    + intros _. unfold can_see. by_compute.
    + intros Hid. discriminate Hid.
  - destruct (project_get_object_outcomes hex_uuid split_terms ascii_icontains
                sample_store member_searches bob demo_pk) as (Hmissing & _);
      [by_compute|exact sample_store_owners_stored|].
    apply Hmissing. right. exists 1. split; [vm_compute; reflexivity|].
    intros p Hid (Hp & _ & Hkeeps). revert Hid Hkeeps. revert p Hp. rows_tac.
    + intros _. unfold search_keeps. by_compute.
    + intros Hid. discriminate Hid.
Defined.

Lemma membership_owner_only_witness :
  add_member decimal_int hex_uuid split_terms ascii_icontains no_key_error
    sample_store member_adds_carol bob demo_pk = Err PermissionDenied.
Proof.
  destruct (membership_owner_only decimal_int hex_uuid split_terms
              ascii_icontains no_key_error sample_store member_adds_carol bob
              demo_pk) as [Hdenied _];
    [by_compute|exact sample_store_owners_stored|by_compute|].
  apply (Hdenied demo);
    [by_compute|vm_compute; reflexivity|right; by_compute
    |by apply sample_search_absent|by_compute].
Defined.

Lemma membership_changes_are_local_witness :
  ∃ s', add_member decimal_int hex_uuid split_terms ascii_icontains no_key_error
          sample_store owner_adds_carol alice demo_pk
        = Ok (Response200 "user added", s')
        ∧ users s' = users sample_store ∧ events s' = events sample_store.
Proof.
  eexists. split; [vm_compute; reflexivity|].
  match goal with
  | |- users ?s' = _ ∧ _ =>
      destruct (membership_changes_are_local decimal_int hex_uuid split_terms
                  ascii_icontains no_key_error sample_store s' owner_adds_carol
                  alice demo_pk (Response200 "user added"))
        as (Hu & _ & He & _)
  end.
  { left. vm_compute. reflexivity. }
  split; [exact Hu|exact He].
Defined.

Lemma add_then_remove_member_witness :
  ∃ s1, add_member decimal_int hex_uuid split_terms ascii_icontains no_key_error
          sample_store owner_adds_carol alice demo_pk
        = Ok (Response200 "user added", s1)
        ∧ remove_member decimal_int hex_uuid split_terms ascii_icontains
            no_key_error s1 owner_adds_carol alice demo_pk
          = Ok (Response200 "user removed", sample_store).
Proof.
  eexists. split; [vm_compute; reflexivity|].
  match goal with
  | |- remove_member _ _ _ _ _ ?s1 _ _ _ = _ =>
      apply (add_then_remove_member decimal_int hex_uuid split_terms
               ascii_icontains no_key_error sample_store s1 owner_adds_carol
               alice demo_pk demo carol)
  end.
  - by_compute.
  - vm_compute. reflexivity.
  - left. vm_compute. reflexivity.
  - by_compute.
  - by_compute.
  - vm_compute. reflexivity.
Defined.



Lemma tag_create_never_succeeds_witness :
  TagViewSet_create short_text 9 sample_store owner_creates_tag
  = Ok (sample_store, Err IntegrityError).
Proof.
  destruct (tag_create_never_succeeds short_text 9 sample_store owner_creates_tag)
    as [H|[H|H]]; [vm_compute in H; discriminate H..|exact H].
Defined.

Lemma event_types_partition_witness :
  sum_list (snd <$> event_types
                      (aggregate sample_store demo (sample_now - 30 * usec_per_day)))
  = total_events (aggregate sample_store demo (sample_now - 30 * usec_per_day))
  ∧ (user_feedback, 1%nat)
    ∈ event_types (aggregate sample_store demo (sample_now - 30 * usec_per_day))
  ∧ ∀ c, (user_action, c)
         ∉ event_types (aggregate sample_store demo
                          (sample_now - 30 * usec_per_day)).
Proof.
  destruct (event_types_partition sample_now sample_store demo 30
              (aggregate sample_store demo (sample_now - 30 * usec_per_day)))
    as (Hsum & _ & Hcount & _); [vm_compute; reflexivity|].
  split_and!.
  - exact Hsum.
  - apply Hcount. split; [vm_compute; reflexivity|lia].
  - intros c [Hc Hpos]%Hcount. vm_compute in Hc. lia.
Defined.

Lemma session_events_exact_witness :
  ∃ rows, SessionViewSet_events hex_uuid split_terms ascii_icontains sample_store
            member_reads bob demo_session_pk = Ok rows
          ∧ Sorted newest_first rows.
Proof.
  eexists. split; [vm_compute; reflexivity|].
  match goal with
  | |- Sorted _ ?rows =>
      destruct (session_events_exact hex_uuid split_terms ascii_icontains
                  sample_store member_reads bob demo_session_pk rows)
        as (session & _ & _ & _ & Hsorted)
  end.
  { vm_compute. reflexivity. }
  exact Hsorted.
Defined.

Lemma project_create_owner_witness :
  ∃ s', ProjectViewSet_perform_create 3 "New" "" carol sample_store
        = (s', Ok (Project.mk 3 "New" "" carol ∅))
        ∧ pk_unique Project.id (projects s')
        ∧ ProjectViewSet_get_object hex_uuid split_terms ascii_icontains s'
            outsider_posts carol "00000000-0000-0000-0000-000000000003"
          = Ok (Project.mk 3 "New" "" carol ∅).
Proof.
  destruct (project_create_owner hex_uuid split_terms ascii_icontains 3 "New" ""
              carol sample_store)
    as (s' & Hcreate & _ & Hwf & _ & Hget); [by_compute..|].
  exists s'. split_and!; [exact Hcreate|exact Hwf|].
  apply Hget; [reflexivity|vm_compute; reflexivity|by apply sample_search_absent].
Defined.

Lemma project_delete_cascades_witness :
  fk_intact (Project_delete 1 sample_store)
  ∧ 1 ∉ (Project.id <$> projects (Project_delete 1 sample_store)).
Proof.
  pose proof (project_delete_cascades 1 sample_store sample_store_fk_intact) as H.
  cbv zeta in H. destruct H as (Hfk & Hgone & _). by split.
Defined.

Lemma project_destroy_owner_only_witness :
  ProjectViewSet_destroy hex_uuid split_terms ascii_icontains sample_store
    member_deletes bob demo_pk = Err PermissionDenied.
Proof.
  destruct (project_destroy_owner_only hex_uuid split_terms ascii_icontains
              sample_store member_deletes bob demo_pk) as [Hdenied _];
    [by_compute|exact sample_store_owners_stored|by_compute|].
  apply (Hdenied demo);
    [by_compute|vm_compute; reflexivity|right; by_compute
    |by apply sample_search_absent|by_compute].
Defined.

Lemma create_preserves_store_ok_witness :
  ∃ s', create sample_now sample_ids feedback_only sample_store
        = (s', Err IntegrityError)
        ∧ store_ok s'.
Proof.
  eexists. split; [vm_compute; reflexivity|].
  match goal with
  | |- store_ok ?s' =>
      apply (create_preserves_store_ok sample_now sample_ids feedback_only
               sample_store s' (Err IntegrityError))
  end.
  - split; [exact sample_store_fk_intact|exact sample_store_keys_unique].
  - vm_compute. reflexivity.
Defined.

Lemma create_then_read_witness :
  ∃ s' event, create sample_now sample_ids full_event sample_store = (s', Ok event)
              ∧ EventSerializer_data s' event
                = expected_repr sample_ids full_event event.
Proof.
  do 2 eexists. split; [vm_compute; reflexivity|].
  match goal with
  | |- EventSerializer_data ?s' ?event = _ =>
      apply (create_then_read sample_now sample_ids full_event sample_store s' event)
  end.
  - exact sample_store_fk_intact.
  - vm_compute. reflexivity.
Defined.

Lemma tag_update_keeps_unique_witness :
  ∃ s' r, TagViewSet_update decimal_int hex_uuid rename_to_task tagged_store
            owner_patches alice "7" = Ok (s', r)
          ∧ tags_unique s'
          ∧ Tag.id <$> tags s' = Tag.id <$> tags tagged_store.
Proof.
  do 2 eexists. split; [vm_compute; reflexivity|].
  match goal with
  | |- tags_unique ?s' ∧ _ =>
      destruct (tag_update_keeps_unique decimal_int hex_uuid rename_to_task
                  tagged_store s' owner_patches alice "7"
                  (Ok (Tag.mk 7 1 "task" "#ff0000"))) as (tag & _ & H)
  end.
  - by_compute.
  - unfold tags_unique. by_compute.
  - vm_compute. reflexivity.
  - cbv zeta in H. destruct H as (_ & Hun & Hids & _). split; [exact Hun|exact Hids].
Defined.

Lemma end_session_owner_and_local_witness :
  ∃ s', end_session hex_uuid split_terms ascii_icontains sample_now sample_store
          owner_posts alice demo_session_pk
        = Ok (Response200 "session ended", s')
        ∧ Session.id <$> sessions s' = Session.id <$> sessions sample_store.
Proof.
  eexists. split; [vm_compute; reflexivity|].
  match goal with
  | |- _ <$> sessions ?s' = _ =>
      destruct (end_session_owner_and_local hex_uuid split_terms ascii_icontains
                  sample_now sample_store s' owner_posts alice demo_session_pk
                  (Response200 "session ended"))
        as (session & p & _ & _ & _ & _ & _ & _ & _ & Hids & _)
  end.
  - by_compute.
  - vm_compute. reflexivity.
  - exact Hids.
Defined.

Lemma stats_counts_bounded_witness :
  ∃ st, stats decimal_int hex_uuid split_terms ascii_icontains sample_now
          sample_store (member_stats "30") bob demo_pk = Ok st
        ∧ (total_feedback st ≤ total_events st)%nat.
Proof.
  eexists. split; [vm_compute; reflexivity|].
  match goal with
  | |- (total_feedback ?st ≤ _)%nat =>
      destruct (stats_counts_bounded decimal_int hex_uuid split_terms
                  ascii_icontains sample_now sample_store (member_stats "30") bob
                  demo_pk st) as (_ & _ & Hfb & _)
  end.
  - exact sample_store_keys_unique.
  - vm_compute. reflexivity.
  - exact Hfb.
Defined.
